(** * dmf2json: the DMF interface parser, embedded and verified

    A shallow embedding of [dmf2json.py]: the string helpers the parser
    relies on, the line classifier and tree builder ([parse_file]) and the
    structural normalizer ([post_process]).

    Text is a Rocq [string]; a character is a code point below 256, and
    every statement is about texts made of such characters.  Python
    exceptions are values of [exn], and a function that may raise
    returns a [result]. *)

From Stdlib Require Import Bool Arith ZArith Lia List.
From Stdlib Require Import Strings.Ascii Strings.String.
From Stdlib Require Numbers.DecimalString Numbers.DecimalNat Numbers.DecimalFacts.
From Stdlib Require Import Sorting.Sorted.
Import ListNotations.

Local Open Scope string_scope.
Local Open Scope list_scope.

(** ** Exceptions and the error monad *)

Inductive exn : Type :=
| ValueError
| KeyError
| IndexError
| TypeError
| AttributeError.

Inductive result (A : Type) : Type :=
| Ok (a : A)
| Err (e : exn).

Arguments Ok {A} a.
Arguments Err {A} e.

Definition bind {A B : Type} (m : result A) (f : A -> result B) : result B :=
  match m with
  | Ok a => f a
  | Err e => Err e
  end.

Notation "x <- m ;; k" := (bind m (fun x => k))
  (at level 61, m at next level, right associativity).
Notation "' p <- m ;; k" := (bind m (fun x => let p := x in k))
  (at level 61, p pattern, m at next level, right associativity).

(** [for x in l: st = body(st, x)], stopping at the first exception. *)
Fixpoint for_each {S A : Type} (body : S -> A -> result S) (l : list A) (st : S)
  : result S :=
  match l with
  | [] => Ok st
  | x :: l' => st' <- body st x ;; for_each body l' st'
  end.

(** ** Python's [str] methods *)

Module PyStr.

(** [str.isspace] on one character: tab, newline, vertical tab, form feed,
    carriage return, the four separators 28..31, space, NEL and the
    no-break space. *)
Definition is_space (c : ascii) : bool :=
  let n := nat_of_ascii c in
  (((9 <=? n) && (n <=? 13)) || ((28 <=? n) && (n <=? 32))
   || (n =? 133) || (n =? 160))%nat.

Definition is_ascii_digit (c : ascii) : bool :=
  let n := nat_of_ascii c in ((48 <=? n) && (n <=? 57))%nat.

(** [str.isdigit] on one character.  Below 256 the digits are the ten
    decimal digits and the superscripts two, three and one (178, 179,
    185); the digits of other scripts, some of which [int] reads, lie
    beyond the characters of the model. *)
Definition is_digit_char (c : ascii) : bool :=
  let n := nat_of_ascii c in
  is_ascii_digit c || ((n =? 178) || (n =? 179) || (n =? 185))%nat.

Fixpoint forallb_str (p : ascii -> bool) (s : string) : bool :=
  match s with
  | EmptyString => true
  | String c s' => p c && forallb_str p s'
  end.

(** [s.isdigit()]: non-empty and every character a digit. *)
Definition isdigit (s : string) : bool :=
  match s with
  | EmptyString => false
  | _ => forallb_str is_digit_char s
  end.

(** Membership of a character in the argument of [strip(chars)]. *)
Fixpoint mem_char (c : ascii) (chars : string) : bool :=
  match chars with
  | EmptyString => false
  | String d chars' => Ascii.eqb c d || mem_char c chars'
  end.

Fixpoint lstrip_by (p : ascii -> bool) (s : string) : string :=
  match s with
  | EmptyString => EmptyString
  | String c s' => if p c then lstrip_by p s' else s
  end.

Fixpoint rstrip_by (p : ascii -> bool) (s : string) : string :=
  match s with
  | EmptyString => EmptyString
  | String c s' =>
      match rstrip_by p s' with
      | EmptyString => if p c then EmptyString else String c EmptyString
      | r => String c r
      end
  end.

Definition strip_by (p : ascii -> bool) (s : string) : string :=
  lstrip_by p (rstrip_by p s).

(** [s.lstrip()], [s.rstrip()] and [s.strip(chars)]. *)
Definition lstrip (s : string) : string := lstrip_by is_space s.
Definition rstrip (s : string) : string := rstrip_by is_space s.
Definition strip (chars s : string) : string :=
  strip_by (fun c => mem_char c chars) s.

(** [s.startswith(p)] is [String.prefix p s]. *)
Definition startswith (s p : string) : bool := String.prefix p s.

(** [sub in s]. *)
Fixpoint occurs (sub s : string) : bool :=
  String.prefix sub s
  || match s with
     | EmptyString => false
     | String _ s' => occurs sub s'
     end.

(** [s.replace(a, b)] for one-character [a] and [b]. *)
Fixpoint replace (a b : ascii) (s : string) : string :=
  match s with
  | EmptyString => EmptyString
  | String c s' => String (if Ascii.eqb c a then b else c) (replace a b s')
  end.

Definition cons_head (c : ascii) (l : list string) : list string :=
  match l with
  | h :: t => String c h :: t
  | [] => [String c EmptyString]
  end.

(** [s.split()]: the maximal runs of non-whitespace characters. *)
Fixpoint split_ws (s : string) : list string :=
  match s with
  | EmptyString => []
  | String c s' =>
      if is_space c then split_ws s'
      else match s' with
           | EmptyString => [String c EmptyString]
           | String c' _ =>
               if is_space c' then String c EmptyString :: split_ws s'
               else cons_head c (split_ws s')
           end
  end.

(** [s.split(sep)] for a non-empty [sep], scanning left to right;
    [skip] counts the characters of a matched separator still to pass. *)
Fixpoint split_from (sep : string) (skip : nat) (s : string) : list string :=
  match s with
  | EmptyString => [EmptyString]
  | String c s' =>
      match skip with
      | S k => split_from sep k s'
      | O =>
          if String.prefix sep s
          then EmptyString :: split_from sep (String.length sep - 1) s'
          else cons_head c (split_from sep 0 s')
      end
  end.

Definition split (sep s : string) : list string := split_from sep 0 s.

End PyStr.

(** Unpacking [a, b = parts]: exactly two parts, else [ValueError]. *)
Definition unpack2 {A : Type} (parts : list A) : result (A * A) :=
  match parts with
  | [a; b] => Ok (a, b)
  | _ => Err ValueError
  end.

(** ** The two line splitters *)

Definition quote : string := String (ascii_of_nat 34) EmptyString.
Definition newline_quote : string :=
  String (ascii_of_nat 10) (String (ascii_of_nat 34) EmptyString).

Definition _parse_key_value (s : string) : result (string * option string) :=
  if PyStr.occurs " " s then
    '(key, value) <- unpack2 (PyStr.split_ws s) ;;
    Ok (key, Some (PyStr.strip quote value))
  else Ok (s, None).

Definition _parse_key_eq_sign_value (s : string) : result (string * string) :=
  '(key, value) <- unpack2 (PyStr.split " = " s) ;;
  Ok (key, PyStr.strip quote value).

(** ** Values and ordered dictionaries *)

(** The values a record field can hold: [None], booleans, integers,
    strings, tuples of integers, lists and (ordered) dictionaries. *)
#[local] Unset Elimination Schemes.
Inductive value : Type :=
| VNone
| VBool (b : bool)
| VInt (n : Z)
| VStr (s : string)
| VTuple (l : list Z)
| VList (l : list value)
| VDict (d : list (string * value)).
#[local] Set Elimination Schemes.

(** A [collections.OrderedDict] (or a [dict]) with string keys, in
    insertion order. *)
Definition dict : Type := list (string * value).

(** Python's truth value of an object. *)
Definition truthy (v : value) : bool :=
  match v with
  | VNone => false
  | VBool b => b
  | VInt n => negb (n =? 0)%Z
  | VStr s => negb (s =? "")
  | VTuple l => match l with [] => false | _ => true end
  | VList l => match l with [] => false | _ => true end
  | VDict d => match d with [] => false | _ => true end
  end.

(** Truth value of [d.get(k)], which is [None] when [k] is absent. *)
Definition truthy_opt (o : option value) : bool :=
  match o with
  | Some v => truthy v
  | None => false
  end.

Fixpoint dict_get (k : string) (d : dict) : option value :=
  match d with
  | [] => None
  | (k', v) :: d' => if k =? k' then Some v else dict_get k d'
  end.

(** [k in d]. *)
Definition dict_has (k : string) (d : dict) : bool :=
  match dict_get k d with
  | Some _ => true
  | None => false
  end.

(** [d[k]], raising [KeyError] when [k] is absent. *)
Definition dict_getitem (k : string) (d : dict) : result value :=
  match dict_get k d with
  | Some v => Ok v
  | None => Err KeyError
  end.

(** [d[k] = v]: an existing key keeps its position, a new key goes last. *)
Fixpoint dict_set (k : string) (v : value) (d : dict) : dict :=
  match d with
  | [] => [(k, v)]
  | (k', v') :: d' =>
      if k =? k' then (k', v) :: d' else (k', v') :: dict_set k v d'
  end.

(** Removal of the binding of [k]; a dictionary binds a key at most
    once, which [dict_set] and [dict_del] preserve. *)
Definition dict_del (k : string) (d : dict) : dict :=
  filter (fun kv => negb (k =? fst kv)) d.

(** [d.pop(k)]: the value and the dictionary without [k]. *)
Definition dict_pop (k : string) (d : dict) : result (value * dict) :=
  match dict_get k d with
  | Some v => Ok (v, dict_del k d)
  | None => Err KeyError
  end.

(** Using a value as a dictionary or as a list. *)
Definition as_dict (v : value) : result dict :=
  match v with
  | VDict d => Ok d
  | _ => Err TypeError
  end.

Definition as_list (v : value) : result (list value) :=
  match v with
  | VList l => Ok l
  | _ => Err TypeError
  end.

Fixpoint map_result {A B : Type} (f : A -> result B) (l : list A)
  : result (list B) :=
  match l with
  | [] => Ok []
  | x :: l' => y <- f x ;; ys <- map_result f l' ;; Ok (y :: ys)
  end.

(** ** Integer conversion and [to_ints] *)

Definition underscore : ascii := ascii_of_nat 95.
Definition hyphen : ascii := ascii_of_nat 45.
Definition plus_sign : ascii := ascii_of_nat 43.

Definition digit_val (c : ascii) : Z := (Z.of_nat (nat_of_ascii c) - 48)%Z.

(** The digits of an integer literal: decimal digits, with single
    underscores allowed between two digits only.  [prev] tells whether
    the previous character was a digit. *)
Fixpoint int_digits (acc : Z) (prev : bool) (s : string) : option Z :=
  match s with
  | EmptyString => if prev then Some acc else None
  | String c s' =>
      if PyStr.is_ascii_digit c
      then int_digits (10 * acc + digit_val c)%Z true s'
      else if Ascii.eqb c underscore
           then (if prev then int_digits acc false s' else None)
           else None
  end.

(** The whitespace that [int] drops around a literal: unlike [isspace],
    the separators 28..31 are not part of it. *)
Definition is_int_space (c : ascii) : bool :=
  let n := nat_of_ascii c in
  (((9 <=? n) && (n <=? 13)) || (n =? 32) || (n =? 133) || (n =? 160))%nat.

(** The number of decimal digits of a literal; its sign, underscores
    and surrounding whitespace do not count. *)
Fixpoint count_digits (s : string) : nat :=
  match s with
  | EmptyString => O
  | String c s' =>
      if PyStr.is_ascii_digit c then S (count_digits s') else count_digits s'
  end.

(** [sys.get_int_max_str_digits()], at its default. *)
Definition int_max_str_digits : Z := 4300.

(** [int(s)]: surrounding whitespace is dropped, then an optional sign,
    then the digits.  A well-formed literal with more digits than
    CPython's limit on conversions from a string raises [ValueError]
    as an ill-formed one does. *)
Definition py_int (s : string) : result Z :=
  let t := PyStr.strip_by is_int_space s in
  let r :=
    match t with
    | String c t' =>
        if Ascii.eqb c hyphen then option_map Z.opp (int_digits 0 false t')
        else if Ascii.eqb c plus_sign then int_digits 0 false t'
        else int_digits 0 false t
    | EmptyString => None
    end in
  match r with
  | Some n =>
      if (Z.of_nat (count_digits t) <=? int_max_str_digits)%Z
      then Ok n else Err ValueError
  | None => Err ValueError
  end.

Definition to_ints (s delimiter : string) : result (list Z) :=
  map_result py_int (PyStr.split delimiter s).

Definition DEFAULT_VALUES_MAP : dict :=
  [ ("none", VNone); ("false", VBool false); ("true", VBool true) ].

Definition DELIMITER_MAP : list (string * string) :=
  [ ("anchor1", ","); ("anchor2", ","); ("pos", ",");
    ("size", "x"); ("cell_span", "x"); ("cells", "x");
    ("current_cell", "x") ].

Fixpoint lookup_str {A : Type} (k : string) (m : list (string * A)) : option A :=
  match m with
  | [] => None
  | (k', v) :: m' => if k =? k' then Some v else lookup_str k m'
  end.

(** ** The parser object

    Category objects live in [heap], addressed by creation order; the
    three buckets hold addresses, so that a category reached through
    [category] and through its bucket is one object.  An element is
    addressed by its category and its index in that category's
    [controls]: elements are only ever appended while lines are read. *)

Record DMFParser : Type := {
  heap : list dict;
  macrolists : list nat;
  menubars : list nat;
  windows : list nat;
  category : option nat;
  element : option (nat * nat)
}.

(** [DMFParser.__init__]. *)
Definition init : DMFParser :=
  {| heap := []; macrolists := []; menubars := []; windows := [];
     category := None; element := None |}.

Definition load (h : list dict) (a : nat) : dict := nth a h [].

Fixpoint store {A : Type} (l : list A) (i : nat) (x : A) : list A :=
  match l, i with
  | [], _ => []
  | _ :: l', O => x :: l'
  | y :: l', S j => y :: store l' j x
  end.

(** [l[i]], raising [IndexError] out of range. *)
Definition list_getitem {A : Type} (l : list A) (i : nat) : result A :=
  match nth_error l i with
  | Some x => Ok x
  | None => Err IndexError
  end.

Definition with_heap (st : DMFParser) (h : list dict) : DMFParser :=
  {| heap := h; macrolists := macrolists st; menubars := menubars st;
     windows := windows st; category := category st; element := element st |}.

(** The record that a header line opens: its [type], its [id] when the
    identifier is given and non-empty, and what the caller puts after. *)
Definition header_record (type : string) (id : option string) (rest : dict)
  : dict :=
  let d := [("type", VStr type)] in
  let d :=
    match id with
    | Some i => if truthy (VStr i) then dict_set "id" (VStr i) d else d
    | None => d
    end in
  (d ++ rest)%list.

Definition _parse_category (st : DMFParser) (line : string) : result DMFParser :=
  '(category_type, category_id) <- _parse_key_value line ;;
  let cat := header_record category_type category_id [("controls", VList [])] in
  let a := List.length (heap st) in
  let h := (heap st ++ [cat])%list in
  Ok {| heap := h;
        macrolists := if category_type =? "macro"
                      then (macrolists st ++ [a])%list else macrolists st;
        menubars := if category_type =? "macro" then menubars st
                    else if category_type =? "menu"
                         then (menubars st ++ [a])%list else menubars st;
        windows := if category_type =? "macro" then windows st
                   else if category_type =? "menu" then windows st
                   else if category_type =? "window"
                        then (windows st ++ [a])%list else windows st;
        category := Some a;
        element := element st |}.

Definition _parse_element (st : DMFParser) (line : string) : result DMFParser :=
  let line := PyStr.lstrip line in
  '(element_type, element_id) <- _parse_key_value line ;;
  let elem := header_record element_type element_id [] in
  match category st with
  | None => Err TypeError
  | Some a =>
      let cat := load (heap st) a in
      controls_v <- dict_getitem "controls" cat ;;
      controls <- as_list controls_v ;;
      let cat' := dict_set "controls" (VList (controls ++ [VDict elem])) cat in
      Ok {| heap := store (heap st) a cat';
            macrolists := macrolists st; menubars := menubars st;
            windows := windows st; category := category st;
            element := Some (a, List.length controls) |}
  end.

(** The [if]/[elif] chain of [_parse_attribute] that turns the raw value
    of an attribute into a typed one; the first test that holds wins. *)
Definition coerce (name raw : string) : result value :=
  match dict_get raw DEFAULT_VALUES_MAP with
  | Some v => Ok v
  | None =>
      match lookup_str name DELIMITER_MAP with
      | Some delimiter => l <- to_ints raw delimiter ;; Ok (VTuple l)
      | None =>
          if PyStr.isdigit raw then n <- py_int raw ;; Ok (VInt n)
          else if name =? "saved_params"
               then Ok (VList (map VStr (PyStr.split ";" raw)))
               else Ok (VStr raw)
      end
  end.

(** [value == 'MAIN']. *)
Definition is_MAIN (v : value) : bool :=
  match v with
  | VStr s => s =? "MAIN"
  | _ => false
  end.

(** [self.element[k] = v], as an update [f] of the element that
    [self.element] refers to; [TypeError] when it is still [None]. *)
Definition update_element (st : DMFParser) (f : dict -> dict) : result DMFParser :=
  match element st with
  | None => Err TypeError
  | Some (a, i) =>
      let cat := load (heap st) a in
      controls_v <- dict_getitem "controls" cat ;;
      controls <- as_list controls_v ;;
      elem_v <- list_getitem controls i ;;
      elem <- as_dict elem_v ;;
      let cat' := dict_set "controls" (VList (store controls i (VDict (f elem)))) cat in
      Ok (with_heap st (store (heap st) a cat'))
  end.

Definition _parse_attribute (st : DMFParser) (line : string) : result DMFParser :=
  let line := PyStr.lstrip line in
  '(name, raw) <- _parse_key_eq_sign_value line ;;
  let name := PyStr.replace hyphen underscore name in
  let raw := PyStr.replace hyphen underscore raw in
  let raw := PyStr.strip newline_quote raw in
  v <- coerce name raw ;;
  if name =? "type" then
    let v := if is_MAIN v then VStr "WINDOW" else v in
    update_element st (dict_set "type" v)
  else
    update_element st (dict_set name v).

(** ** Reading the file *)

Definition tab : ascii := ascii_of_nat 9.
Definition LF : ascii := ascii_of_nat 10.
Definition CR : ascii := ascii_of_nat 13.

(** Text mode translates every line ending to a line feed. *)
Fixpoint universal_newlines (s : string) : string :=
  match s with
  | EmptyString => EmptyString
  | String c s' =>
      if Ascii.eqb c CR then
        match s' with
        | String c' _ =>
            if Ascii.eqb c' LF then universal_newlines s'
            else String LF (universal_newlines s')
        | EmptyString => String LF EmptyString
        end
      else String c (universal_newlines s')
  end.

(** Iterating over the file: the lines, each with its line feed. *)
Fixpoint readlines (s : string) : list string :=
  match s with
  | EmptyString => []
  | String c s' =>
      if Ascii.eqb c LF then String LF EmptyString :: readlines s'
      else PyStr.cons_head c (readlines s')
  end.

(** The body of the loop over the lines. *)
Definition parse_line (st : DMFParser) (line : string) : result DMFParser :=
  let line := PyStr.rstrip line in
  if line =? "" then Ok st
  else if PyStr.startswith line (String tab (String tab EmptyString))
       then _parse_attribute st line
       else if PyStr.startswith line (String tab EmptyString)
            then _parse_element st line
            else _parse_category st line.

(** The body of the loop over [self.windows] that ends [parse_file]. *)
Definition pane_window (st : DMFParser) (a : nat) : result DMFParser :=
  let window := load (heap st) a in
  controls_v <- dict_getitem "controls" window ;;
  controls <- as_list controls_v ;;
  elem_v <- list_getitem controls 0 ;;
  elem <- as_dict elem_v ;;
  if dict_has "is_pane" elem then
    '(is_pane, elem) <- dict_pop "is_pane" elem ;;
    let elem :=
      if truthy is_pane then dict_set "type" (VStr "PANE") elem else elem in
    let window :=
      dict_set "controls" (VList (store controls 0 (VDict elem))) window in
    Ok (with_heap st (store (heap st) a window))
  else Ok st.

(** The first loop of [parse_file], over the lines of the text. *)
Definition parse_lines (text : string) (st : DMFParser) : result DMFParser :=
  for_each parse_line (readlines (universal_newlines text)) st.

(** [parse_file], on the text of the file instead of its name. *)
Definition parse_file (text : string) (st : DMFParser) : result DMFParser :=
  st <- parse_lines text st ;;
  for_each pane_window (windows st) st.

(** ** The structural normalizer

    Once the lines are read, every category is referenced by one bucket
    only and every element by one [controls] list only, and nothing is
    read through [category] or [element] any more: [post_process] is
    modelled on the records themselves.  The buckets hold category
    records as the line handlers build them; on any other shape the
    model raises [TypeError]. *)

Record forest : Type := {
  f_macrolists : list value;
  f_menubars : list value;
  f_windows : list value
}.

Definition contents (st : DMFParser) : forest :=
  {| f_macrolists := map (fun a => VDict (load (heap st) a)) (macrolists st);
     f_menubars := map (fun a => VDict (load (heap st) a)) (menubars st);
     f_windows := map (fun a => VDict (load (heap st) a)) (windows st) |}.

(** Keys of a dictionary and members of a set are compared with [==]:
    [True == 1] and [False == 0]. *)
Definition key_eqb (a b : value) : bool :=
  match a, b with
  | VNone, VNone => true
  | VBool x, VBool y => Bool.eqb x y
  | VBool x, VInt n => (n =? (if x then 1 else 0))%Z
  | VInt n, VBool x => (n =? (if x then 1 else 0))%Z
  | VInt n, VInt m => (n =? m)%Z
  | VStr s, VStr t => s =? t
  | VTuple l, VTuple l' =>
      if list_eq_dec Z.eq_dec l l' then true else false
  | _, _ => false
  end.

Definition hashable (v : value) : bool :=
  match v with
  | VList _ | VDict _ => false
  | _ => true
  end.

(** Hashing a key: lists and dictionaries raise [TypeError]. *)
Definition hash_key (k : value) : result unit :=
  if hashable k then Ok tt else Err TypeError.

(** The [categories] mapping: an [OrderedDict] from names to records. *)
Definition odict : Type := list (value * value).

Fixpoint odict_get (k : value) (m : odict) : option value :=
  match m with
  | [] => None
  | (k', v) :: m' => if key_eqb k k' then Some v else odict_get k m'
  end.

Fixpoint odict_set (k v : value) (m : odict) : odict :=
  match m with
  | [] => [(k, v)]
  | (k', v') :: m' =>
      if key_eqb k k' then (k', v) :: m' else (k', v') :: odict_set k v m'
  end.

(** [groups.add(g)].  The set is kept as the list of its members in
    insertion order.  [list(groups)] enumerates them in the order of
    their hashes, which for strings changes from one run to the next:
    of the list under [groups] only the members and the absence of
    duplicates are meaningful, not the order. *)
Definition set_add (g : value) (groups : list value) : list value :=
  if existsb (key_eqb g) groups then groups else (groups ++ [g])%list.

(** The record synthesized at the first reference to a category. *)
Definition new_category (category_name : value) : dict :=
  [ ("name", category_name); ("command", VStr "");
    ("saved_params", VStr "is_checked"); ("actions", VList []) ].

Definition SEPARATOR : dict := [("type", VStr "SEPARATOR")].

(** The body of the loop over the entries of one menu bar. *)
Definition menu_step (acc : odict * list value) (menu_v : value)
  : result (odict * list value) :=
  let '(categories, groups) := acc in
  menu <- as_dict menu_v ;;
  if negb (dict_has "category" menu) then
    let menu := dict_set "type" (VStr "MENU") menu in
    let menu := dict_set "actions" (VList []) menu in
    let menu := if dict_has "command" menu then dict_del "command" menu else menu in
    let menu :=
      if dict_has "saved_params" menu then dict_del "saved_params" menu else menu in
    name <- dict_getitem "name" menu ;;
    _ <- hash_key name ;;
    Ok (odict_set name (VDict menu) categories, groups)
  else
    '(category_name, menu) <- dict_pop "category" menu ;;
    _ <- hash_key category_name ;;
    let categories :=
      match odict_get category_name categories with
      | Some _ => categories
      | None => odict_set category_name (VDict (new_category category_name)) categories
      end in
    '(menu, groups) <-
      (if truthy_opt (dict_get "name" menu) then
         let menu := dict_set "type" (VStr "ACTION") menu in
         if truthy_opt (dict_get "group" menu) then
           g <- dict_getitem "group" menu ;;
           _ <- hash_key g ;;
           Ok (menu, set_add g groups)
         else Ok (menu, groups)
       else Ok (SEPARATOR, groups)) ;;
    match odict_get category_name categories with
    | None => Err KeyError
    | Some record_v =>
        record <- as_dict record_v ;;
        actions_v <- dict_getitem "actions" record ;;
        actions <- as_list actions_v ;;
        let record := dict_set "actions" (VList (actions ++ [VDict menu])) record in
        Ok (odict_set category_name (VDict record) categories, groups)
    end.

Definition post_macro (v : value) : result value :=
  macro <- as_dict v ;;
  Ok (VDict (dict_set "type" (VStr "MACRO") macro)).

Definition post_macrolist (v : value) : result value :=
  macrolist <- as_dict v ;;
  let macrolist := dict_set "type" (VStr "MACROLIST") macrolist in
  '(controls_v, macrolist) <- dict_pop "controls" macrolist ;;
  macros <- as_list controls_v ;;
  macros <- map_result post_macro macros ;;
  Ok (VDict (dict_set "macros" (VList macros) macrolist)).

Definition post_menubar (v : value) : result value :=
  menubar <- as_dict v ;;
  '(menus_v, menubar) <- dict_pop "controls" menubar ;;
  menus <- as_list menus_v ;;
  '(categories, groups) <- for_each menu_step menus ([], []) ;;
  let menubar := dict_set "type" (VStr "MENUBAR") menubar in
  let menubar := dict_set "menus" (VList (map snd categories)) menubar in
  let menubar := dict_set "groups" (VList groups) menubar in
  Ok (VDict menubar).

Definition post_window (v : value) : result value :=
  window <- as_dict v ;;
  controls_v <- dict_getitem "controls" window ;;
  controls <- as_list controls_v ;;
  match controls with
  | [] => Err IndexError
  | true_window_v :: controls =>
      true_window <- as_dict true_window_v ;;
      Ok (VDict (dict_set "controls" (VList controls) true_window))
  end.

Definition post_process (f : forest) : result forest :=
  ms <- map_result post_macrolist (f_macrolists f) ;;
  bs <- map_result post_menubar (f_menubars f) ;;
  ws <- map_result post_window (f_windows f) ;;
  Ok {| f_macrolists := ms; f_menubars := bs; f_windows := ws |}.

(** [DMFParser.parse] on the text of the input file: the three lists
    that [to_json] serializes. *)
Definition parse (text : string) : result forest :=
  st <- parse_file text init ;;
  post_process (contents st).

(** ** Vocabulary of the statements *)

(** Number of occurrences of a character. *)
Fixpoint count_char (c : ascii) (s : string) : nat :=
  match s with
  | EmptyString => O
  | String d s' => (if Ascii.eqb c d then 1 else 0) + count_char c s'
  end.

(** A token: a non-empty string without whitespace. *)
Definition token (s : string) : Prop :=
  s <> "" /\ PyStr.forallb_str (fun c => negb (PyStr.is_space c)) s = true.

Definition nl : string := String LF EmptyString.
Definition tab1 : string := String tab EmptyString.

(** The input of the first end-to-end scenario: a window category
    ["main"], one element [MAIN] and its attribute [is_pane]. *)
Definition scenario_1 : string :=
  ("window " ++ quote ++ "main" ++ quote ++ nl
   ++ tab1 ++ "MAIN" ++ nl
   ++ tab1 ++ tab1 ++ "is_pane = " ++ quote ++ "true" ++ quote ++ nl)%string.

(** The element that [self.element] refers to, when there is one. *)
Definition current_element (st : DMFParser) : option dict :=
  match element st with
  | None => None
  | Some (a, i) =>
      match nth_error (heap st) a with
      | None => None
      | Some cat =>
          match dict_get "controls" cat with
          | Some (VList controls) =>
              match nth_error controls i with
              | Some (VDict e) => Some e
              | _ => None
              end
          | _ => None
          end
      end
  end.

(** The three keyword literals and the values they stand for. *)
Definition keyword (raw : string) (v : value) : Prop :=
  (raw = "true" /\ v = VBool true)
  \/ (raw = "false" /\ v = VBool false)
  \/ (raw = "none" /\ v = VNone).

(** A negative integer literal: a hyphen followed by decimal digits. *)
Definition negative_literal (c : string) : Prop :=
  exists ds, c = String hyphen ds /\ ds <> ""
             /\ PyStr.forallb_str PyStr.is_ascii_digit ds = true.

(** [d.join(l)] for a one-character [d]. *)
Fixpoint join (d : ascii) (l : list string) : string :=
  match l with
  | [] => ""
  | x :: l' =>
      match l' with
      | [] => x
      | _ => (x ++ String d (join d l'))%string
      end
  end.

(** What may stand before and after a part of [s.split(d)]. *)
Definition ends_with_sep (d : ascii) (u : string) : Prop :=
  u = "" \/ exists u0, u = (u0 ++ String d "")%string.

Definition starts_with_sep (d : ascii) (v : string) : Prop :=
  v = "" \/ exists v0, v = String d v0.

(** A parser that has read a window header and one element header. *)
Definition one_element : DMFParser :=
  {| heap := [[("type", VStr "window");
               ("controls", VList [VDict [("type", VStr "MAIN")]])]];
     macrolists := []; menubars := []; windows := [0];
     category := Some 0; element := Some (0, 0) |}.

(** Shape of the records the line handlers build. *)
Definition is_record (v : value) : Prop := exists d, v = VDict d.

Definition category_ok (cat : dict) : Prop :=
  exists controls,
    dict_get "controls" cat = Some (VList controls) /\ Forall is_record controls.

Definition parser_ok (st : DMFParser) : Prop :=
  Forall category_ok (heap st)
  /\ Forall (fun a => a < List.length (heap st)) (windows st).

(** The category at address [a] has no child element. *)
Definition childless (st : DMFParser) (a : nat) : Prop :=
  dict_get "controls" (load (heap st) a) = Some (VList []).

(** ** Vocabulary of the menu statements *)

(** Keys are compared up to the identification of booleans with 0, 1. *)
Definition key_norm (v : value) : value :=
  match v with
  | VBool b => VInt (if b then 1 else 0)
  | _ => v
  end.

(** The entry carries the category [c]. *)
Definition in_category (c : value) (m : dict) : bool :=
  match dict_get "category" m with
  | Some c' => key_eqb c c'
  | None => false
  end.

(** The entry has no category and is named [c]. *)
Definition is_named (c : value) (m : dict) : bool :=
  match dict_get "category" m with
  | Some _ => false
  | None =>
      match dict_get "name" m with
      | Some n => key_eqb c n
      | None => false
      end
  end.

(** The key under which an entry is filed: its category, or else its
    name. *)
Definition entry_key (m : dict) : option value :=
  match dict_get "category" m with
  | Some c => Some c
  | None => dict_get "name" m
  end.

(** An entry that the loop can file: its key exists and is hashable,
    and so is its group. *)
Definition entry_ok (m : dict) : Prop :=
  (exists k, entry_key m = Some k /\ hashable k = true)
  /\ (forall g, dict_get "group" m = Some g -> hashable g = true).

(** What an entry with a category becomes in the [actions] list. *)
Definition action_of (m : dict) : dict :=
  let m' := dict_del "category" m in
  if truthy_opt (dict_get "name" m')
  then dict_set "type" (VStr "ACTION") m'
  else SEPARATOR.

(** What an entry without category becomes: a menu without actions. *)
Definition menu_of (m : dict) : dict :=
  dict_del "saved_params"
    (dict_del "command"
       (dict_set "actions" (VList []) (dict_set "type" (VStr "MENU") m))).

(** The actions of the entries of category [c], in entry order. *)
Definition actions_for (c : value) (ms : list dict) : list value :=
  map (fun m => VDict (action_of m)) (filter (in_category c) ms).

(** The keys of the entries in the order of their first occurrence,
    after those already [seen]. *)
Fixpoint first_seen (seen : list value) (ms : list dict) : list value :=
  match ms with
  | [] => seen
  | m :: ms' =>
      match entry_key m with
      | Some k =>
          first_seen (if existsb (key_eqb k) seen then seen
                      else (seen ++ [k])%list) ms'
      | None => first_seen seen ms'
      end
  end.

Definition actions_of (r : dict) : list value :=
  match dict_get "actions" r with
  | Some (VList l) => l
  | _ => []
  end.

Definition add_action (r a : dict) : dict :=
  dict_set "actions" (VList (actions_of r ++ [VDict a])) r.

(** The effect of one entry on the record filed under [c]. *)
Definition record_step (c : value) (r : option value) (m : dict) : option value :=
  match dict_get "category" m with
  | None => if is_named c m then Some (VDict (menu_of m)) else r
  | Some c' =>
      if key_eqb c c'
      then Some (VDict (add_action
                          match r with
                          | Some (VDict x) => x
                          | _ => new_category c'
                          end (action_of m)))
      else r
  end.

(** Records without a lingering [category]. *)
Definition action_ok (v : value) : Prop :=
  exists a, v = VDict a /\ dict_has "category" a = false.

Definition record_ok (v : value) : Prop :=
  exists r acts,
    v = VDict r /\ dict_has "category" r = false
    /\ dict_get "actions" r = Some (VList acts) /\ Forall action_ok acts.

Definition categories_ok (cats : odict) : Prop :=
  Forall (fun kv => record_ok (snd kv)) cats.

(** The mapping once the category [c] is sure to be in it, and the
    record then filed under [c]. *)
Definition ensure_category (c : value) (cats : odict) : odict :=
  match odict_get c cats with
  | Some _ => cats
  | None => odict_set c (VDict (new_category c)) cats
  end.

Definition category_record (c : value) (cats : odict) : dict :=
  match odict_get c cats with
  | Some (VDict x) => x
  | _ => new_category c
  end.

(** The effect of an entry with a category on the set of groups. *)
Definition group_step (m : dict) (groups : list value) : result (list value) :=
  let menu := dict_del "category" m in
  if truthy_opt (dict_get "name" menu) then
    let menu := dict_set "type" (VStr "ACTION") menu in
    if truthy_opt (dict_get "group" menu) then
      g <- dict_getitem "group" menu ;;
      _ <- hash_key g ;;
      Ok (set_add g groups)
    else Ok groups
  else Ok groups.

(** No entry without category is named [c]. *)
Definition unnamed (c : value) (ms : list dict) : Prop :=
  forallb (fun m => negb (is_named c m)) ms = true.

(** The record to which the actions of category [c] are appended:
    the record synthesized at the first reference, when no entry without
    category is named [c]; or the entry without category named [c],
    turned into a menu, when it comes before every entry of category
    [c] and is the last of that name. *)
Inductive category_base (c : value) (ms : list dict) : dict -> Prop :=
| base_new (m0 : dict) (rest : list dict) (c0 : value) :
    unnamed c ms ->
    filter (in_category c) ms = m0 :: rest ->
    dict_get "category" m0 = Some c0 ->
    category_base c ms
      [ ("name", c0); ("command", VStr "");
        ("saved_params", VStr "is_checked"); ("actions", VList []) ]
| base_menu (pre : list dict) (m : dict) (post : list dict) :
    ms = (pre ++ m :: post)%list ->
    is_named c m = true ->
    unnamed c post ->
    filter (in_category c) pre = [] ->
    category_base c ms (menu_of m).

(** A menu bar: the menu [File], the action [Quit] of category [File]
    and a nameless entry of the same category. *)
Definition file_menu : list dict :=
  [ [("type", VStr "elem"); ("name", VStr "File"); ("command", VStr "")];
    [("type", VStr "elem"); ("name", VStr "Quit"); ("category", VStr "File")];
    [("type", VStr "elem"); ("category", VStr "File")] ].

Definition file_menubar : dict :=
  [ ("type", VStr "menu"); ("id", VStr "menu");
    ("controls", VList (map VDict file_menu)) ].

(** A menu bar in which the menu [F] comes after an action of category
    [F]. *)
Definition late_menu : list dict :=
  [ [("type", VStr "elem"); ("name", VStr "A"); ("category", VStr "F")];
    [("type", VStr "elem"); ("name", VStr "F")];
    [("type", VStr "elem"); ("name", VStr "B"); ("category", VStr "F")] ].

(** ** Vocabulary of the statements on lines *)

(** The three kinds of lines that [parse_file] tells apart, and the
    blank ones. *)
Definition blank_line (l : string) : Prop := PyStr.rstrip l = "".

Definition attribute_line (l : string) : Prop :=
  PyStr.rstrip l <> ""
  /\ PyStr.startswith (PyStr.rstrip l) (String tab (String tab "")) = true.

Definition category_line (l : string) : Prop :=
  PyStr.rstrip l <> ""
  /\ PyStr.startswith (PyStr.rstrip l) (String tab (String tab "")) = false
  /\ PyStr.startswith (PyStr.rstrip l) (String tab "") = false.

(** The header of a window category. *)
Definition window_header (l : string) : Prop :=
  category_line l
  /\ exists id, _parse_key_value (PyStr.rstrip l) = Ok ("window", id).

(** The lines after a header that give its category no element: blank
    and attribute lines, up to the end or to the next header. *)
Definition no_element_follows (ls : list string) : Prop :=
  exists mid post,
    ls = (mid ++ post)%list
    /\ Forall (fun l => blank_line l \/ attribute_line l) mid
    /\ (post = [] \/ exists c post', post = c :: post' /\ category_line c).

(** The window at address [a] is registered, allocated and childless. *)
Definition empty_window (a : nat) (st : DMFParser) : Prop :=
  a < List.length (heap st) /\ In a (windows st) /\ childless st a.

(** ** Vocabulary of the statements on header lines *)

(** A run of whitespace. *)
Definition blank (s : string) : Prop :=
  PyStr.forallb_str PyStr.is_space s = true.

(** A header line: a line that is not blank and does not begin with
    two tabs. *)
Definition header_line (l : string) : Prop :=
  PyStr.rstrip l <> ""
  /\ PyStr.startswith (PyStr.rstrip l) (String tab (String tab "")) = false.

(** The text of a header line that reaches the key/value splitter:
    [parse_file] removes the trailing whitespace and, for an element
    header, [_parse_element] the leading one. *)
Definition header_text (l : string) : string :=
  let line := PyStr.rstrip l in
  if PyStr.startswith line (String tab "") then PyStr.lstrip line else line.

(** A menu bar with the menu [File] and an action of category [File],
    then an action and a nameless entry of category [Edit], which names
    no menu. *)
Definition edit_menu : list dict :=
  [ [("type", VStr "elem"); ("name", VStr "File"); ("command", VStr "")];
    [("type", VStr "elem"); ("name", VStr "Quit"); ("category", VStr "File")];
    [("type", VStr "elem"); ("name", VStr "Copy"); ("category", VStr "Edit")];
    [("type", VStr "elem"); ("category", VStr "Edit")] ].

Definition edit_menubar : dict :=
  [ ("type", VStr "menu"); ("id", VStr "menu");
    ("controls", VList (map VDict edit_menu)) ].

(** ** Vocabulary of the further statements *)

Definition dquote : ascii := ascii_of_nat 34.

Definition first_char (s : string) : option ascii :=
  match s with
  | String c _ => Some c
  | EmptyString => None
  end.

Fixpoint last_char (s : string) : option ascii :=
  match s with
  | EmptyString => None
  | String c s' =>
      match s' with
      | EmptyString => Some c
      | _ => last_char s'
      end
  end.

(** A string that neither begins nor ends with a double quote. *)
Definition unquoted (s : string) : Prop :=
  first_char s <> Some dquote /\ last_char s <> Some dquote.

(** [str(n)] for a natural number and for an integer. *)
Definition decimal (n : nat) : string :=
  DecimalString.NilEmpty.string_of_uint (Nat.to_uint n).

Definition show_int (z : Z) : string :=
  match z with
  | Zneg p => String hyphen (decimal (Pos.to_nat p))
  | _ => decimal (Z.to_nat z)
  end.

(** The number of digits of [str(z)], its sign apart; [int] converts a
    numeral of at most [int_max_str_digits] digits. *)
Definition digits (z : Z) : nat := String.length (decimal (Z.abs_nat z)).

Definition convertible (z : Z) : Prop :=
  (Z.of_nat (digits z) <= int_max_str_digits)%Z.

(** The superscript digits two, three and one. *)
Definition is_superscript (c : ascii) : bool :=
  let n := nat_of_ascii c in ((n =? 178) || (n =? 179) || (n =? 185))%nat.

Fixpoint existsb_str (p : ascii -> bool) (s : string) : bool :=
  match s with
  | EmptyString => false
  | String c s' => p c || existsb_str p s'
  end.

(** [n] copies of a character. *)
Fixpoint repeat_char (c : ascii) (n : nat) : string :=
  match n with
  | O => ""
  | S k => String c (repeat_char c k)
  end.

(** The field that an attribute [name = raw] sets: its name, and its
    value when the raw one converts. *)
Definition field_name (name : string) : string :=
  PyStr.replace hyphen underscore name.

Definition field_value (name raw : string) : result value :=
  v <- coerce (field_name name)
         (PyStr.strip newline_quote (PyStr.replace hyphen underscore raw)) ;;
  Ok (if (field_name name =? "type") && is_MAIN v then VStr "WINDOW" else v).

(** ** Vocabulary of the statements on the parsed tree *)

Definition is_str (v : value) : Prop := exists s, v = VStr s.

(** What a field of an element may hold: a scalar under any name, a
    tuple of integers under the names of the delimiter map, a list of
    strings under [saved_params]; and the name has no hyphen. *)
Definition field_ok (kv : string * value) : Prop :=
  PyStr.mem_char hyphen (fst kv) = false
  /\ match snd kv with
     | VDict _ => False
     | VList l => fst kv = "saved_params" /\ Forall is_str l
     | VTuple _ => lookup_str (fst kv) DELIMITER_MAP <> None
     | _ => True
     end.

Definition element_wf (v : value) : Prop :=
  exists e, v = VDict e /\ Forall field_ok e.

Definition category_wf (cat : dict) : Prop :=
  exists t controls,
    dict_get "type" cat = Some (VStr t)
    /\ dict_get "controls" cat = Some (VList controls)
    /\ Forall element_wf controls.

(** A bucket holds, in increasing order, the addresses of the
    categories of its kind, and no other. *)
Definition bucket_ok (kind : string) (bucket : list nat) (h : list dict) : Prop :=
  (forall a, In a bucket
             <-> a < List.length h
                 /\ dict_get "type" (load h a) = Some (VStr kind))
  /\ StronglySorted lt bucket.

Definition parser_inv (st : DMFParser) : Prop :=
  Forall category_wf (heap st)
  /\ bucket_ok "macro" (macrolists st) (heap st)
  /\ bucket_ok "menu" (menubars st) (heap st)
  /\ bucket_ok "window" (windows st) (heap st).

(** The entries of the menu bar at address [a]. *)
Definition menu_entries (st : DMFParser) (a : nat) : list value :=
  match dict_get "controls" (load (heap st) a) with
  | Some (VList l) => l
  | _ => []
  end.

(** An entry that [post_process] can file: it has a category or a name. *)
Definition keyed (m : dict) : Prop :=
  dict_get "category" m <> None \/ dict_get "name" m <> None.

Definition all_keyed (st : DMFParser) : Prop :=
  forall a e, In a (menubars st) -> In (VDict e) (menu_entries st a) -> keyed e.

(** The window at address [a] has a first element, which has no
    [is_pane] field. *)
Definition window_ready (st : DMFParser) (a : nat) : Prop :=
  exists e rest,
    dict_get "controls" (load (heap st) a) = Some (VList (VDict e :: rest))
    /\ dict_get "is_pane" e = None.

(** A macro record, and a macro-list record. *)
Definition macro_ok (v : value) : Prop :=
  exists e, v = VDict e /\ dict_get "type" e = Some (VStr "MACRO").

Definition macrolist_ok (v : value) : Prop :=
  exists d macros,
    v = VDict d
    /\ dict_get "type" d = Some (VStr "MACROLIST")
    /\ dict_get "controls" d = None
    /\ dict_get "macros" d = Some (VList macros)
    /\ Forall macro_ok macros.

(** A window record: no [is_pane] field, and a list of elements. *)
Definition window_ok (v : value) : Prop :=
  exists d controls,
    v = VDict d
    /\ dict_get "is_pane" d = None
    /\ dict_get "controls" d = Some (VList controls)
    /\ Forall element_wf controls.

(** A forest with one macro list of one macro, before and after
    [post_process]. *)
Definition macro_forest : forest :=
  {| f_macrolists :=
       [VDict [("type", VStr "macro"); ("id", VStr "macro");
               ("controls",
                VList [VDict [("type", VStr "elem"); ("name", VStr "A")]])]];
     f_menubars := []; f_windows := [] |}.

Definition macro_forest_out : forest :=
  {| f_macrolists :=
       [VDict [("type", VStr "MACROLIST"); ("id", VStr "macro");
               ("macros",
                VList [VDict [("type", VStr "MACRO"); ("name", VStr "A")]])]];
     f_menubars := []; f_windows := [] |}.

(** ** Vocabulary of the further statements on lines *)

Definition nonblank (l : string) : bool := negb (PyStr.rstrip l =? "").

(** The lines that [parse_file] does not skip. *)
Definition significant_lines (text : string) : list string :=
  filter nonblank (readlines (universal_newlines text)).

Definition element_line (l : string) : Prop :=
  PyStr.rstrip l <> ""
  /\ PyStr.startswith (PyStr.rstrip l) (String tab (String tab "")) = false
  /\ PyStr.startswith (PyStr.rstrip l) (String tab "") = true.

(** A line that is well formed in itself, whatever precedes it: a header
    that splits into a kind and at most one identifier, an attribute
    that splits into a name and a value that converts. *)
Definition well_formed (l : string) : bool :=
  let line := PyStr.rstrip l in
  if PyStr.startswith line (String tab (String tab "")) then
    match _parse_key_eq_sign_value (PyStr.lstrip line) with
    | Ok (name, raw) =>
        match field_value name raw with
        | Ok _ => true
        | Err _ => false
        end
    | Err _ => false
    end
  else
    match _parse_key_value (header_text l) with
    | Ok _ => true
    | Err _ => false
    end.

(** [n] tabs. *)
Fixpoint tabs (n : nat) : string :=
  match n with
  | O => ""
  | S k => String tab (tabs k)
  end.

(** The header of a category of a kind that has no bucket. *)
Definition other_header (l : string) : Prop :=
  category_line l
  /\ exists kind id,
       _parse_key_value (PyStr.rstrip l) = Ok (kind, id)
       /\ kind <> "macro" /\ kind <> "menu" /\ kind <> "window".

(** The current category is in no bucket, and so is the category of
    the current element. *)
Definition detached (st : DMFParser) : Prop :=
  exists a i,
    category st = Some a /\ element st = Some (a, i)
    /\ ~ In a (macrolists st) /\ ~ In a (menubars st) /\ ~ In a (windows st).

(** The groups of a menu bar: pairwise different for [==]. *)
Fixpoint distinct_keys (l : list value) : Prop :=
  match l with
  | [] => True
  | x :: t => existsb (key_eqb x) t = false /\ distinct_keys t
  end.

(** The entry is an action of group [g]. *)
Definition in_group (g : value) (m : dict) : Prop :=
  dict_get "category" m <> None
  /\ truthy_opt (dict_get "name" m) = true
  /\ dict_get "group" m = Some g
  /\ truthy g = true.

(** A menu bar with two actions of the same group. *)
Definition group_menu : list dict :=
  [ [("type", VStr "elem"); ("name", VStr "View")];
    [("type", VStr "elem"); ("name", VStr "Icons"); ("category", VStr "View");
     ("group", VStr "mode")];
    [("type", VStr "elem"); ("name", VStr "Text"); ("category", VStr "View");
     ("group", VStr "mode")] ].

Definition group_menubar : dict :=
  [("type", VStr "menu"); ("controls", VList (map VDict group_menu))].

Definition group_menubar_out : dict :=
  [ ("type", VStr "MENUBAR");
    ("menus",
     VList
       [ VDict
           [ ("type", VStr "MENU"); ("name", VStr "View");
             ("actions",
              VList
                [ VDict [("type", VStr "ACTION"); ("name", VStr "Icons");
                         ("group", VStr "mode")];
                  VDict [("type", VStr "ACTION"); ("name", VStr "Text");
                         ("group", VStr "mode")] ]) ] ]);
    ("groups", VList [VStr "mode"]) ].

(** An action record: the separator, or a record of type [ACTION] with
    a true name. *)
Definition action_tagged (v : value) : Prop :=
  exists a,
    v = VDict a
    /\ (a = SEPARATOR
        \/ (dict_get "type" a = Some (VStr "ACTION")
            /\ truthy_opt (dict_get "name" a) = true)).

Definition record_tagged (v : value) : Prop :=
  exists r acts,
    v = VDict r /\ dict_get "actions" r = Some (VList acts)
    /\ Forall action_tagged acts.

Definition categories_tagged (cats : odict) : Prop :=
  Forall (fun kv => record_tagged (snd kv)) cats.

(** * Properties *)

(** ** The error monad *)

Lemma bind_Ok {A B : Type} (m : result A) (f : A -> result B) (b : B) :
  bind m f = Ok b -> exists a, m = Ok a /\ f a = Ok b.
Proof.
  destruct m as [a | e]; simpl; intros H; [eauto | discriminate].
Qed.

Ltac inv_bind H :=
  let x := fresh "x" in
  let Hx := fresh "Hx" in
  apply bind_Ok in H; destruct H as (x & Hx & H).

Tactic Notation "invert_bind" hyp(H) "as" ident(x) ident(Hx) :=
  apply bind_Ok in H; destruct H as (x & Hx & H).

(** ** Strings *)

Section StringFacts.

Local Open Scope string_scope.

Lemma append_nil_r (s : string) : (s ++ "")%string = s.
Proof. induction s; simpl; congruence. Qed.

Lemma append_assoc (a b c : string) :
  ((a ++ b) ++ c)%string = (a ++ (b ++ c))%string.
Proof. induction a; simpl; congruence. Qed.

Lemma prefix_app_long (p x y : string) :
  String.length p <= String.length x ->
  String.prefix p (x ++ y) = String.prefix p x.
Proof.
  revert x; induction p as [| a p IH]; intros x Hlen.
  - destruct (x ++ y)%string, x; reflexivity.
  - destruct x as [| b x]; simpl in Hlen; [lia |].
    simpl. destruct (ascii_dec a b); [apply IH; lia | reflexivity].
Qed.

Lemma occurs_cons (sub : string) (c : ascii) (s : string) :
  PyStr.occurs sub (String c s) = String.prefix sub (String c s) || PyStr.occurs sub s.
Proof. reflexivity. Qed.

Lemma occurs_space_app (k v : string) :
  PyStr.occurs " " (k ++ String " " v) = true.
Proof.
  induction k as [| a k IH].
  - simpl. destruct v; reflexivity.
  - change ((String a k ++ String " " v)%string) with (String a (k ++ String " " v)).
    rewrite occurs_cons, IH. apply orb_true_r.
Qed.

Lemma split_ws_cons2 (a b : ascii) (s : string) :
  PyStr.is_space a = false -> PyStr.is_space b = false ->
  PyStr.split_ws (String a (String b s))
  = PyStr.cons_head a (PyStr.split_ws (String b s)).
Proof.
  intros Ha Hb.
  transitivity
    (if PyStr.is_space a then PyStr.split_ws (String b s)
     else if PyStr.is_space b
          then String a EmptyString :: PyStr.split_ws (String b s)
          else PyStr.cons_head a (PyStr.split_ws (String b s))).
  - reflexivity.
  - rewrite Ha, Hb. reflexivity.
Qed.

(** A token is one part of [split()], whatever whitespace follows it. *)
Lemma split_ws_token (k rest : string) :
  token k ->
  (rest = "" \/ exists c r, rest = String c r /\ PyStr.is_space c = true) ->
  PyStr.split_ws (k ++ rest) = k :: PyStr.split_ws rest.
Proof.
  intros [Hne Hns] Hrest. induction k as [| a k IH]; [congruence |].
  cbn [PyStr.forallb_str] in Hns. apply andb_true_iff in Hns as [Ha Hk].
  apply negb_true_iff in Ha.
  destruct k as [| b k].
  - simpl. rewrite Ha.
    destruct Hrest as [-> | (c & r & -> & Hc)]; [reflexivity |].
    rewrite Hc. reflexivity.
  - assert (Hb : PyStr.is_space b = false).
    { cbn [PyStr.forallb_str] in Hk. apply andb_true_iff in Hk as [Hb _].
      now apply negb_true_iff in Hb. }
    change ((String a (String b k) ++ rest)%string)
      with (String a (String b (k ++ rest))).
    rewrite (split_ws_cons2 a b (k ++ rest) Ha Hb).
    change (String b (k ++ rest)) with (String b k ++ rest)%string.
    rewrite IH; [reflexivity | discriminate | exact Hk].
Qed.

Lemma split_ws_two_tokens (k v : string) :
  token k -> token v -> PyStr.split_ws (k ++ String " " v) = [k; v].
Proof.
  intros Hk Hv.
  rewrite (split_ws_token k (String " " v) Hk).
  - change (PyStr.split_ws (String " " v)) with (PyStr.split_ws v).
    rewrite <- (append_nil_r v) at 1.
    rewrite (split_ws_token v "" Hv); [reflexivity | now left].
  - right. exists " "%char, v. split; reflexivity.
Qed.

(** Without the separator, [split] returns the string alone. *)
Lemma split_absent (sep s : string) :
  PyStr.occurs sep s = false -> PyStr.split sep s = [s].
Proof.
  unfold PyStr.split. induction s as [| c s IH]; intros H.
  - reflexivity.
  - rewrite occurs_cons in H. apply orb_false_iff in H as [Hp Ho].
    cbn [PyStr.split_from]. rewrite Hp, (IH Ho). reflexivity.
Qed.

(** The first occurrence of [" = "] cuts the string. *)
Lemma split_eq_sign_first (k v : string) :
  PyStr.occurs " = " (k ++ " =") = false ->
  PyStr.split " = " (k ++ " = " ++ v) = k :: PyStr.split " = " v.
Proof.
  unfold PyStr.split. induction k as [| a k IH]; intros H.
  - destruct v; reflexivity.
  - change ((String a k ++ " =")%string) with (String a (k ++ " =")) in H.
    rewrite occurs_cons in H. apply orb_false_iff in H as [Hp Ho].
    change ((String a k ++ " = " ++ v)%string)
      with (String a (k ++ " = " ++ v)).
    cbn [PyStr.split_from].
    assert (Hp' : String.prefix " = " (String a (k ++ " = " ++ v)) = false).
    { change (String a (k ++ " = " ++ v))
        with (String a (k ++ (" =" ++ String " " v)))%string.
      rewrite <- append_assoc.
      change (String a ((k ++ " =") ++ String " " v))
        with ((String a (k ++ " =")) ++ String " " v)%string.
      rewrite prefix_app_long; [exact Hp |].
      simpl. clear. induction k; simpl; lia. }
    rewrite Hp', (IH Ho). reflexivity.
Qed.

End StringFacts.

(** ** Splitting on one character *)

Section SplitChar.

Local Open Scope string_scope.

Variable d : ascii.

Local Abbreviation sep := (String d "").

Lemma prefix_nil (s : string) : String.prefix "" s = true.
Proof. destruct s; reflexivity. Qed.

Lemma split1_cons (a : ascii) (s : string) :
  PyStr.split sep (String a s)
  = if Ascii.eqb a d then "" :: PyStr.split sep s
    else PyStr.cons_head a (PyStr.split sep s).
Proof.
  unfold PyStr.split. cbn [PyStr.split_from String.prefix String.length Nat.sub].
  destruct (ascii_dec d a) as [<- | Hne].
  - rewrite prefix_nil, Ascii.eqb_refl. reflexivity.
  - destruct (Ascii.eqb_spec a d) as [-> | _]; [congruence | reflexivity].
Qed.

Lemma split1_nonempty (s : string) : PyStr.split sep s <> [].
Proof.
  destruct s as [| a s]; [discriminate |].
  rewrite split1_cons. destruct (Ascii.eqb a d); [discriminate |].
  destruct (PyStr.split sep s); discriminate.
Qed.

Lemma join_split (s : string) : join d (PyStr.split sep s) = s.
Proof.
  induction s as [| a s IH]; [reflexivity |].
  rewrite split1_cons. destruct (Ascii.eqb_spec a d) as [-> | Hne].
  - pose proof (split1_nonempty s) as Hn.
    destruct (PyStr.split sep s) as [| h t] eqn:E; [congruence |].
    change (join d ("" :: h :: t)) with (String d (join d (h :: t))).
    now rewrite IH.
  - pose proof (split1_nonempty s) as Hn.
    destruct (PyStr.split sep s) as [| h t] eqn:E; [congruence |].
    cbn [PyStr.cons_head]. rewrite <- IH.
    destruct t; reflexivity.
Qed.

Lemma join_middle (l1 l2 : list string) (c : string) :
  exists u v, join d (l1 ++ c :: l2) = (u ++ c ++ v)%string
              /\ ends_with_sep d u /\ starts_with_sep d v.
Proof.
  induction l1 as [| x l1 IH].
  - exists "". destruct l2 as [| y l2].
    + exists "". cbn. rewrite append_nil_r. repeat split; now left.
    + exists (String d (join d (y :: l2))). repeat split; [now left |].
      right. eauto.
  - destruct IH as (u & v & E & Hu & Hv).
    exists (x ++ String d u)%string, v.
    split; [| split; [| exact Hv]].
    + change ((x :: l1) ++ c :: l2)%list with (x :: (l1 ++ c :: l2))%list.
      cbn [join]. destruct (l1 ++ c :: l2)%list eqn:El.
      * destruct l1; discriminate.
      * rewrite E. now rewrite !append_assoc.
    + right. destruct Hu as [-> | (u0 & ->)].
      * exists x. reflexivity.
      * exists (x ++ String d u0)%string. now rewrite !append_assoc.
Qed.

(** A part of [s.split(d)] stands in [s] between separators. *)
Lemma split_part_position (s c : string) :
  In c (PyStr.split sep s) ->
  exists u v, s = (u ++ c ++ v)%string
              /\ ends_with_sep d u /\ starts_with_sep d v.
Proof.
  intros Hin. apply in_split in Hin as (l1 & l2 & E).
  destruct (join_middle l1 l2 c) as (u & v & Ej & Hu & Hv).
  exists u, v. rewrite <- Ej, <- E, join_split. auto.
Qed.

Lemma split1_app_sep (x y : string) :
  PyStr.split sep (x ++ String d y)
  = (PyStr.split sep x ++ PyStr.split sep y)%list.
Proof.
  induction x as [| a x IH].
  - cbn [append]. rewrite split1_cons, Ascii.eqb_refl. reflexivity.
  - change (String a x ++ String d y)%string with (String a (x ++ String d y)).
    rewrite !split1_cons, IH. destruct (Ascii.eqb a d); [reflexivity |].
    pose proof (split1_nonempty x) as Hn.
    destruct (PyStr.split sep x); [congruence | reflexivity].
Qed.

Lemma split1_no_sep (c : string) :
  PyStr.mem_char d c = false -> PyStr.split sep c = [c].
Proof.
  induction c as [| a c IH]; intros H; [reflexivity |].
  cbn [PyStr.mem_char] in H. apply orb_false_iff in H as [Ha Hc].
  rewrite split1_cons, (IH Hc).
  rewrite Ascii.eqb_sym in Ha. rewrite Ha. reflexivity.
Qed.

(** Conversely, a separator-free string between separators is a part. *)
Lemma part_in_split (u c v : string) :
  ends_with_sep d u -> starts_with_sep d v -> PyStr.mem_char d c = false ->
  In c (PyStr.split sep (u ++ c ++ v)).
Proof.
  intros Hu Hv Hc.
  assert (Hcv : In c (PyStr.split sep (c ++ v))).
  { destruct Hv as [-> | (v0 & ->)].
    - rewrite append_nil_r, (split1_no_sep c Hc). now left.
    - rewrite split1_app_sep, (split1_no_sep c Hc). now left. }
  destruct Hu as [-> | (u0 & ->)]; [exact Hcv |].
  rewrite append_assoc. cbn [append].
  rewrite split1_app_sep. apply in_or_app. now right.
Qed.

End SplitChar.

(** ** Stripping and replacing *)

Section StripFacts.

Local Open Scope string_scope.

Variable p : ascii -> bool.

Lemma lstrip_by_app (u w : string) (a : ascii) :
  p a = false ->
  PyStr.lstrip_by p (u ++ String a w) = (PyStr.lstrip_by p u ++ String a w)%string.
Proof.
  intros Ha. induction u as [| b u IH].
  - cbn. now rewrite Ha.
  - cbn [append PyStr.lstrip_by]. destruct (p b); [exact IH | reflexivity].
Qed.

Lemma rstrip_by_app (x y : string) (a : ascii) :
  p a = false ->
  PyStr.rstrip_by p ((x ++ String a "") ++ y)
  = ((x ++ String a "") ++ PyStr.rstrip_by p y)%string.
Proof.
  intros Ha. induction x as [| b x IH].
  - cbn [append PyStr.rstrip_by]. rewrite Ha.
    destruct (PyStr.rstrip_by p y); reflexivity.
  - change ((String b x ++ String a "") ++ y)%string
      with (String b ((x ++ String a "") ++ y)).
    cbn [PyStr.rstrip_by]. rewrite IH.
    destruct x; reflexivity.
Qed.

(** A string that begins and ends with characters that are kept is not
    touched by [strip], whatever surrounds it. *)
Lemma strip_by_middle (u v c0 : string) (a z : ascii) :
  p a = false -> p z = false ->
  (forall c, String a c0 = (c ++ String z "")%string ->
     PyStr.strip_by p (u ++ String a c0 ++ v)
     = (PyStr.lstrip_by p u ++ String a c0 ++ PyStr.rstrip_by p v)%string).
Proof.
  intros Ha Hz c Ec. unfold PyStr.strip_by.
  rewrite <- (append_assoc u (String a c0) v), Ec.
  rewrite <- (append_assoc u c (String z "")).
  rewrite rstrip_by_app by exact Hz.
  rewrite (append_assoc u c (String z "")), <- Ec.
  rewrite (append_assoc u (String a c0)).
  change (String a c0 ++ PyStr.rstrip_by p v)%string
    with (String a (c0 ++ PyStr.rstrip_by p v)).
  now rewrite lstrip_by_app.
Qed.

Lemma lstrip_keeps_sep (d : ascii) (u : string) :
  p d = false -> ends_with_sep d u -> ends_with_sep d (PyStr.lstrip_by p u).
Proof.
  intros Hd [-> | (u0 & ->)]; [now left |].
  right. exists (PyStr.lstrip_by p u0). now apply lstrip_by_app.
Qed.

Lemma rstrip_keeps_sep (d : ascii) (v : string) :
  p d = false -> starts_with_sep d v -> starts_with_sep d (PyStr.rstrip_by p v).
Proof.
  intros Hd [-> | (v0 & ->)]; [now left |].
  right. exists (PyStr.rstrip_by p v0).
  apply (rstrip_by_app "" v0 d Hd).
Qed.

End StripFacts.

Section ReplaceFacts.

Local Open Scope string_scope.

Lemma replace_app (a b : ascii) (x y : string) :
  PyStr.replace a b (x ++ y)
  = (PyStr.replace a b x ++ PyStr.replace a b y)%string.
Proof. induction x as [| c x IH]; cbn; [reflexivity | now rewrite IH]. Qed.

Lemma replace_absent (a b : ascii) (s : string) :
  PyStr.mem_char a s = false -> PyStr.replace a b s = s.
Proof.
  induction s as [| c s IH]; intros H; [reflexivity |].
  cbn [PyStr.mem_char] in H. apply orb_false_iff in H as [Hc Hs].
  cbn [PyStr.replace]. rewrite Ascii.eqb_sym in Hc. now rewrite Hc, IH.
Qed.

Lemma mem_char_app (c : ascii) (x y : string) :
  PyStr.mem_char c (x ++ y) = PyStr.mem_char c x || PyStr.mem_char c y.
Proof.
  induction x as [| a x IH]; [reflexivity |].
  cbn [append PyStr.mem_char]. now rewrite IH, orb_assoc.
Qed.

(** A character that no digit is does not occur in a string of digits. *)
Lemma digits_avoid (c : ascii) (ds : string) :
  PyStr.is_ascii_digit c = false ->
  PyStr.forallb_str PyStr.is_ascii_digit ds = true ->
  PyStr.mem_char c ds = false.
Proof.
  intros Hc. induction ds as [| a ds IH]; intros H; [reflexivity |].
  cbn [PyStr.forallb_str] in H. apply andb_true_iff in H as [Ha Hds].
  cbn [PyStr.mem_char]. rewrite (IH Hds), orb_false_r.
  destruct (Ascii.eqb_spec c a) as [-> | _]; [congruence | reflexivity].
Qed.

Lemma digits_last (ds : string) :
  ds <> "" -> PyStr.forallb_str PyStr.is_ascii_digit ds = true ->
  exists x z, ds = (x ++ String z "")%string /\ PyStr.is_ascii_digit z = true.
Proof.
  induction ds as [| a ds IH]; intros Hne H; [congruence |].
  cbn [PyStr.forallb_str] in H. apply andb_true_iff in H as [Ha Hds].
  destruct ds as [| b ds].
  - exists "", a. auto.
  - destruct IH as (x & z & E & Hz); [discriminate | exact Hds |].
    exists (String a x), z. rewrite E. auto.
Qed.

End ReplaceFacts.

(** ** Integer conversion *)

Lemma py_int_only_ValueError (s : string) (e : exn) :
  py_int s = Err e -> e = ValueError.
Proof.
  unfold py_int.
  match goal with
  | |- match ?r with _ => _ end = _ -> _ => destruct r
  end.
  - destruct (_ <=? _)%Z; congruence.
  - congruence.
Qed.

Lemma digit_not_int_space (z : ascii) :
  PyStr.is_ascii_digit z = true -> is_int_space z = false.
Proof.
  destruct z as [[] [] [] [] [] [] [] []]; vm_compute; congruence.
Qed.

Lemma digit_not_strippable (z : ascii) :
  PyStr.is_ascii_digit z = true -> PyStr.mem_char z newline_quote = false.
Proof.
  destruct z as [[] [] [] [] [] [] [] []]; vm_compute; congruence.
Qed.

(** A literal that begins with an underscore is rejected by [int]. *)
Lemma py_int_leading_underscore (ds : string) :
  ds <> ""%string -> PyStr.forallb_str PyStr.is_ascii_digit ds = true ->
  py_int (String underscore ds) = Err ValueError.
Proof.
  intros Hne Hds. destruct (digits_last ds Hne Hds) as (x & z & E & Hz).
  unfold py_int.
  assert (Es : PyStr.strip_by is_int_space (String underscore ds)
               = String underscore ds).
  { pose proof (strip_by_middle is_int_space ""%string ""%string ds underscore z
                  eq_refl (digit_not_int_space z Hz)
                  (String underscore x)) as H.
    cbn [append PyStr.lstrip_by PyStr.rstrip_by] in H.
    rewrite !append_nil_r in H. apply H. now rewrite E. }
  rewrite Es. reflexivity.
Qed.

Lemma map_result_In_err {A B : Type} (f : A -> result B) (l : list A) (x : A) (e : exn) :
  (forall y e', f y = Err e' -> e' = e) ->
  In x l -> f x = Err e -> map_result f l = Err e.
Proof.
  intros Hf. induction l as [| y l IH]; intros Hin Hx; [contradiction |].
  cbn [map_result]. destruct (f y) as [b | e'] eqn:Ey.
  - destruct Hin as [-> | Hin]; [congruence |].
    cbn [bind]. now rewrite (IH Hin Hx).
  - cbn [bind]. f_equal. eauto.
Qed.

(** ** Dictionaries and lists *)

Section DictFacts.

Local Open Scope string_scope.

Lemma dict_get_set_eq (k : string) (v : value) (d : dict) :
  dict_get k (dict_set k v d) = Some v.
Proof.
  induction d as [| [k' v'] d IH]; cbn [dict_set dict_get].
  - now rewrite String.eqb_refl.
  - destruct (String.eqb_spec k k') as [<- | Hne]; cbn [dict_get].
    + now rewrite String.eqb_refl.
    + apply String.eqb_neq in Hne. now rewrite Hne.
Qed.

Lemma dict_get_set_neq (k k' : string) (v : value) (d : dict) :
  k <> k' -> dict_get k (dict_set k' v d) = dict_get k d.
Proof.
  intros Hne. induction d as [| [k2 v2] d IH]; cbn [dict_set dict_get].
  - apply String.eqb_neq in Hne. now rewrite Hne.
  - destruct (String.eqb_spec k' k2) as [<- | Hne2]; cbn [dict_get].
    + apply String.eqb_neq in Hne. now rewrite Hne.
    + destruct (k =? k2); [reflexivity | exact IH].
Qed.

Lemma dict_set_set (k : string) (v w : value) (d : dict) :
  dict_set k w (dict_set k v d) = dict_set k w d.
Proof.
  induction d as [| [k' v'] d IH]; cbn [dict_set].
  - now rewrite String.eqb_refl.
  - destruct (String.eqb_spec k k') as [<- | Hne]; cbn [dict_set].
    + now rewrite String.eqb_refl.
    + apply String.eqb_neq in Hne. now rewrite Hne, IH.
Qed.

Lemma dict_get_del_eq (k : string) (d : dict) :
  dict_get k (dict_del k d) = None.
Proof.
  unfold dict_del. induction d as [| [k' v'] d IH]; [reflexivity |].
  cbn [filter fst]. destruct (k =? k') eqn:E; cbn [negb]; [exact IH |].
  cbn [dict_get]. now rewrite E.
Qed.

Lemma dict_get_del_neq (k k' : string) (d : dict) :
  k <> k' -> dict_get k (dict_del k' d) = dict_get k d.
Proof.
  intros Hne. unfold dict_del. induction d as [| [k2 v2] d IH]; [reflexivity |].
  cbn [filter fst]. destruct (String.eqb_spec k' k2) as [<- | Hne2]; cbn [negb dict_get].
  - apply String.eqb_neq in Hne. now rewrite Hne.
  - destruct (k =? k2); [reflexivity | exact IH].
Qed.

Lemma dict_del_absent (k : string) (d : dict) :
  dict_get k d = None -> dict_del k d = d.
Proof.
  unfold dict_del. induction d as [| [k' v'] d IH]; intros H; [reflexivity |].
  cbn [dict_get] in H. cbn [filter fst].
  destruct (k =? k'); [discriminate |]. cbn [negb]. now rewrite IH.
Qed.

Lemma dict_set_keys (k : string) (v : value) (d : dict) (k' : string) :
  In k' (map fst (dict_set k v d)) -> k' = k \/ In k' (map fst d).
Proof.
  induction d as [| [k2 v2] d IH]; cbn [dict_set map fst In].
  - intros [<- | []]. now left.
  - destruct (k =? k2); cbn [map fst In]; [tauto |].
    intros [<- | H]; [tauto |]. destruct (IH H); tauto.
Qed.

(** The operations keep the keys of a dictionary distinct. *)
Lemma dict_set_NoDup (k : string) (v : value) (d : dict) :
  NoDup (map fst d) -> NoDup (map fst (dict_set k v d)).
Proof.
  induction d as [| [k2 v2] d IH]; cbn [dict_set map fst]; intros H.
  - constructor; [intros [] | constructor].
  - inversion H as [| ? ? Hn Hd]; subst.
    destruct (String.eqb_spec k k2) as [-> | Hne]; cbn [map fst].
    + now constructor.
    + constructor; [| now apply IH].
      intros [-> | Hin]%dict_set_keys; [congruence | contradiction].
Qed.

Lemma dict_del_NoDup (k : string) (d : dict) :
  NoDup (map fst d) -> NoDup (map fst (dict_del k d)).
Proof.
  unfold dict_del. induction d as [| [k2 v2] d IH]; cbn [filter map fst];
    intros H; [constructor |].
  inversion H as [| ? ? Hn Hd]; subst.
  destruct (k =? k2); cbn [negb map fst]; [now apply IH |].
  constructor; [| now apply IH].
  intros Hin. apply Hn. apply in_map_iff in Hin as ([k3 v3] & <- & Hf).
  apply filter_In in Hf as [Hf _]. apply in_map_iff. now exists (k3, v3).
Qed.

Lemma dict_has_false (k : string) (d : dict) :
  dict_has k d = false <-> dict_get k d = None.
Proof. unfold dict_has. destruct (dict_get k d); split; congruence. Qed.

End DictFacts.

Section StoreFacts.

Context {A : Type}.

Lemma store_length (l : list A) (i : nat) (x : A) :
  List.length (store l i x) = List.length l.
Proof.
  revert i; induction l as [| y l IH]; intros [| i]; cbn; auto.
Qed.

Lemma nth_error_store_eq (l : list A) (i : nat) (x : A) :
  i < List.length l -> nth_error (store l i x) i = Some x.
Proof.
  revert i; induction l as [| y l IH]; intros [| i] H; cbn in *;
    try lia; [reflexivity | apply IH; lia].
Qed.

Lemma nth_error_store_neq (l : list A) (i j : nat) (x : A) :
  i <> j -> nth_error (store l i x) j = nth_error l j.
Proof.
  revert i j; induction l as [| y l IH]; intros [| i] [| j] H; cbn;
    try reflexivity; try congruence.
  apply IH. congruence.
Qed.

Lemma nth_error_nth (l : list A) (i : nat) (x dflt : A) :
  nth_error l i = Some x -> nth i l dflt = x.
Proof.
  revert i; induction l as [| y l IH]; intros [| i] H; cbn in *;
    try congruence. now apply IH.
Qed.

End StoreFacts.

(** ** The element under the cursor *)

Lemma load_nth_error (h : list dict) (a : nat) (cat : dict) :
  nth_error h a = Some cat -> load h a = cat.
Proof. apply nth_error_nth. Qed.

Lemma update_element_current (st : DMFParser) (f : dict -> dict) (e : dict) :
  current_element st = Some e ->
  exists st', update_element st f = Ok st'
              /\ current_element st' = Some (f e)
              /\ element st' = element st
              /\ windows st' = windows st.
Proof.
  unfold current_element, update_element.
  destruct (element st) as [[a i] |] eqn:Eel; [| discriminate].
  destruct (nth_error (heap st) a) as [cat |] eqn:Ecat; [| discriminate].
  destruct (dict_get "controls" cat) as [[| | | | | controls |] |] eqn:Ectl;
    try discriminate.
  destruct (nth_error controls i) as [[| | | | | | e'] |] eqn:Ei;
    try discriminate.
  intros [= <-].
  rewrite (load_nth_error _ _ _ Ecat).
  unfold dict_getitem. rewrite Ectl. cbn [bind as_list].
  unfold list_getitem. rewrite Ei. cbn [bind as_dict].
  eexists. split; [reflexivity |].
  cbn [with_heap element heap windows]. rewrite Eel.
  rewrite nth_error_store_eq
    by (apply nth_error_Some; congruence).
  rewrite dict_get_set_eq.
  rewrite nth_error_store_eq
    by (apply nth_error_Some; congruence).
  auto.
Qed.

(** ** Splitting and joining *)

Section SplitJoin.

Local Open Scope string_scope.

Lemma split_from_skip (sep pre rest : string) :
  PyStr.split_from sep (String.length pre) (pre ++ rest)
  = PyStr.split_from sep 0 rest.
Proof.
  induction pre as [| a pre IH]; [reflexivity |].
  cbn [String.length append PyStr.split_from]. exact IH.
Qed.

Lemma prefix_split (p s : string) :
  String.prefix p s = true -> exists rest, s = (p ++ rest)%string.
Proof.
  revert s. induction p as [| a p IH]; intros s H.
  - exists s. reflexivity.
  - destruct s as [| b s]; [discriminate |]. cbn [String.prefix] in H.
    destruct (ascii_dec a b) as [<- | _]; [| discriminate].
    destruct (IH s H) as (rest & ->). exists rest. reflexivity.
Qed.

Lemma prefix_app_true (p x y : string) :
  String.prefix p x = true -> String.prefix p (x ++ y) = true.
Proof.
  revert x. induction p as [| a p IH]; intros x H.
  - apply prefix_nil.
  - destruct x as [| b x]; [discriminate |]. cbn [String.prefix append] in *.
    destruct (ascii_dec a b); [now apply IH | discriminate].
Qed.

Lemma split_from_nonempty (sep s : string) : PyStr.split sep s <> [].
Proof.
  unfold PyStr.split. destruct s as [| c s]; [discriminate |].
  cbn [PyStr.split_from]. destruct (String.prefix sep (String c s)); [discriminate |].
  destruct (PyStr.split_from sep 0 s); discriminate.
Qed.

Lemma concat_cons_head (sep : string) (c : ascii) (l : list string) :
  l <> [] ->
  String.concat sep (PyStr.cons_head c l) = String c (String.concat sep l).
Proof.
  destruct l as [| h [| h' t]]; [congruence | reflexivity | reflexivity].
Qed.

Lemma concat_cons (sep x : string) (l : list string) :
  l <> [] ->
  String.concat sep (x :: l) = (x ++ sep ++ String.concat sep l)%string.
Proof. destruct l; [congruence | reflexivity]. Qed.

(** The parts of [s.split(sep)], joined by [sep], give [s] back, and
    none of them holds [sep]. *)
Lemma split_parts (sep : string) :
  sep <> "" ->
  forall n s, String.length s <= n ->
    String.concat sep (PyStr.split sep s) = s
    /\ Forall (fun x => PyStr.occurs sep x = false) (PyStr.split sep s).
Proof.
  intros Hsep. induction n as [| n IH]; intros s Hn.
  - destruct s; [| cbn in Hn; lia]. split; [reflexivity |].
    constructor; [| constructor]. destruct sep; [congruence | reflexivity].
  - destruct s as [| c s].
    { split; [reflexivity |].
      constructor; [| constructor]. destruct sep; [congruence | reflexivity]. }
    cbn [String.length] in Hn. unfold PyStr.split. cbn [PyStr.split_from].
    destruct (String.prefix sep (String c s)) eqn:Hp.
    + destruct (prefix_split _ _ Hp) as (rest & E).
      destruct sep as [| a sep']; [congruence |].
      cbn [append] in E. injection E as <- ->.
      cbn [String.length Nat.sub]. rewrite Nat.sub_0_r, split_from_skip.
      assert (Hr : String.length rest <= n).
      { rewrite <- PeanoNat.Nat.succ_le_mono in Hn.
        clear - Hn. induction sep' as [| b sep' IHs]; cbn in *; [exact Hn |].
        apply IHs. lia. }
      destruct (IH rest Hr) as [Hc Hf]. fold (PyStr.split (String c sep') rest).
      pose proof (split_from_nonempty (String c sep') rest) as Hne.
      split.
      * rewrite concat_cons by exact Hne. rewrite Hc. reflexivity.
      * constructor; [reflexivity | exact Hf].
    + assert (Hs : String.length s <= n) by lia.
      destruct (IH s Hs) as [Hc Hf]. fold (PyStr.split sep s).
      pose proof (split_from_nonempty sep s) as Hne.
      split.
      * rewrite concat_cons_head by exact Hne. now rewrite Hc.
      * destruct (PyStr.split sep s) as [| h t] eqn:El; [congruence |].
        cbn [PyStr.cons_head].
        pose proof (Forall_inv Hf) as Hh. pose proof (Forall_inv_tail Hf) as Ht.
        cbn beta in Hh. constructor; [| exact Ht].
        rewrite occurs_cons, Hh, orb_false_r.
        destruct (String.prefix sep (String c h)) eqn:Hph; [| reflexivity].
        cbn [String.concat] in Hc.
        assert (Hpre : exists y, s = (h ++ y)%string).
        { destruct t; [exists ""; now rewrite append_nil_r | eexists; symmetry; exact Hc]. }
        destruct Hpre as (y & ->).
        change (String c (h ++ y)) with (String c h ++ y)%string in Hp.
        rewrite prefix_app_true in Hp by exact Hph. discriminate.
Qed.

Lemma split_concat (sep s : string) :
  sep <> "" -> String.concat sep (PyStr.split sep s) = s.
Proof. intros H. now apply (split_parts sep H (String.length s) s). Qed.

Lemma split_parts_free (sep s x : string) :
  sep <> "" -> In x (PyStr.split sep s) -> PyStr.occurs sep x = false.
Proof.
  intros H Hin.
  destruct (split_parts sep H (String.length s) s (le_n _)) as [_ Hf].
  rewrite Forall_forall in Hf. now apply Hf.
Qed.

End SplitJoin.

(** ** Lines and their indentation *)

Section Indentation.

Local Open Scope string_scope.

Lemma rstrip_cons (c : ascii) (s : string) :
  PyStr.rstrip s <> "" -> PyStr.rstrip (String c s) = String c (PyStr.rstrip s).
Proof.
  unfold PyStr.rstrip. cbn [PyStr.rstrip_by].
  destruct (PyStr.rstrip_by PyStr.is_space s); [congruence | reflexivity].
Qed.

Lemma rstrip_tabs (n : nat) (body : string) :
  PyStr.rstrip body <> "" ->
  PyStr.rstrip (tabs n ++ body) = (tabs n ++ PyStr.rstrip body)%string.
Proof.
  intros H. induction n as [| n IH]; [reflexivity |].
  cbn [tabs append]. rewrite rstrip_cons; rewrite IH; [reflexivity |].
  destruct n; [exact H | discriminate].
Qed.

Lemma lstrip_tabs (n : nat) (s : string) :
  PyStr.lstrip (tabs n ++ s) = PyStr.lstrip s.
Proof. induction n as [| n IH]; [reflexivity | exact IH]. Qed.

Lemma lstrip_tab (s : string) : PyStr.lstrip (String tab s) = PyStr.lstrip s.
Proof. reflexivity. Qed.

End Indentation.

(** ** The errors of the two splitters *)

Lemma unpack2_only_ValueError {A : Type} (l : list A) (e : exn) :
  unpack2 l = Err e -> e = ValueError.
Proof. destruct l as [| a [| b [| c t]]]; cbn; congruence. Qed.

Lemma parse_key_value_only_ValueError (s : string) (e : exn) :
  _parse_key_value s = Err e -> e = ValueError.
Proof.
  unfold _parse_key_value. destruct (PyStr.occurs " " s); [| discriminate].
  destruct (unpack2 (PyStr.split_ws s)) as [[k v] | e'] eqn:E; cbn [bind];
    [discriminate |].
  intros [= <-]. now apply unpack2_only_ValueError in E.
Qed.

Lemma parse_key_eq_sign_value_only_ValueError (s : string) (e : exn) :
  _parse_key_eq_sign_value s = Err e -> e = ValueError.
Proof.
  unfold _parse_key_eq_sign_value.
  destruct (unpack2 (PyStr.split " = " s)) as [[k v] | e'] eqn:E; cbn [bind];
    [discriminate |].
  intros [= <-]. now apply unpack2_only_ValueError in E.
Qed.

(** ** Runs of whitespace *)

Section Runs.

Local Open Scope string_scope.

Lemma split_ws_blank_app (sep rest : string) :
  blank sep -> PyStr.split_ws (sep ++ rest) = PyStr.split_ws rest.
Proof.
  unfold blank. induction sep as [| c sep IH]; intros H; [reflexivity |].
  cbn [PyStr.forallb_str] in H. apply andb_true_iff in H as [Hc Hs].
  change (String c sep ++ rest) with (String c (sep ++ rest)).
  transitivity (PyStr.split_ws (sep ++ rest)); [| now apply IH].
  cbn [PyStr.split_ws]. now rewrite Hc.
Qed.

Lemma split_ws_blank (s : string) : blank s -> PyStr.split_ws s = [].
Proof.
  intros H. rewrite <- (append_nil_r s). now rewrite split_ws_blank_app.
Qed.

Lemma rstrip_blank (s : string) : blank s -> PyStr.rstrip s = "".
Proof.
  unfold blank, PyStr.rstrip. induction s as [| c s IH]; intros H; [reflexivity |].
  cbn [PyStr.forallb_str] in H. apply andb_true_iff in H as [Hc Hs].
  cbn [PyStr.rstrip_by]. now rewrite (IH Hs), Hc.
Qed.

Lemma blank_head (s : string) :
  blank s -> s = "" \/ exists c r, s = String c r /\ PyStr.is_space c = true.
Proof.
  destruct s as [| c r]; [now left |]. unfold blank. cbn [PyStr.forallb_str].
  intros [Hc _]%andb_true_iff. right. eauto.
Qed.

Lemma token_first (k : string) :
  token k -> exists a k', k = String a k' /\ PyStr.is_space a = false.
Proof.
  intros [Hne H]. destruct k as [| a k']; [congruence |].
  cbn [PyStr.forallb_str] in H. apply andb_true_iff in H as [Ha _].
  apply negb_true_iff in Ha. eauto.
Qed.

Lemma token_last (v : string) :
  token v -> exists x z, v = x ++ String z "" /\ PyStr.is_space z = false.
Proof.
  intros [Hne H]. induction v as [| a v IH]; [congruence |].
  cbn [PyStr.forallb_str] in H. apply andb_true_iff in H as [Ha Hv].
  apply negb_true_iff in Ha. destruct v as [| b v].
  - exists "", a. auto.
  - destruct IH as (x & z & E & Hz); [discriminate | exact Hv |].
    exists (String a x), z. rewrite E. auto.
Qed.

(** Whitespace after a token is all that [rstrip] removes. *)
Lemma rstrip_token_blank (x v trail : string) :
  token v -> blank trail -> PyStr.rstrip (x ++ v ++ trail) = x ++ v.
Proof.
  intros Hv Ht. destruct (token_last v Hv) as (y & z & -> & Hz).
  rewrite <- (append_assoc x (y ++ String z "") trail).
  rewrite <- (append_assoc x y (String z "")).
  unfold PyStr.rstrip. rewrite rstrip_by_app by exact Hz.
  fold (PyStr.rstrip trail). now rewrite (rstrip_blank trail Ht), append_nil_r.
Qed.

Lemma occurs_app_l (sub x y : string) :
  PyStr.occurs sub y = true -> PyStr.occurs sub (x ++ y) = true.
Proof.
  intros H. induction x as [| c x IH]; [exact H |].
  change (String c x ++ y) with (String c (x ++ y)).
  rewrite occurs_cons, IH. apply orb_true_r.
Qed.

Lemma occurs_app_r (sub x y : string) :
  PyStr.occurs sub x = true -> PyStr.occurs sub (x ++ y) = true.
Proof.
  induction x as [| c x IH]; intros H.
  - destruct sub; [| discriminate]. destruct y; reflexivity.
  - rewrite occurs_cons in H.
    change (String c x ++ y) with (String c (x ++ y)). rewrite occurs_cons.
    apply orb_true_iff in H as [H | H].
    + change (String c (x ++ y)) with (String c x ++ y).
      now rewrite (prefix_app_true _ _ _ H).
    + rewrite (IH H). apply orb_true_r.
Qed.

(** Two tokens and the whitespace around them: [split()] returns the
    two tokens, whatever the run between them. *)
Lemma split_ws_run (k sep v trail : string) :
  token k -> token v -> blank sep -> sep <> "" -> blank trail ->
  PyStr.split_ws (k ++ sep ++ v ++ trail) = [k; v].
Proof.
  intros Hk Hv Hs Hne Ht.
  rewrite (split_ws_token k (sep ++ v ++ trail) Hk).
  - rewrite (split_ws_blank_app sep _ Hs), (split_ws_token v trail Hv).
    + now rewrite (split_ws_blank trail Ht).
    + now apply blank_head.
  - right. destruct (blank_head sep Hs) as [-> | (c & r & -> & Hc)]; [congruence |].
    exists c, (r ++ v ++ trail). split; [reflexivity | exact Hc].
Qed.

Lemma parse_key_value_run (k sep v : string) :
  token k -> token v -> blank sep -> PyStr.occurs " " sep = true ->
  _parse_key_value (k ++ sep ++ v) = Ok (k, Some (PyStr.strip quote v)).
Proof.
  intros Hk Hv Hs Ho. unfold _parse_key_value.
  rewrite occurs_app_l by (now apply occurs_app_r).
  assert (Hne : sep <> "") by (intros ->; discriminate).
  pose proof (split_ws_run k sep v "" Hk Hv Hs Hne eq_refl) as E.
  rewrite append_nil_r in E. now rewrite E.
Qed.

(** [_parse_key_value] fails on the strings that hold a space and are
    not made of two tokens, and on no other. *)
Lemma parse_key_value_error_iff (s : string) :
  _parse_key_value s = Err ValueError
  <-> PyStr.occurs " " s = true /\ List.length (PyStr.split_ws s) <> 2.
Proof.
  unfold _parse_key_value. destruct (PyStr.occurs " " s).
  - destruct (PyStr.split_ws s) as [| a [| b [| c t]]]; cbn; split;
      try (intros _; split; [reflexivity | lia]); try reflexivity;
      try discriminate.
    intros [_ H]. congruence.
  - split; [discriminate | intros [H _]; discriminate].
Qed.

End Runs.

(** ** The first occurrence of a separator *)

Section FirstSeparator.

Local Open Scope string_scope.

Lemma split_present (sep s : string) :
  sep <> "" -> PyStr.occurs sep s = true ->
  2 <= List.length (PyStr.split sep s).
Proof.
  intros Hsep Ho.
  pose proof (split_from_nonempty sep s) as Hne.
  pose proof (split_concat sep s Hsep) as Hc.
  destruct (PyStr.split sep s) as [| x [| y t]] eqn:E; [congruence | | cbn; lia].
  cbn in Hc. subst x.
  assert (Hin : In s (PyStr.split sep s)) by (rewrite E; now left).
  rewrite (split_parts_free sep s s Hsep Hin) in Ho. discriminate.
Qed.

(** A string that holds [" = "] is cut by its first occurrence. *)
Lemma first_separator (s : string) :
  PyStr.occurs " = " s = true ->
  exists k rest,
    s = k ++ " = " ++ rest /\ PyStr.occurs " = " (k ++ " =") = false.
Proof.
  induction s as [| c s IH]; intros H; [discriminate |].
  rewrite occurs_cons in H.
  destruct (String.prefix " = " (String c s)) eqn:Hp.
  - destruct (prefix_split _ _ Hp) as (rest & E).
    exists "", rest. split; [exact E | reflexivity].
  - cbn [orb] in H. destruct (IH H) as (k & rest & -> & Hk).
    exists (String c k), rest. split; [reflexivity |].
    change (String c k ++ " =") with (String c (k ++ " =")).
    rewrite occurs_cons, Hk, orb_false_r.
    assert (E : String.prefix " = " (String c (k ++ " ="))
                = String.prefix " = " (String c (k ++ " = " ++ rest))).
    { change (String c (k ++ " = " ++ rest))
        with (String c (k ++ (" =" ++ String " " rest))).
      rewrite <- append_assoc.
      change (String c ((k ++ " =") ++ String " " rest))
        with (String c (k ++ " =") ++ String " " rest).
      symmetry. apply prefix_app_long.
      cbn. clear. induction k; cbn; lia. }
    rewrite E. exact Hp.
Qed.

End FirstSeparator.

(** ** The end-to-end scenario of a pane window *)

(** C1, as stated, fails: the record that [post_process] leaves in
    [windows] is the promoted first element, which has no [id]; the
    identifier ["main"] belongs to the category record, which is
    replaced. *)
Lemma scenario_1_id_is_lost :
  ~ (exists out w,
        parse scenario_1 = Ok out /\
        f_windows out = [VDict w] /\
        dict_get "type" w = Some (VStr "PANE") /\
        dict_get "id" w = Some (VStr "main") /\
        dict_get "controls" w = Some (VList [])).
Proof.
  intros (out & w & Hparse & Hw & _ & Hid & _).
  vm_compute in Hparse. injection Hparse as <-.
  cbn in Hw. injection Hw as <-.
  discriminate Hid.
Qed.

(** C1, amended: on the scenario's input the pipeline produces exactly
    one window record, of type ["PANE"], with an empty [controls] list
    and no [id] field (and no macro list or menu bar). *)
Theorem scenario_1_window :
  parse scenario_1
  = Ok {| f_macrolists := [];
          f_menubars := [];
          f_windows := [VDict [("type", VStr "PANE"); ("controls", VList [])]] |}.
Proof. vm_compute. reflexivity. Qed.

(** ** The key/value splitter of header lines *)

Section HeaderLines.

Local Open Scope string_scope.

(** C3, as stated, fails: two spaces between the two tokens of a header
    are one separator for [split()], and the line is accepted, by the
    splitter and by the loop over the lines. *)
Lemma header_with_two_spaces_accepted :
  count_char " " "window  main" = 2
  /\ _parse_key_value "window  main" = Ok ("window", Some "main")
  /\ (exists st, _parse_category init "window  main" = Ok st)
  /\ exists st, parse_line init ("window  main" ++ nl) = Ok st.
Proof.
  split; [reflexivity |]. split; [reflexivity |].
  split; eexists; vm_compute; reflexivity.
Qed.

(** C3, amended: the loop over the lines raises [ValueError] on a header
    line exactly when the text that reaches the key/value splitter (the
    line without its trailing whitespace and, for an element header,
    without its leading whitespace) holds a space and is not made of
    two whitespace-separated tokens.  Two tokens are accepted whatever
    the run of whitespace between them, if it holds a space, and
    whatever whitespace ends the line: the header is read as if one
    space separated them. *)
Theorem header_token_count_error (st : DMFParser) (l k v sep trail : string) :
  header_line l ->
  token k -> token v -> blank sep -> PyStr.occurs " " sep = true -> blank trail ->
  (parse_line st l = Err ValueError
   <-> PyStr.occurs " " (header_text l) = true
       /\ List.length (PyStr.split_ws (header_text l)) <> 2)
  /\ _parse_key_value (k ++ sep ++ v) = Ok (k, Some (PyStr.strip quote v))
  /\ (exists st',
        parse_line st (k ++ sep ++ v ++ trail) = Ok st'
        /\ _parse_category st (k ++ " " ++ v) = Ok st')
  /\ parse_line st (tab1 ++ k ++ sep ++ v ++ trail)
     = _parse_element st (k ++ " " ++ v).
Proof.
  intros (Hne & Ht2) Hk Hv Hs Ho Ht.
  pose proof (parse_key_value_run k sep v Hk Hv Hs Ho) as Hrun.
  pose proof (parse_key_value_run k " " v Hk Hv eq_refl eq_refl) as Hone.
  assert (Hr : PyStr.rstrip (k ++ sep ++ v ++ trail) = k ++ sep ++ v).
  { rewrite <- (append_assoc k sep (v ++ trail)).
    rewrite (rstrip_token_blank (k ++ sep) v trail Hv Ht).
    apply append_assoc. }
  destruct (token_first k Hk) as (a & k' & Ek & Ha).
  assert (Hat : a <> tab) by (intros ->; vm_compute in Ha; discriminate Ha).
  split; [| split; [exact Hrun | split]].
  - unfold parse_line, header_text. apply String.eqb_neq in Hne.
    rewrite Hne, Ht2.
    destruct (PyStr.startswith (PyStr.rstrip l) (String tab "")).
    + unfold _parse_element.
      destruct (_parse_key_value (PyStr.lstrip (PyStr.rstrip l)))
        as [[t id] | e] eqn:E; cbn [bind].
      * rewrite <- parse_key_value_error_iff, E.
        split; [| discriminate]. intros H. exfalso.
        destruct (category st) as [b |]; [| discriminate H].
        unfold dict_getitem in H.
        destruct (dict_get "controls" (load (heap st) b)) as [cv |];
          cbn [bind] in H; [| discriminate H].
        destruct cv; cbn [as_list bind] in H; discriminate H.
      * pose proof (parse_key_value_only_ValueError _ _ E) as ->.
        rewrite <- parse_key_value_error_iff, E. split; reflexivity.
    + unfold _parse_category.
      destruct (_parse_key_value (PyStr.rstrip l)) as [[t id] | e] eqn:E;
        cbn [bind].
      * rewrite <- parse_key_value_error_iff, E. split; discriminate.
      * pose proof (parse_key_value_only_ValueError _ _ E) as ->.
        rewrite <- parse_key_value_error_iff, E. split; reflexivity.
  - unfold parse_line. rewrite Hr. unfold _parse_category.
    rewrite Hrun, Hone. cbn [bind]. rewrite Ek. cbn [append String.eqb].
    unfold PyStr.startswith. cbn [String.prefix].
    destruct (ascii_dec tab a) as [E | _]; [congruence |].
    eexists. split; reflexivity.
  - unfold parse_line. change (tab1 ++ k ++ sep ++ v ++ trail)
      with (String tab (k ++ sep ++ v ++ trail)).
    rewrite rstrip_cons, Hr by (rewrite Hr, Ek; discriminate).
    assert (Hl : forall x, PyStr.lstrip (k ++ x) = k ++ x).
    { intros x. rewrite Ek. unfold PyStr.lstrip.
      cbn [append PyStr.lstrip_by]. now rewrite Ha. }
    assert (Hs2 : PyStr.startswith (String tab (k ++ sep ++ v))
                    (String tab (String tab "")) = false).
    { rewrite Ek. unfold PyStr.startswith. cbn [append String.prefix].
      destruct (ascii_dec tab tab) as [_ | N]; [| congruence].
      destruct (ascii_dec tab a) as [E | _]; [congruence | reflexivity]. }
    assert (Hs1 : PyStr.startswith (String tab (k ++ sep ++ v))
                    (String tab "") = true).
    { unfold PyStr.startswith. cbn [String.prefix].
      destruct (ascii_dec tab tab) as [_ | N]; [apply prefix_nil | congruence]. }
    cbn [String.eqb]. rewrite Hs2, Hs1. unfold _parse_element.
    now rewrite lstrip_tab, !Hl, Hrun, Hone.
Qed.

Lemma header_token_count_error_witness :
  (parse_line init (" window" ++ nl) = Err ValueError
   <-> PyStr.occurs " " (header_text (" window" ++ nl)) = true
       /\ List.length (PyStr.split_ws (header_text (" window" ++ nl))) <> 2)
  /\ _parse_key_value ("window" ++ (" " ++ tab1 ++ " ") ++ "main")
     = Ok ("window", Some (PyStr.strip quote "main"))
  /\ (exists st',
        parse_line init ("window" ++ (" " ++ tab1 ++ " ") ++ "main" ++ (" " ++ nl))
        = Ok st'
        /\ _parse_category init ("window" ++ " " ++ "main") = Ok st')
  /\ parse_line init
       (tab1 ++ "window" ++ (" " ++ tab1 ++ " ") ++ "main" ++ (" " ++ nl))
     = _parse_element init ("window" ++ " " ++ "main").
Proof.
  apply (header_token_count_error init (" window" ++ nl)
           "window" "main" (" " ++ tab1 ++ " ") (" " ++ nl)).
  - split; [discriminate | reflexivity].
  - split; [discriminate | reflexivity].
  - split; [discriminate | reflexivity].
  - reflexivity.
  - reflexivity.
  - reflexivity.
Defined.

End HeaderLines.

(** C9, as stated, fails: a string with exactly one space whose key
    holds a tab splits into three parts, and one whose key is empty into
    a single part; both raise [ValueError]. *)
Lemma one_space_not_enough :
  count_char " " ("a" ++ tab1 ++ "b" ++ " " ++ "c") = 1
  /\ _parse_key_value (("a" ++ tab1 ++ "b") ++ " " ++ "c") = Err ValueError
  /\ count_char " " ("" ++ " " ++ "c") = 1
  /\ _parse_key_value ("" ++ " " ++ "c") = Err ValueError.
Proof. repeat split; reflexivity. Qed.

(** C9, amended: for tokens [k] and [v] (non-empty, free of whitespace;
    [v] may be wrapped in double quotes), [_parse_key_value] on
    [k ++ " " ++ v] returns [k] and [v] without its surrounding quotes;
    and on every string without a space it returns the string and
    [None]. *)
Theorem parse_key_value_spec (k v s : string) :
  token k -> token v -> PyStr.occurs " " s = false ->
  _parse_key_value (k ++ " " ++ v) = Ok (k, Some (PyStr.strip quote v))
  /\ _parse_key_value s = Ok (s, None).
Proof.
  intros Hk Hv Hs. split.
  - unfold _parse_key_value.
    change (k ++ " " ++ v)%string with (k ++ String " " v)%string.
    rewrite occurs_space_app, (split_ws_two_tokens k v Hk Hv). reflexivity.
  - unfold _parse_key_value. rewrite Hs. reflexivity.
Qed.

Lemma parse_key_value_spec_witness :
  _parse_key_value ("eyes" ++ " " ++ (quote ++ "blue" ++ quote))
  = Ok ("eyes", Some "blue")
  /\ _parse_key_value "mouth" = Ok ("mouth", None).
Proof.
  apply (parse_key_value_spec "eyes" (quote ++ "blue" ++ quote) "mouth").
  - split; [discriminate | reflexivity].
  - split; [discriminate | reflexivity].
  - reflexivity.
Defined.

(** ** The splitter of attribute lines *)

(** C8, as stated, fails: when the value itself holds the separator,
    the string splits into three parts and the unpacking raises. *)
Lemma second_separator_raises :
  _parse_key_eq_sign_value ("a" ++ " = " ++ "b = c") = Err ValueError.
Proof. reflexivity. Qed.

(** C8, amended: let the first occurrence of [" = "] in a string cut it
    into [k] and a remainder (no occurrence begins inside [k]).  When
    the remainder [v] does not hold [" = "], [_parse_key_eq_sign_value]
    returns [k] and [v] without its surrounding double quotes; when the
    remainder [w] holds [" = "] again, it raises [ValueError]; and every
    string without [" = "] raises [ValueError].  Occurrences are counted
    as [split] finds them, from left to right and without overlap: in
    [a = = b] the remainder is [= b], and the pair [(a, = b)] is
    returned. *)
Theorem parse_key_eq_sign_value_spec (k v w s : string) :
  PyStr.occurs " = " (k ++ " =") = false ->
  PyStr.occurs " = " v = false ->
  PyStr.occurs " = " w = true ->
  PyStr.occurs " = " s = false ->
  _parse_key_eq_sign_value (k ++ " = " ++ v) = Ok (k, PyStr.strip quote v)
  /\ _parse_key_eq_sign_value (k ++ " = " ++ w) = Err ValueError
  /\ _parse_key_eq_sign_value s = Err ValueError.
Proof.
  intros Hk Hv Hw Hs. unfold _parse_key_eq_sign_value. split; [| split].
  - rewrite (split_eq_sign_first k v Hk), (split_absent " = " v Hv). reflexivity.
  - rewrite (split_eq_sign_first k w Hk).
    assert (Hsep : " = " <> "") by discriminate.
    pose proof (split_present " = " w Hsep Hw) as Hlen.
    destruct (PyStr.split " = " w) as [| x [| y t]]; cbn in Hlen; try lia.
    reflexivity.
  - rewrite (split_absent " = " s Hs). reflexivity.
Qed.

Lemma parse_key_eq_sign_value_spec_witness :
  _parse_key_eq_sign_value ("a" ++ " = " ++ "= b") = Ok ("a", "= b")
  /\ _parse_key_eq_sign_value ("a" ++ " = " ++ "b = c") = Err ValueError
  /\ _parse_key_eq_sign_value "mouth" = Err ValueError.
Proof.
  apply (parse_key_eq_sign_value_spec "a" "= b" "b = c" "mouth"); reflexivity.
Defined.

(** ** Coercion of attribute values *)

Section Coercion.

Local Open Scope string_scope.

(** The keyword literals win over every other rule of [coerce]. *)
Lemma coerce_keyword (name raw : string) (v : value) :
  keyword raw v -> coerce name raw = Ok v.
Proof.
  intros [[-> ->] | [[-> ->] | [-> ->]]]; reflexivity.
Qed.

Lemma keyword_untouched (raw : string) (v : value) :
  keyword raw v ->
  PyStr.strip newline_quote (PyStr.replace hyphen underscore raw) = raw.
Proof.
  intros [[-> ->] | [[-> ->] | [-> ->]]]; reflexivity.
Qed.

Lemma keyword_not_MAIN (raw : string) (v : value) :
  keyword raw v -> is_MAIN v = false.
Proof.
  intros [[-> ->] | [[-> ->] | [-> ->]]]; reflexivity.
Qed.

(** C2: an attribute line whose value, once its quotes are stripped, is
    one of the literals [true], [false] and [none] stores the boolean
    or [None] under the field's name, whatever the name is, a name of
    the delimiter map included. *)
Theorem keyword_literal_first
    (st : DMFParser) (line name raw : string) (v : value) (e : dict) :
  _parse_key_eq_sign_value (PyStr.lstrip line) = Ok (name, raw) ->
  keyword raw v ->
  current_element st = Some e ->
  coerce (PyStr.replace hyphen underscore name) raw = Ok v
  /\ exists st',
       _parse_attribute st line = Ok st'
       /\ current_element st'
          = Some (dict_set (PyStr.replace hyphen underscore name) v e).
Proof.
  intros Hkv Hkw He. split; [now apply coerce_keyword |].
  unfold _parse_attribute. rewrite Hkv. cbn [bind].
  rewrite (keyword_untouched raw v Hkw).
  rewrite (coerce_keyword _ raw v Hkw). cbn [bind].
  rewrite (keyword_not_MAIN raw v Hkw).
  set (name' := PyStr.replace hyphen underscore name).
  destruct (String.eqb_spec name' "type") as [-> | _].
  - destruct (update_element_current st (dict_set "type" v) e He)
      as (st' & Hu & Hc & _).
    exists st'. auto.
  - destruct (update_element_current st (dict_set name' v) e He)
      as (st' & Hu & Hc & _).
    exists st'. auto.
Qed.

Lemma keyword_literal_first_witness :
  coerce "pos" "true" = Ok (VBool true)
  /\ exists st',
       _parse_attribute one_element
         (tab1 ++ tab1 ++ "pos = " ++ quote ++ "true" ++ quote) = Ok st'
       /\ current_element st'
          = Some [("type", VStr "MAIN"); ("pos", VBool true)].
Proof.
  apply (keyword_literal_first one_element
           (tab1 ++ tab1 ++ "pos = " ++ quote ++ "true" ++ quote)
           "pos" "true" (VBool true) [("type", VStr "MAIN")]).
  - reflexivity.
  - left. split; reflexivity.
  - reflexivity.
Defined.

(** The delimiters of [DELIMITER_MAP]. *)
Lemma delimiter_cases (name d : string) :
  lookup_str name DELIMITER_MAP = Some d -> d = "," \/ d = "x".
Proof.
  unfold DELIMITER_MAP. cbn [lookup_str].
  repeat match goal with
         | |- context [if ?b then _ else _] => destruct b
         end; intros [= <-]; auto.
Qed.

Lemma keyword_has_no_underscore (s : string) :
  PyStr.mem_char underscore s = true -> dict_get s DEFAULT_VALUES_MAP = None.
Proof.
  intros H. unfold DEFAULT_VALUES_MAP. cbn [dict_get].
  destruct (String.eqb_spec s "none") as [-> | _]; [discriminate |].
  destruct (String.eqb_spec s "false") as [-> | _]; [discriminate |].
  destruct (String.eqb_spec s "true") as [-> | _]; [discriminate |].
  reflexivity.
Qed.

Lemma replace_keeps_sep_l (d : ascii) (u : string) :
  Ascii.eqb d hyphen = false -> ends_with_sep d u ->
  ends_with_sep d (PyStr.replace hyphen underscore u).
Proof.
  intros Hd [-> | (u0 & ->)]; [now left |].
  right. exists (PyStr.replace hyphen underscore u0).
  rewrite replace_app. cbn [PyStr.replace]. now rewrite Hd.
Qed.

Lemma replace_keeps_sep_r (d : ascii) (v : string) :
  Ascii.eqb d hyphen = false -> starts_with_sep d v ->
  starts_with_sep d (PyStr.replace hyphen underscore v).
Proof.
  intros Hd [-> | (v0 & ->)]; [now left |].
  right. exists (PyStr.replace hyphen underscore v0).
  cbn [PyStr.replace]. now rewrite Hd.
Qed.

(** The hyphen of a negative component becomes an underscore, and the
    component survives the stripping as a part that [int] rejects. *)
Lemma to_ints_negative_component (d : ascii) (raw c : string) :
  Ascii.eqb d hyphen = false -> Ascii.eqb d underscore = false ->
  PyStr.is_ascii_digit d = false -> PyStr.mem_char d newline_quote = false ->
  In c (PyStr.split (String d "") raw) -> negative_literal c ->
  let processed :=
    PyStr.strip newline_quote (PyStr.replace hyphen underscore raw) in
  dict_get processed DEFAULT_VALUES_MAP = None
  /\ to_ints processed (String d "") = Err ValueError.
Proof.
  intros Hdh Hdu Hdd Hdq Hin (ds & -> & Hne & Hds) processed.
  destruct (split_part_position d raw _ Hin) as (u & v & -> & Hu & Hv).
  destruct (digits_last ds Hne Hds) as (x & z & Ez & Hz).
  set (U := PyStr.lstrip_by (fun c => PyStr.mem_char c newline_quote)
              (PyStr.replace hyphen underscore u)).
  set (V := PyStr.rstrip_by (fun c => PyStr.mem_char c newline_quote)
              (PyStr.replace hyphen underscore v)).
  assert (Ep : processed = (U ++ String underscore ds ++ V)%string).
  { unfold processed, PyStr.strip.
    rewrite !replace_app. cbn [PyStr.replace].
    change (Ascii.eqb hyphen hyphen) with true. cbv iota.
    rewrite (replace_absent hyphen underscore ds)
      by (apply digits_avoid; [reflexivity | exact Hds]).
    apply (strip_by_middle _ _ _ ds underscore z eq_refl
             (digit_not_strippable z Hz) (String underscore x)).
    now rewrite Ez. }
  rewrite Ep. split.
  - apply keyword_has_no_underscore.
    rewrite !mem_char_app. cbn [PyStr.mem_char].
    rewrite Ascii.eqb_refl. cbn. apply orb_true_r.
  - unfold to_ints.
    apply (map_result_In_err py_int _ (String underscore ds)).
    + apply py_int_only_ValueError.
    + apply part_in_split.
      * apply lstrip_keeps_sep; [exact Hdq |].
        now apply replace_keeps_sep_l.
      * apply rstrip_keeps_sep; [exact Hdq |].
        now apply replace_keeps_sep_r.
      * cbn [PyStr.mem_char]. rewrite Hdu. cbn [orb].
        now apply digits_avoid.
    + now apply py_int_leading_underscore.
Qed.

(** C10: on an attribute line whose field is in the delimiter map and
    whose value has a negative integer among its delimited components,
    [_parse_attribute] raises [ValueError]: the hyphen has become an
    underscore when [int] reads the component. *)
Theorem negative_component_raises
    (st : DMFParser) (line name raw d c : string) :
  _parse_key_eq_sign_value (PyStr.lstrip line) = Ok (name, raw) ->
  lookup_str (PyStr.replace hyphen underscore name) DELIMITER_MAP = Some d ->
  In c (PyStr.split d raw) ->
  negative_literal c ->
  _parse_attribute st line = Err ValueError.
Proof.
  intros Hkv Hd Hin Hneg.
  unfold _parse_attribute. rewrite Hkv. cbn [bind].
  assert (Hc : coerce (PyStr.replace hyphen underscore name)
                 (PyStr.strip newline_quote (PyStr.replace hyphen underscore raw))
               = Err ValueError).
  { unfold coerce. rewrite Hd.
    destruct (delimiter_cases _ _ Hd) as [-> | ->].
    - destruct (to_ints_negative_component ","%char raw c
                  eq_refl eq_refl eq_refl eq_refl Hin Hneg) as [-> ->].
      reflexivity.
    - destruct (to_ints_negative_component "x"%char raw c
                  eq_refl eq_refl eq_refl eq_refl Hin Hneg) as [-> ->].
      reflexivity. }
  rewrite Hc. reflexivity.
Qed.

Lemma negative_component_raises_witness :
  _parse_attribute one_element (tab1 ++ tab1 ++ "pos = -3,4") = Err ValueError.
Proof.
  apply (negative_component_raises one_element
           (tab1 ++ tab1 ++ "pos = -3,4") "pos" "-3,4" "," "-3").
  - reflexivity.
  - reflexivity.
  - left. reflexivity.
  - exists "3". repeat split. discriminate.
Defined.

End Coercion.

(** ** Windows without elements *)

Section Windows.

Local Open Scope string_scope.

Lemma for_each_invariant {S A : Type} (P : S -> Prop)
    (body : S -> A -> result S) (l : list A) :
  (forall s x s', P s -> body s x = Ok s' -> P s') ->
  forall st st', P st -> for_each body l st = Ok st' -> P st'.
Proof.
  intros Hstep. induction l as [| x l IH]; intros st st' HP H.
  - cbn in H. congruence.
  - cbn [for_each] in H. inv_bind H. eauto.
Qed.

Lemma Forall_store {A : Type} (P : A -> Prop) (l : list A) (i : nat) (x : A) :
  Forall P l -> P x -> Forall P (store l i x).
Proof.
  intros Hl Hx. revert i. induction Hl as [| y l Hy Hl IH]; intros [| i];
    cbn; auto.
Qed.

Lemma load_store_neq (h : list dict) (a b : nat) (x : dict) :
  a <> b -> load (store h a x) b = load h b.
Proof.
  unfold load. revert a b. induction h as [| y h IH]; intros [| a] [| b] H;
    cbn; try reflexivity; try congruence.
  apply IH. congruence.
Qed.

Lemma load_ok (h : list dict) (a : nat) :
  Forall category_ok h -> a < List.length h -> category_ok (load h a).
Proof.
  intros Hh Ha. rewrite Forall_forall in Hh. apply Hh.
  unfold load. now apply nth_In.
Qed.

Lemma header_record_controls (t : string) (id : option string) :
  category_ok (header_record t id [("controls", VList [])]).
Proof.
  exists []. split; [| constructor].
  unfold header_record.
  destruct id as [i |]; [destruct (truthy (VStr i)) |]; reflexivity.
Qed.

Lemma Forall_lt_weaken (l : list nat) (n m : nat) :
  n <= m -> Forall (fun a => a < n) l -> Forall (fun a => a < m) l.
Proof.
  intros Hnm. apply Forall_impl. intros a Ha. lia.
Qed.

Lemma parse_category_ok (st st' : DMFParser) (line : string) :
  parser_ok st -> _parse_category st line = Ok st' -> parser_ok st'.
Proof.
  intros [Hh Hw] H. unfold _parse_category in H.
  inv_bind H. destruct x as [t id]. cbn in H. injection H as <-.
  split; cbn [heap windows].
  - apply Forall_app. split; [exact Hh |].
    constructor; [apply header_record_controls | constructor].
  - rewrite length_app. cbn [List.length].
    assert (Hw' : Forall (fun a => a < List.length (heap st) + 1) (windows st))
      by (eapply Forall_lt_weaken; [| exact Hw]; lia).
    destruct (t =? "macro"); [exact Hw' |].
    destruct (t =? "menu"); [exact Hw' |].
    destruct (t =? "window"); [| exact Hw'].
    apply Forall_app. split; [exact Hw' |].
    constructor; [lia | constructor].
Qed.

Lemma parse_element_ok (st st' : DMFParser) (line : string) :
  parser_ok st -> _parse_element st line = Ok st' -> parser_ok st'.
Proof.
  intros [Hh Hw] H. unfold _parse_element in H.
  inv_bind H. destruct x as [t id]. cbn beta iota in H.
  destruct (category st) as [a |]; [| discriminate].
  inv_bind H. inv_bind H. injection H as <-.
  split; cbn [heap windows].
  - apply Forall_store; [exact Hh |].
    exists (x0 ++ [VDict (header_record t id [])])%list.
    split; [apply dict_get_set_eq |].
    destruct (Nat.lt_ge_cases a (List.length (heap st))) as [Ha | Ha].
    + destruct (load_ok _ _ Hh Ha) as (cs & Ecs & Hcs).
      unfold dict_getitem in Hx0. rewrite Ecs in Hx0.
      injection Hx0 as <-. cbn in Hx1. injection Hx1 as <-.
      apply Forall_app. split; [exact Hcs |].
      constructor; [eexists; reflexivity | constructor].
    + unfold load in Hx0. rewrite nth_overflow in Hx0 by exact Ha.
      discriminate.
  - now rewrite store_length.
Qed.

Lemma update_element_ok (st st' : DMFParser) (f : dict -> dict) :
  parser_ok st -> update_element st f = Ok st' -> parser_ok st'.
Proof.
  intros [Hh Hw] H. unfold update_element in H.
  destruct (element st) as [[a i] |]; [| discriminate].
  inv_bind H. inv_bind H. inv_bind H. inv_bind H. injection H as <-.
  split; cbn [with_heap heap windows].
  - apply Forall_store; [exact Hh |].
    eexists. split; [apply dict_get_set_eq |].
    destruct (Nat.lt_ge_cases a (List.length (heap st))) as [Ha | Ha].
    + destruct (load_ok _ _ Hh Ha) as (cs & Ecs & Hcs).
      unfold dict_getitem in Hx. rewrite Ecs in Hx.
      injection Hx as <-. cbn in Hx0. injection Hx0 as <-.
      apply Forall_store; [exact Hcs | eexists; reflexivity].
    + unfold load in Hx. rewrite nth_overflow in Hx by exact Ha.
      discriminate.
  - now rewrite store_length.
Qed.

Lemma parse_attribute_ok (st st' : DMFParser) (line : string) :
  parser_ok st -> _parse_attribute st line = Ok st' -> parser_ok st'.
Proof.
  intros Hok H. unfold _parse_attribute in H.
  inv_bind H. destruct x as [name raw]. cbn beta iota in H.
  inv_bind H.
  destruct (_ =? "type") in H; eapply update_element_ok; eauto.
Qed.

Lemma parse_line_ok (st : DMFParser) (line : string) (st' : DMFParser) :
  parser_ok st -> parse_line st line = Ok st' -> parser_ok st'.
Proof.
  intros Hok H. unfold parse_line in H.
  destruct (PyStr.rstrip line =? ""); [congruence |].
  destruct (PyStr.startswith _ _);
    [eapply parse_attribute_ok; eauto |].
  destruct (PyStr.startswith _ _);
    [eapply parse_element_ok; eauto | eapply parse_category_ok; eauto].
Qed.

Lemma init_ok : parser_ok init.
Proof. split; constructor. Qed.

(** Whatever the text, the handlers leave well-formed categories. *)
Lemma parse_lines_ok (text : string) (st : DMFParser) :
  parse_lines text init = Ok st -> parser_ok st.
Proof.
  apply (for_each_invariant parser_ok parse_line); [| exact init_ok].
  intros s x s'. apply parse_line_ok.
Qed.

(** One turn of the loop over the windows: it raises on a window
    without element, and otherwise leaves the other windows alone. *)
Lemma pane_window_step (st : DMFParser) (a : nat) :
  parser_ok st -> a < List.length (heap st) ->
  (childless st a /\ pane_window st a = Err IndexError)
  \/ (~ childless st a
      /\ exists st', pane_window st a = Ok st'
                     /\ parser_ok st'
                     /\ List.length (heap st') = List.length (heap st)
                     /\ forall b, childless st b -> childless st' b).
Proof.
  intros [Hh Hw] Ha. unfold pane_window, childless.
  destruct (load_ok _ _ Hh Ha) as (cs & Ecs & Hcs).
  unfold dict_getitem. rewrite Ecs. cbn [bind as_list].
  destruct cs as [| c cs].
  - left. split; reflexivity.
  - right. split; [congruence |].
    inversion Hcs as [| ? ? [e ->] Hcs']; subst.
    cbn [list_getitem nth_error bind as_dict].
    destruct (dict_has "is_pane" e) eqn:Ep.
    + unfold dict_pop, dict_has in *.
      destruct (dict_get "is_pane" e) as [is_pane |]; [| discriminate].
      cbn [bind]. eexists. split; [reflexivity |].
      split; [| split; [cbn [with_heap heap]; apply store_length |]].
      * split; cbn [with_heap heap windows].
        -- apply Forall_store; [exact Hh |].
           eexists. split; [apply dict_get_set_eq |].
           cbn [store]. constructor; [eexists; reflexivity | exact Hcs'].
        -- now rewrite store_length.
      * intros b Hb. cbn [with_heap heap].
        destruct (Nat.eq_dec a b) as [<- | Hne]; [congruence |].
        now rewrite load_store_neq.
    + eexists. split; [reflexivity |]. repeat split; auto.
Qed.

Lemma pane_windows_raise (l : list nat) (st : DMFParser) (a : nat) :
  parser_ok st -> Forall (fun b => b < List.length (heap st)) l ->
  In a l -> childless st a ->
  for_each pane_window l st = Err IndexError.
Proof.
  revert st. induction l as [| b l IH]; intros st Hok Hl Hin Hch;
    [contradiction |].
  inversion Hl as [| ? ? Hb Hl']; subst.
  cbn [for_each].
  destruct (pane_window_step st b Hok Hb)
    as [[_ ->] | (Hnb & st' & -> & Hok' & Hw' & Hkeep)]; [reflexivity |].
  cbn [bind]. destruct Hin as [-> | Hin]; [contradiction |].
  apply IH; auto. now rewrite Hw'.
Qed.


(** C7: when, after the lines are read, some window category has no
    child element, [parse_file] raises [IndexError] at the inspection
    of the first child, and so does the whole pipeline: no window
    record is produced. *)
Theorem childless_window_raises (text : string) (st : DMFParser) (a : nat) :
  parse_lines text init = Ok st ->
  In a (windows st) ->
  childless st a ->
  parse_file text init = Err IndexError /\ parse text = Err IndexError.
Proof.
  intros Hlines Hin Hch.
  assert (Hfile : parse_file text init = Err IndexError).
  { unfold parse_file. rewrite Hlines. cbn [bind].
    pose proof (parse_lines_ok text st Hlines) as Hok.
    apply (pane_windows_raise (windows st) st a Hok); [apply Hok | exact Hin | exact Hch]. }
  split; [exact Hfile |].
  unfold parse. rewrite Hfile. reflexivity.
Qed.

Lemma childless_window_raises_witness :
  parse_file ("window " ++ quote ++ "w" ++ quote ++ nl) init = Err IndexError
  /\ parse ("window " ++ quote ++ "w" ++ quote ++ nl) = Err IndexError.
Proof.
  apply (childless_window_raises
           ("window " ++ quote ++ "w" ++ quote ++ nl)
           {| heap := [[("type", VStr "window"); ("id", VStr "w");
                        ("controls", VList [])]];
              macrolists := []; menubars := []; windows := [0];
              category := Some 0; element := None |}
           0).
  - reflexivity.
  - left. reflexivity.
  - reflexivity.
Defined.

End Windows.

(** ** A window header that no element line follows *)

Section EmptyWindow.

Local Open Scope string_scope.

Lemma for_each_app {S A : Type} (body : S -> A -> result S) (l1 l2 : list A) (st : S) :
  for_each body (l1 ++ l2) st
  = (st1 <- for_each body l1 st ;; for_each body l2 st1).
Proof.
  revert st. induction l1 as [| x l1 IH]; intros st; [reflexivity |].
  cbn [app for_each]. destruct (body st x); cbn [bind]; [apply IH | reflexivity].
Qed.

Lemma parse_line_blank (st : DMFParser) (l : string) :
  blank_line l -> parse_line st l = Ok st.
Proof. unfold blank_line, parse_line. now intros ->. Qed.

Lemma parse_line_attribute (st : DMFParser) (l : string) :
  attribute_line l -> parse_line st l = _parse_attribute st (PyStr.rstrip l).
Proof.
  unfold parse_line. intros [Hne Ht]. apply String.eqb_neq in Hne.
  now rewrite Hne, Ht.
Qed.

Lemma parse_line_category (st : DMFParser) (l : string) :
  category_line l -> parse_line st l = _parse_category st (PyStr.rstrip l).
Proof.
  unfold parse_line. intros (Hne & Ht2 & Ht1). apply String.eqb_neq in Hne.
  now rewrite Hne, Ht2, Ht1.
Qed.

Variable a : nat.

Lemma update_element_keeps (st st' : DMFParser) (f : dict -> dict) :
  empty_window a st -> update_element st f = Ok st' ->
  empty_window a st' /\ category st' = category st.
Proof.
  intros (Ha & Hin & Hch) H. unfold update_element in H.
  destruct (element st) as [[b i] |]; [| discriminate].
  invert_bind H as cv Hcv. invert_bind H as cs Hcs.
  invert_bind H as ev Hev. invert_bind H as e He. injection H as <-.
  assert (Hne : b <> a).
  { intros ->. unfold childless in Hch. unfold dict_getitem in Hcv.
    rewrite Hch in Hcv. injection Hcv as <-. cbn in Hcs. injection Hcs as <-.
    unfold list_getitem in Hev. destruct i; discriminate. }
  split; [| reflexivity].
  unfold empty_window, childless. cbn [with_heap heap windows].
  rewrite store_length, load_store_neq by exact Hne. auto.
Qed.

Lemma parse_attribute_keeps (st st' : DMFParser) (l : string) :
  empty_window a st -> _parse_attribute st l = Ok st' ->
  empty_window a st' /\ category st' = category st.
Proof.
  intros Hw H. unfold _parse_attribute in H.
  invert_bind H as nv Hnv. destruct nv as [name raw]. cbn beta iota in H.
  invert_bind H as v Hv.
  destruct (_ =? "type") in H; eapply update_element_keeps; eauto.
Qed.

Lemma parse_element_keeps (st st' : DMFParser) (l : string) :
  empty_window a st -> category st <> Some a -> _parse_element st l = Ok st' ->
  empty_window a st' /\ category st' = category st.
Proof.
  intros (Ha & Hin & Hch) Hc H. unfold _parse_element in H.
  invert_bind H as ti Hti. destruct ti as [t id]. cbn beta iota in H.
  destruct (category st) as [b |]; [| discriminate].
  invert_bind H as cv Hcv. invert_bind H as cs Hcs. injection H as <-.
  split; [| reflexivity].
  unfold empty_window, childless. cbn [heap windows].
  rewrite store_length, load_store_neq by congruence. auto.
Qed.

Lemma parse_category_keeps (st st' : DMFParser) (l : string) :
  empty_window a st -> _parse_category st l = Ok st' ->
  empty_window a st' /\ category st' <> Some a.
Proof.
  intros (Ha & Hin & Hch) H. unfold _parse_category in H.
  invert_bind H as ti Hti. destruct ti as [t id]. cbn beta iota in H.
  injection H as <-. cbn [category]. split; [| intros [= E]; lia].
  unfold empty_window, childless, load. cbn [heap windows].
  rewrite length_app, app_nth1 by exact Ha. split; [lia |]. split; [| exact Hch].
  destruct (t =? "macro"); [exact Hin |].
  destruct (t =? "menu"); [exact Hin |].
  destruct (t =? "window"); [| exact Hin].
  apply in_or_app. now left.
Qed.

(** Once another category is current, no line gives the window a child. *)
Lemma closed_window_stays_empty (ls : list string) :
  forall st st',
    empty_window a st -> category st <> Some a ->
    for_each parse_line ls st = Ok st' -> empty_window a st'.
Proof.
  induction ls as [| l ls IH]; intros st st' Hw Hc H.
  - cbn in H. now injection H as <-.
  - cbn [for_each] in H. invert_bind H as st1 Hl.
    unfold parse_line in Hl.
    destruct (PyStr.rstrip l =? ""); [injection Hl as <-; eauto |].
    destruct (PyStr.startswith _ _).
    + destruct (parse_attribute_keeps _ _ _ Hw Hl) as [Hw1 Hc1].
      apply (IH st1 st' Hw1); [congruence | exact H].
    + destruct (PyStr.startswith _ _).
      * destruct (parse_element_keeps _ _ _ Hw Hc Hl) as [Hw1 Hc1].
        apply (IH st1 st' Hw1); [congruence | exact H].
      * destruct (parse_category_keeps _ _ _ Hw Hl) as [Hw1 Hc1].
        apply (IH st1 st' Hw1 Hc1 H).
Qed.

(** Blank and attribute lines leave the open window empty. *)
Lemma open_window_stays_empty (mid : list string) :
  Forall (fun l => blank_line l \/ attribute_line l) mid ->
  forall st st',
    empty_window a st ->
    for_each parse_line mid st = Ok st' -> empty_window a st'.
Proof.
  induction 1 as [| l mid Hl Hmid IH]; intros st st' Hw H.
  - cbn in H. now injection H as <-.
  - cbn [for_each] in H. invert_bind H as st1 Hst1.
    destruct Hl as [Hl | Hl].
    + rewrite (parse_line_blank st l Hl) in Hst1. injection Hst1 as <-. eauto.
    + rewrite (parse_line_attribute st l Hl) in Hst1.
      destruct (parse_attribute_keeps _ _ _ Hw Hst1) as [Hw1 _]. eauto.
Qed.

End EmptyWindow.

Lemma window_header_opens (st st' : DMFParser) (hdr : string) :
  window_header hdr -> parse_line st hdr = Ok st' ->
  empty_window (List.length (heap st)) st'.
Proof.
  intros [Hcat (id & Hid)] H.
  rewrite (parse_line_category st hdr Hcat) in H.
  unfold _parse_category in H. rewrite Hid in H. cbn [bind] in H.
  injection H as <-. unfold empty_window, childless, load. cbn [heap windows].
  rewrite length_app, nth_middle. cbn [List.length].
  split; [lia |]. split.
  - change ("window" =? "macro")%string with false.
    change ("window" =? "menu")%string with false.
    change ("window" =? "window")%string with true. cbv iota.
    apply in_or_app. right. now left.
  - unfold header_record.
    destruct id as [i |]; [destruct (truthy (VStr i)) |]; reflexivity.
Qed.

(** A text in which a window header is followed by no element line
    before the next header is never parsed to the end: either a line
    is malformed, or the inspection of the window's first child
    raises [IndexError]. *)
Lemma window_header_without_element_raises
    (text : string) (pre : list string) (hdr : string) (rest : list string) :
  readlines (universal_newlines text) = (pre ++ hdr :: rest)%list ->
  window_header hdr ->
  no_element_follows rest ->
  parse text = Err IndexError
  \/ exists e, parse_lines text init = Err e /\ parse text = Err e.
Proof.
  intros Hlines Hhdr (mid & post & -> & Hmid & Hpost).
  destruct (parse_lines text init) as [st | e] eqn:Hst.
  - left.
    assert (Hw : exists a, empty_window a st).
    { unfold parse_lines in Hst. rewrite Hlines, for_each_app in Hst.
      invert_bind Hst as st0 Hpre. cbn [for_each] in Hst.
      invert_bind Hst as st1 Hopen. rewrite for_each_app in Hst.
      invert_bind Hst as st2 Hst2.
      exists (List.length (heap st0)).
      pose proof (window_header_opens st0 st1 hdr Hhdr Hopen) as Hw1.
      pose proof (open_window_stays_empty _ mid Hmid st1 st2 Hw1 Hst2) as Hw2.
      destruct Hpost as [-> | (c & post' & -> & Hc)].
      - cbn in Hst. now injection Hst as <-.
      - cbn [for_each] in Hst. invert_bind Hst as st3 Hst3.
        rewrite (parse_line_category st2 c Hc) in Hst3.
        destruct (parse_category_keeps _ _ _ _ Hw2 Hst3) as [Hw3 Hc3].
        apply (closed_window_stays_empty _ post' st3 st Hw3 Hc3 Hst). }
    destruct Hw as (a & Ha & Hin & Hch).
    pose proof (parse_lines_ok text st Hst) as Hok.
    unfold parse, parse_file. rewrite Hst. cbn [bind].
    rewrite (pane_windows_raise (windows st) st a Hok); [reflexivity | | exact Hin | exact Hch].
    apply Hok.
  - right. exists e. split; [reflexivity |].
    unfold parse, parse_file. rewrite Hst. reflexivity.
Qed.

(** ** Keys of the category mapping *)

Section Keys.

Local Open Scope string_scope.

Lemma key_eqb_spec (a b : value) :
  key_eqb a b = true
  <-> hashable a = true /\ hashable b = true /\ key_norm a = key_norm b.
Proof.
  destruct a as [| x | n | s | l | l | d], b as [| y | m | t | l' | l' | d'];
    cbn [key_eqb hashable key_norm];
    (split; [intros H | intros (H1 & H2 & H)]);
    try discriminate; try (repeat split; reflexivity); try reflexivity.
  - destruct x, y; cbn in *; try discriminate; auto.
  - destruct x, y; cbn in *; try discriminate; auto.
  - apply Z.eqb_eq in H. subst. auto.
  - injection H as H. apply Z.eqb_eq. now subst.
  - apply Z.eqb_eq in H. subst. auto.
  - injection H as H. apply Z.eqb_eq. now subst.
  - apply Z.eqb_eq in H. subst. auto.
  - injection H as H. apply Z.eqb_eq. now subst.
  - apply String.eqb_eq in H. subst. auto.
  - injection H as H. apply String.eqb_eq. now subst.
  - destruct (list_eq_dec Z.eq_dec l l'); [subst; auto | discriminate].
  - injection H as H. destruct (list_eq_dec Z.eq_dec l l'); congruence.
Qed.

Lemma key_eqb_refl (a : value) : hashable a = true -> key_eqb a a = true.
Proof. intros H. apply key_eqb_spec. auto. Qed.

Lemma key_eqb_sym (a b : value) : key_eqb a b = key_eqb b a.
Proof.
  destruct (key_eqb a b) eqn:E1, (key_eqb b a) eqn:E2; try reflexivity.
  - apply key_eqb_spec in E1 as (? & ? & ?).
    assert (key_eqb b a = true) by (apply key_eqb_spec; auto). congruence.
  - apply key_eqb_spec in E2 as (? & ? & ?).
    assert (key_eqb a b = true) by (apply key_eqb_spec; auto). congruence.
Qed.

Lemma key_eqb_trans (a b c : value) :
  key_eqb a b = true -> key_eqb b c = true -> key_eqb a c = true.
Proof.
  intros (? & ? & ?)%key_eqb_spec (? & ? & ?)%key_eqb_spec.
  apply key_eqb_spec. repeat split; congruence.
Qed.

(** Equal keys are equal for every third key. *)
Lemma key_eqb_congr (a b c : value) :
  key_eqb a b = true -> key_eqb c a = key_eqb c b.
Proof.
  intros Hab.
  destruct (key_eqb c a) eqn:E1, (key_eqb c b) eqn:E2; try reflexivity.
  - rewrite (key_eqb_trans c a b E1 Hab) in E2. discriminate.
  - rewrite key_eqb_sym in Hab.
    rewrite (key_eqb_trans c b a E2 Hab) in E1. discriminate.
Qed.

Lemma odict_get_set (c k v : value) (m : odict) :
  odict_get c (odict_set k v m)
  = if key_eqb c k then Some v else odict_get c m.
Proof.
  induction m as [| [k' v'] m IH]; cbn [odict_set odict_get].
  - reflexivity.
  - destruct (key_eqb k k') eqn:Ek; cbn [odict_get].
    + rewrite (key_eqb_congr k k' c Ek).
      destruct (key_eqb c k'); reflexivity.
    + destruct (key_eqb c k') eqn:Ec; [| exact IH].
      destruct (key_eqb c k) eqn:Eck; [| reflexivity].
      rewrite key_eqb_sym in Eck.
      rewrite (key_eqb_trans k c k' Eck Ec) in Ek. discriminate.
Qed.

Lemma odict_get_congr (c c' : value) (m : odict) :
  key_eqb c c' = true -> odict_get c m = odict_get c' m.
Proof.
  intros H. induction m as [| [k v] m IH]; [reflexivity |].
  cbn [odict_get].
  rewrite (key_eqb_sym c k), (key_eqb_sym c' k), (key_eqb_congr c c' k H).
  destruct (key_eqb k c'); [reflexivity | exact IH].
Qed.

Lemma odict_get_None (k : value) (m : odict) :
  odict_get k m = None <-> existsb (key_eqb k) (map fst m) = false.
Proof.
  induction m as [| [k' v] m IH]; cbn [odict_get map fst existsb].
  - tauto.
  - destruct (key_eqb k k'); cbn [orb]; [split; discriminate | exact IH].
Qed.

Lemma odict_set_keys (k v : value) (m : odict) :
  map fst (odict_set k v m)
  = if existsb (key_eqb k) (map fst m) then map fst m
    else (map fst m ++ [k])%list.
Proof.
  induction m as [| [k' v'] m IH]; cbn [odict_set map fst existsb app].
  - reflexivity.
  - destruct (key_eqb k k'); cbn [orb map fst]; [reflexivity |].
    rewrite IH. destruct (existsb (key_eqb k) (map fst m)); reflexivity.
Qed.

Lemma Forall_odict_set (P : value -> Prop) (k v : value) (m : odict) :
  Forall (fun kv => P (snd kv)) m -> P v ->
  Forall (fun kv => P (snd kv)) (odict_set k v m).
Proof.
  intros Hm Hv. induction Hm as [| [k' v'] m Hkv Hm IH]; cbn [odict_set].
  - constructor; [exact Hv | constructor].
  - destruct (key_eqb k k'); constructor; auto.
Qed.

Lemma odict_get_Forall (P : value -> Prop) (k v : value) (m : odict) :
  Forall (fun kv => P (snd kv)) m -> odict_get k m = Some v -> P v.
Proof.
  intros Hm. induction Hm as [| [k' v'] m Hkv Hm IH]; cbn [odict_get];
    [discriminate |].
  destruct (key_eqb k k'); [intros [= <-]; exact Hkv | exact IH].
Qed.

End Keys.

(** ** One turn of the loop over the menu entries *)

Section MenuStep.

Local Open Scope string_scope.

Lemma del_if_has (k : string) (d : dict) :
  (if dict_has k d then dict_del k d else d) = dict_del k d.
Proof.
  destruct (dict_has k d) eqn:E; [reflexivity |].
  symmetry. apply dict_del_absent. now apply dict_has_false.
Qed.

Lemma menu_of_name (m : dict) : dict_get "name" (menu_of m) = dict_get "name" m.
Proof.
  unfold menu_of.
  rewrite !dict_get_del_neq, !dict_get_set_neq by discriminate. reflexivity.
Qed.

Lemma menu_of_category (m : dict) :
  dict_get "category" (menu_of m) = dict_get "category" m.
Proof.
  unfold menu_of.
  rewrite !dict_get_del_neq, !dict_get_set_neq by discriminate. reflexivity.
Qed.

Lemma menu_of_actions (m : dict) :
  dict_get "actions" (menu_of m) = Some (VList []).
Proof.
  unfold menu_of.
  rewrite !dict_get_del_neq by discriminate. apply dict_get_set_eq.
Qed.

Lemma action_of_category (m : dict) : dict_has "category" (action_of m) = false.
Proof.
  apply dict_has_false. unfold action_of.
  destruct (truthy_opt _); [| reflexivity].
  rewrite dict_get_set_neq by discriminate. apply dict_get_del_eq.
Qed.

Lemma menu_of_ok (m : dict) :
  dict_get "category" m = None -> record_ok (VDict (menu_of m)).
Proof.
  intros H. exists (menu_of m), []. repeat split.
  - apply dict_has_false. now rewrite menu_of_category.
  - apply menu_of_actions.
  - constructor.
Qed.

Lemma new_category_ok (c : value) : record_ok (VDict (new_category c)).
Proof. exists (new_category c), []. repeat split. constructor. Qed.

Lemma add_action_ok (r a : dict) :
  record_ok (VDict r) -> dict_has "category" a = false ->
  record_ok (VDict (add_action r a)).
Proof.
  intros (r' & acts & [= <-] & Hc & Ha & Hacts) Hna.
  exists (add_action r a), (acts ++ [VDict a])%list.
  unfold add_action, actions_of. rewrite Ha. repeat split.
  - apply dict_has_false. rewrite dict_get_set_neq by discriminate.
    now apply dict_has_false.
  - apply dict_get_set_eq.
  - apply Forall_app. split; [exact Hacts |].
    constructor; [| constructor]. exists a. auto.
Qed.

Lemma category_record_ok (c : value) (cats : odict) :
  categories_ok cats -> record_ok (VDict (category_record c cats)).
Proof.
  intros Hok. unfold category_record.
  destruct (odict_get c cats) as [v |] eqn:E; [| apply new_category_ok].
  pose proof (odict_get_Forall record_ok c v cats Hok E) as Hv.
  destruct Hv as (r & acts & -> & H). exists r, acts. auto.
Qed.

Lemma ensure_category_ok (c : value) (cats : odict) :
  categories_ok cats -> categories_ok (ensure_category c cats).
Proof.
  intros Hok. unfold ensure_category.
  destruct (odict_get c cats); [exact Hok |].
  apply (Forall_odict_set record_ok); [exact Hok | apply new_category_ok].
Qed.

Lemma ensure_category_get (c : value) (cats : odict) :
  categories_ok cats -> hashable c = true ->
  odict_get c (ensure_category c cats) = Some (VDict (category_record c cats)).
Proof.
  intros Hok Hc. unfold ensure_category, category_record.
  destruct (odict_get c cats) as [v |] eqn:E.
  - rewrite E.
    destruct (odict_get_Forall record_ok c v cats Hok E) as (r & acts & -> & _).
    reflexivity.
  - rewrite odict_get_set, key_eqb_refl by exact Hc. reflexivity.
Qed.

(** The turn for an entry without category. *)
Lemma menu_step_menu (cats : odict) (groups : list value) (m : dict) :
  dict_get "category" m = None ->
  menu_step (cats, groups) (VDict m)
  = (name <- dict_getitem "name" m ;;
     _ <- hash_key name ;;
     Ok (odict_set name (VDict (menu_of m)) cats, groups)).
Proof.
  intros Hc. unfold menu_step. cbn [as_dict bind].
  unfold dict_has at 1. rewrite Hc. cbn [negb].
  rewrite !del_if_has. fold (menu_of m).
  unfold dict_getitem. now rewrite menu_of_name.
Qed.

(** The turn for an entry with a category. *)
Lemma menu_step_action (cats : odict) (groups : list value) (m : dict) (c : value) :
  categories_ok cats -> dict_get "category" m = Some c ->
  menu_step (cats, groups) (VDict m)
  = (_ <- hash_key c ;;
     groups' <- group_step m groups ;;
     Ok (odict_set c (VDict (add_action (category_record c cats) (action_of m)))
           (ensure_category c cats), groups')).
Proof.
  intros Hok Hc. unfold menu_step, group_step, action_of, hash_key.
  cbn [as_dict bind].
  unfold dict_has at 1, dict_pop. rewrite Hc. cbn [negb bind].
  destruct (hashable c) eqn:Hh; [| reflexivity].
  cbn [bind]. fold (ensure_category c cats).
  rewrite (ensure_category_get c cats Hok Hh).
  pose proof (category_record_ok c cats Hok) as (r & acts & [= Er] & _ & Ha & _).
  destruct (truthy_opt (dict_get "name" (dict_del "category" m))).
  - destruct (truthy_opt (dict_get "group" _)).
    + destruct (dict_getitem "group" _) as [g | e]; [| reflexivity].
      cbn [bind]. destruct (hashable g); [| reflexivity].
      cbn [bind as_dict]. unfold dict_getitem, add_action, actions_of.
      rewrite Er, Ha. reflexivity.
    + cbn [bind as_dict]. unfold dict_getitem, add_action, actions_of.
      rewrite Er, Ha. reflexivity.
  - cbn [bind as_dict]. unfold dict_getitem, add_action, actions_of.
    rewrite Er, Ha. reflexivity.
Qed.

(** The loop keeps the records of the mapping free of [category]. *)
Lemma menu_step_ok (acc : odict * list value) (v : value) (acc' : odict * list value) :
  categories_ok (fst acc) -> menu_step acc v = Ok acc' -> categories_ok (fst acc').
Proof.
  destruct acc as [cats groups]. cbn [fst]. intros Hok H.
  destruct v as [| | | | | | m]; try discriminate.
  destruct (dict_get "category" m) as [c |] eqn:Ec.
  - rewrite (menu_step_action cats groups m c Hok Ec) in H.
    inv_bind H. inv_bind H. injection H as <-. cbn [fst].
    apply (Forall_odict_set record_ok).
    + now apply ensure_category_ok.
    + apply add_action_ok; [now apply category_record_ok | apply action_of_category].
  - rewrite (menu_step_menu cats groups m Ec) in H.
    inv_bind H. inv_bind H. injection H as <-. cbn [fst].
    apply (Forall_odict_set record_ok); [exact Hok | now apply menu_of_ok].
Qed.

Lemma menus_loop_ok (menus : list value) (acc acc' : odict * list value) :
  categories_ok (fst acc) -> for_each menu_step menus acc = Ok acc' ->
  categories_ok (fst acc').
Proof.
  apply (for_each_invariant (fun acc => categories_ok (fst acc)) menu_step).
  intros s x s'. apply menu_step_ok.
Qed.

Lemma menus_loop_start_ok (menus : list value) (cats : odict) (groups : list value) :
  for_each menu_step menus ([], []) = Ok (cats, groups) -> categories_ok cats.
Proof.
  intros H.
  apply (menus_loop_ok menus ([], []) (cats, groups)); [constructor | exact H].
Qed.

End MenuStep.

(** ** The category mapping, entry by entry *)

Section Categories.

Local Open Scope string_scope.

Lemma dict_set_same (k : string) (v : value) (d : dict) :
  dict_get k d = Some v -> dict_set k v d = d.
Proof.
  induction d as [| [k' v'] d IH]; cbn [dict_get dict_set]; [discriminate |].
  destruct (k =? k'); [now intros [= ->] | intros H; now rewrite IH].
Qed.

Lemma group_step_total (m : dict) (groups : list value) :
  entry_ok m -> exists groups', group_step m groups = Ok groups'.
Proof.
  intros [_ Hg]. unfold group_step.
  destruct (truthy_opt (dict_get "name" _)); [| eauto].
  rewrite dict_get_set_neq, dict_get_del_neq by discriminate.
  unfold dict_getitem.
  rewrite dict_get_set_neq, dict_get_del_neq by discriminate.
  destruct (dict_get "group" m) as [g |] eqn:E; cbn [truthy_opt]; [| eauto].
  destruct (truthy g); [| eauto].
  cbn [bind]. unfold hash_key. rewrite (Hg g eq_refl). cbn [bind]. eauto.
Qed.

Lemma ensure_category_keys (c : value) (cats : odict) :
  map fst (ensure_category c cats)
  = if existsb (key_eqb c) (map fst cats) then map fst cats
    else (map fst cats ++ [c])%list.
Proof.
  unfold ensure_category.
  destruct (odict_get c cats) eqn:E.
  - destruct (existsb (key_eqb c) (map fst cats)) eqn:Ex; [reflexivity |].
    apply odict_get_None in Ex. congruence.
  - rewrite odict_set_keys. apply odict_get_None in E. now rewrite E.
Qed.

Lemma ensure_category_other (c c' : value) (cats : odict) :
  key_eqb c c' = false ->
  odict_get c (ensure_category c' cats) = odict_get c cats.
Proof.
  intros H. unfold ensure_category.
  destruct (odict_get c' cats); [reflexivity |].
  now rewrite odict_get_set, H.
Qed.

(** One entry that can be filed is filed without exception; its effect
    on each record of the mapping is [record_step], and its key joins
    the keys if it is new. *)
Lemma menu_step_total (cats : odict) (groups : list value) (m : dict) :
  categories_ok cats -> entry_ok m ->
  exists cats' groups',
    menu_step (cats, groups) (VDict m) = Ok (cats', groups')
    /\ (forall c, odict_get c cats' = record_step c (odict_get c cats) m)
    /\ map fst cats' = first_seen (map fst cats) [m].
Proof.
  intros Hok Hm. pose proof Hm as [(k & Hk & Hh) _].
  unfold entry_key in Hk. cbn [first_seen]. unfold entry_key.
  destruct (dict_get "category" m) as [c' |] eqn:Ec.
  - injection Hk as ->.
    destruct (group_step_total m groups Hm) as (groups' & Hg).
    rewrite (menu_step_action cats groups m k Hok Ec).
    unfold hash_key. rewrite Hh, Hg. cbn [bind].
    eexists _, groups'. split; [reflexivity |]. split.
    + intros c. rewrite odict_get_set. unfold record_step. rewrite Ec.
      destruct (key_eqb c k) eqn:Eck.
      * unfold category_record.
        now rewrite (odict_get_congr c k cats Eck).
      * now apply ensure_category_other.
    + rewrite odict_set_keys, ensure_category_keys.
      destruct (existsb (key_eqb k) (map fst cats)) eqn:Ex.
      * now rewrite Ex.
      * rewrite existsb_app, Ex. cbn [existsb].
        now rewrite key_eqb_refl by exact Hh.
  - rewrite (menu_step_menu cats groups m Ec).
    unfold dict_getitem, hash_key. rewrite Hk. cbn [bind]. rewrite Hh. cbn [bind].
    eexists _, groups. split; [reflexivity |]. split.
    + intros c. rewrite odict_get_set. unfold record_step, is_named.
      now rewrite Ec, Hk.
    + apply odict_set_keys.
Qed.

Lemma menus_loop_total (ms : list dict) :
  forall cats groups,
    categories_ok cats -> Forall entry_ok ms ->
    exists cats' groups',
      for_each menu_step (map VDict ms) (cats, groups) = Ok (cats', groups')
      /\ (forall c, odict_get c cats'
                    = fold_left (record_step c) ms (odict_get c cats))
      /\ map fst cats' = first_seen (map fst cats) ms.
Proof.
  induction ms as [| m ms IH]; intros cats groups Hok Hms.
  - exists cats, groups. repeat split.
  - inversion Hms as [| ? ? Hm Hms']; subst.
    destruct (menu_step_total cats groups m Hok Hm)
      as (cats1 & groups1 & Hstep & Hget & Hkeys).
    assert (Hok1 : categories_ok cats1)
      by (apply (menu_step_ok (cats, groups) (VDict m) (cats1, groups1) Hok Hstep)).
    destruct (IH cats1 groups1 Hok1 Hms') as (cats' & groups' & Hloop & Hget' & Hkeys').
    exists cats', groups'. cbn [map for_each]. rewrite Hstep. cbn [bind].
    split; [exact Hloop |]. split.
    + intros c. cbn [fold_left]. now rewrite Hget', Hget.
    + rewrite Hkeys', Hkeys. cbn [first_seen].
      destruct (entry_key m); reflexivity.
Qed.

(** *** What [record_step] does to one record *)

Lemma record_step_other (c : value) (r : option value) (m : dict) :
  in_category c m = false -> is_named c m = false -> record_step c r m = r.
Proof.
  unfold record_step, in_category, is_named.
  destruct (dict_get "category" m); intros H1 H2; now rewrite ?H1, ?H2.
Qed.

Lemma record_step_action (c : value) (base : dict) (m : dict) :
  in_category c m = true ->
  record_step c (Some (VDict base)) m
  = Some (VDict (add_action base (action_of m))).
Proof.
  unfold record_step, in_category.
  destruct (dict_get "category" m); [| discriminate]. now intros ->.
Qed.

Lemma record_step_first (c c0 : value) (m : dict) :
  in_category c m = true -> dict_get "category" m = Some c0 ->
  record_step c None m
  = Some (VDict (add_action (new_category c0) (action_of m))).
Proof.
  unfold record_step, in_category. intros H E. rewrite E in *. now rewrite H.
Qed.

Lemma record_step_named (c : value) (r : option value) (m : dict) :
  is_named c m = true -> record_step c r m = Some (VDict (menu_of m)).
Proof.
  unfold record_step. intros H. pose proof H as H'. unfold is_named in H'.
  destruct (dict_get "category" m); [discriminate |]. now rewrite H.
Qed.

Lemma named_not_in_category (c : value) (m : dict) :
  is_named c m = true -> in_category c m = false.
Proof.
  unfold is_named, in_category.
  destruct (dict_get "category" m); [discriminate | reflexivity].
Qed.

Lemma actions_for_cons (c : value) (m : dict) (ms : list dict) :
  actions_for c (m :: ms)
  = if in_category c m then VDict (action_of m) :: actions_for c ms
    else actions_for c ms.
Proof.
  unfold actions_for. cbn [filter]. destruct (in_category c m); reflexivity.
Qed.

Lemma actions_for_app (c : value) (l1 l2 : list dict) :
  actions_for c (l1 ++ l2) = (actions_for c l1 ++ actions_for c l2)%list.
Proof. unfold actions_for. now rewrite filter_app, map_app. Qed.

(** Once a record is filed under [c] and no later entry without
    category is named [c], the entries of category [c] are appended to
    its [actions], in order. *)
Lemma fold_appends_actions (c : value) (ms : list dict) :
  forall base acts,
    unnamed c ms ->
    dict_get "actions" base = Some (VList acts) ->
    fold_left (record_step c) ms (Some (VDict base))
    = Some (VDict (dict_set "actions" (VList (acts ++ actions_for c ms)) base)).
Proof.
  unfold unnamed. induction ms as [| m ms IH]; intros base acts Hun Ha.
  - cbn [fold_left]. unfold actions_for. cbn [filter map].
    rewrite app_nil_r. now rewrite dict_set_same.
  - cbn [forallb] in Hun. apply andb_true_iff in Hun as [Hm Hun].
    apply negb_true_iff in Hm.
    cbn [fold_left]. rewrite actions_for_cons.
    destruct (in_category c m) eqn:Ec.
    + rewrite (record_step_action c base m Ec).
      unfold add_action, actions_of. rewrite Ha.
      rewrite (IH _ (acts ++ [VDict (action_of m)])%list Hun)
        by apply dict_get_set_eq.
      rewrite dict_set_set, <- app_assoc. reflexivity.
    + rewrite (record_step_other c _ m Ec Hm). now apply IH.
Qed.

Lemma fold_new_category (c c0 : value) (ms : list dict) (m0 : dict) (rest : list dict) :
  unnamed c ms ->
  filter (in_category c) ms = m0 :: rest ->
  dict_get "category" m0 = Some c0 ->
  fold_left (record_step c) ms None
  = Some (VDict (dict_set "actions" (VList (actions_for c ms)) (new_category c0))).
Proof.
  unfold unnamed. induction ms as [| m ms IH]; intros Hun Hf Hc0;
    [discriminate |].
  cbn [forallb] in Hun. apply andb_true_iff in Hun as [Hm Hun].
  apply negb_true_iff in Hm.
  cbn [fold_left]. rewrite actions_for_cons.
  cbn [filter] in Hf. destruct (in_category c m) eqn:Ec.
  - injection Hf as <- _.
    rewrite (record_step_first c c0 m Ec Hc0).
    rewrite (fold_appends_actions c ms _ [VDict (action_of m)] Hun)
      by reflexivity.
    reflexivity.
  - rewrite (record_step_other c _ m Ec Hm). now apply IH.
Qed.

Lemma fold_named_menu (c : value) (pre post : list dict) (m : dict) (r : option value) :
  is_named c m = true -> unnamed c post ->
  fold_left (record_step c) (pre ++ m :: post) r
  = Some (VDict (dict_set "actions" (VList (actions_for c post)) (menu_of m))).
Proof.
  intros Hm Hpost. rewrite fold_left_app. cbn [fold_left].
  rewrite (record_step_named c _ m Hm).
  now rewrite (fold_appends_actions c post (menu_of m) [] Hpost (menu_of_actions m)).
Qed.

End Categories.

(** ** The menu bars after normalization *)

Section MenuBars.

Local Open Scope string_scope.

Lemma map_result_In {A B : Type} (f : A -> result B) (l : list A) (l' : list B) (y : B) :
  map_result f l = Ok l' -> In y l' -> exists x, In x l /\ f x = Ok y.
Proof.
  revert l'. induction l as [| x l IH]; intros l' H Hin.
  - cbn in H. injection H as <-. contradiction.
  - cbn [map_result] in H. invert_bind H as b Hb. invert_bind H as bs Hbs.
    injection H as <-.
    destruct Hin as [<- | Hin].
    + exists x. split; [now left | assumption].
    + destruct (IH _ Hbs Hin) as (x' & Hx' & Hf).
      exists x'. split; [now right | assumption].
Qed.

(** C5: in every menu-bar record that [post_process] returns, the
    [menus] list holds records without a [category] field, whose
    [actions] are records without a [category] field. *)
Theorem menus_have_no_category (f out : forest) (mb : value) :
  post_process f = Ok out ->
  In mb (f_menubars out) ->
  exists d menus,
    mb = VDict d
    /\ dict_get "menus" d = Some (VList menus)
    /\ Forall record_ok menus.
Proof.
  intros H Hin. unfold post_process in H.
  invert_bind H as ms Hms. invert_bind H as bs Hbs. invert_bind H as ws Hws.
  injection H as <-. cbn [f_menubars] in Hin.
  destruct (map_result_In _ _ _ _ Hbs Hin) as (v & _ & Hv).
  unfold post_menubar in Hv.
  invert_bind Hv as menubar0 Hd. invert_bind Hv as popped Hpop.
  destruct popped as [menus_v menubar].
  cbn beta iota in Hv. invert_bind Hv as menus Hmenus. invert_bind Hv as acc Hloop.
  destruct acc as [cats groups]. cbn beta iota in Hv. injection Hv as <-.
  eexists _, (map snd cats). split; [reflexivity |]. split.
  - rewrite dict_get_set_neq by discriminate. apply dict_get_set_eq.
  - assert (Hok : categories_ok cats)
      by (apply (menus_loop_start_ok _ _ _ Hloop)).
    unfold categories_ok in Hok. rewrite Forall_forall in *.
    intros r (kv & <- & Hkv)%in_map_iff. now apply Hok.
Qed.

Lemma menus_have_no_category_witness :
  exists d menus,
    VDict
      [ ("type", VStr "MENUBAR"); ("id", VStr "menu");
        ("menus",
         VList
           [ VDict
               [ ("type", VStr "MENU"); ("name", VStr "File");
                 ("actions",
                  VList
                    [ VDict [("type", VStr "ACTION"); ("name", VStr "Quit")];
                      VDict [("type", VStr "SEPARATOR")] ]) ] ]);
        ("groups", VList []) ] = VDict d
    /\ dict_get "menus" d = Some (VList menus)
    /\ Forall record_ok menus.
Proof.
  apply (menus_have_no_category
           {| f_macrolists := []; f_menubars := [VDict file_menubar];
              f_windows := [] |}
           {| f_macrolists := [];
              f_menubars :=
                [ VDict
                    [ ("type", VStr "MENUBAR"); ("id", VStr "menu");
                      ("menus",
                       VList
                         [ VDict
                             [ ("type", VStr "MENU"); ("name", VStr "File");
                               ("actions",
                                VList
                                  [ VDict [("type", VStr "ACTION");
                                           ("name", VStr "Quit")];
                                    VDict [("type", VStr "SEPARATOR")] ]) ] ]);
                      ("groups", VList []) ] ];
              f_windows := [] |}).
  - reflexivity.
  - left. reflexivity.
Defined.

(** C6: an entry with a category and with no name, or an empty one,
    adds exactly the record [{type: SEPARATOR}] to the [actions] of the
    record filed under its category (synthesized if need be); nothing
    else of the entry is kept, and the groups are unchanged. *)
Theorem nameless_entry_is_separator
    (pre : list value) (cats : odict) (groups : list value) (m : dict) (c : value) :
  for_each menu_step pre ([], []) = Ok (cats, groups) ->
  dict_get "category" m = Some c ->
  hashable c = true ->
  dict_get "name" m = None \/ dict_get "name" m = Some (VStr "") ->
  exists cats' record actions,
    category_record c cats = record
    /\ dict_get "actions" record = Some (VList actions)
    /\ menu_step (cats, groups) (VDict m) = Ok (cats', groups)
    /\ odict_get c cats'
       = Some (VDict (dict_set "actions"
                        (VList (actions ++ [VDict [("type", VStr "SEPARATOR")]]))
                        record)).
Proof.
  intros Hpre Hc Hh Hname.
  assert (Hok : categories_ok cats)
    by (apply (menus_loop_start_ok _ _ _ Hpre)).
  destruct (category_record_ok c cats Hok) as (r & acts & [= Er] & _ & Ha & _).
  assert (Hn : truthy_opt (dict_get "name" (dict_del "category" m)) = false).
  { rewrite dict_get_del_neq by discriminate.
    destruct Hname as [-> | ->]; reflexivity. }
  eexists _, r, acts. split; [exact Er |]. split; [exact Ha |].
  rewrite (menu_step_action cats groups m c Hok Hc).
  unfold hash_key, group_step, action_of. rewrite Hh, Hn. cbn [bind].
  split; [reflexivity |].
  rewrite odict_get_set, key_eqb_refl by exact Hh.
  unfold add_action, actions_of. rewrite Er, Ha. reflexivity.
Qed.

Lemma nameless_entry_is_separator_witness :
  exists cats' record actions,
    category_record (VStr "File")
      [(VStr "File", VDict [("type", VStr "MENU"); ("name", VStr "File");
                            ("actions", VList [])])] = record
    /\ dict_get "actions" record = Some (VList actions)
    /\ menu_step
         ([(VStr "File", VDict [("type", VStr "MENU"); ("name", VStr "File");
                                ("actions", VList [])])], [])
         (VDict [("type", VStr "elem"); ("category", VStr "File")])
       = Ok (cats', [])
    /\ odict_get (VStr "File") cats'
       = Some (VDict (dict_set "actions"
                        (VList (actions ++ [VDict [("type", VStr "SEPARATOR")]]))
                        record)).
Proof.
  apply (nameless_entry_is_separator
           [VDict [("type", VStr "elem"); ("name", VStr "File"); ("command", VStr "")]]).
  - reflexivity.
  - reflexivity.
  - reflexivity.
  - left. reflexivity.
Defined.

(** C4, as stated, fails: a menu named like a category and coming after
    an action of that category takes the place of the synthesized
    record, and the action filed before it is in no record of [menus]. *)
Lemma late_menu_loses_action :
  exists cats groups,
    for_each menu_step (map VDict late_menu) ([], []) = Ok (cats, groups)
    /\ ~ (exists r,
            In (VDict r) (map snd cats)
            /\ dict_get "actions" r
               = Some (VList (actions_for (VStr "F") late_menu))).
Proof.
  eexists _, _. split; [vm_compute; reflexivity |].
  intros (r & [[= <-] | []] & Ha). vm_compute in Ha. discriminate Ha.
Qed.

(** C4, amended: in every menu bar whose entries all have a hashable
    key (their category, or else their name) and group, the [menus]
    list holds one record per key, in the order in which the keys are
    first seen.  Moreover, for every category [c] whose base record is
    either the one synthesized at its first reference, of shape
    [{name, command: "", saved_params: "is_checked", actions: []}],
    when no entry without category is named [c], or the entry without
    category named [c] when it precedes every entry of category [c]
    and is the last of that name, the record filed under [c] is that
    base record with all the entries of category [c] in its [actions],
    in entry order. *)
Theorem menu_categories_spec (mb : dict) (ms : list dict) :
  dict_get "controls" mb = Some (VList (map VDict ms)) ->
  Forall entry_ok ms ->
  exists cats out,
    post_menubar (VDict mb) = Ok (VDict out)
    /\ dict_get "menus" out = Some (VList (map snd cats))
    /\ map fst cats = first_seen [] ms
    /\ forall c base,
         category_base c ms base ->
         odict_get c cats
         = Some (VDict (dict_set "actions" (VList (actions_for c ms)) base)).
Proof.
  intros Hctl Hms.
  destruct (menus_loop_total ms [] [] (Forall_nil _) Hms)
    as (cats & groups & Hloop & Hget & Hkeys).
  exists cats. eexists. split; [| split; [| split; [exact Hkeys |]]].
  - unfold post_menubar. cbn [as_dict bind]. unfold dict_pop.
    rewrite Hctl. cbn [bind as_list]. unfold odict in *.
    rewrite Hloop. cbn [bind]. reflexivity.
  - rewrite dict_get_set_neq by discriminate. apply dict_get_set_eq.
  - intros c base Hbase. rewrite Hget. cbn [odict_get].
    destruct Hbase as [m0 rest c0 Hun Hf Hc0 | pre m post -> Hm Hpost Hpre].
    + apply (fold_new_category c c0 ms m0 rest Hun Hf Hc0).
    + rewrite (fold_named_menu c pre post m None Hm Hpost).
      rewrite actions_for_app, actions_for_cons.
      rewrite (named_not_in_category c m Hm).
      unfold actions_for at 2. rewrite Hpre. reflexivity.
Qed.

Lemma menu_categories_spec_witness :
  exists cats out,
    post_menubar (VDict edit_menubar) = Ok (VDict out)
    /\ dict_get "menus" out = Some (VList (map snd cats))
    /\ map fst cats = [VStr "File"; VStr "Edit"]
    /\ odict_get (VStr "File") cats
       = Some (VDict [ ("type", VStr "MENU"); ("name", VStr "File");
                       ("actions",
                        VList [VDict [("type", VStr "ACTION");
                                      ("name", VStr "Quit")]]) ])
    /\ odict_get (VStr "Edit") cats
       = Some (VDict [ ("name", VStr "Edit"); ("command", VStr "");
                       ("saved_params", VStr "is_checked");
                       ("actions",
                        VList [VDict [("type", VStr "ACTION");
                                      ("name", VStr "Copy")];
                               VDict [("type", VStr "SEPARATOR")]]) ]).
Proof.
  assert (Hok : Forall entry_ok edit_menu).
  { repeat constructor; try (eexists; split; [reflexivity | reflexivity]);
      intros g Hg; discriminate Hg. }
  destruct (menu_categories_spec edit_menubar edit_menu eq_refl Hok)
    as (cats & out & Hpost & Hmenus & Hkeys & Hrec).
  exists cats, out. split; [exact Hpost |]. split; [exact Hmenus |].
  split; [exact Hkeys |]. split.
  - apply (Hrec (VStr "File")
             [("type", VStr "MENU"); ("name", VStr "File"); ("actions", VList [])]).
    apply (base_menu (VStr "File") edit_menu [] (hd [] edit_menu) (tl edit_menu));
      reflexivity.
  - apply (Hrec (VStr "Edit")
             [ ("name", VStr "Edit"); ("command", VStr "");
               ("saved_params", VStr "is_checked"); ("actions", VList []) ]).
    apply (base_new (VStr "Edit") edit_menu
             (nth 2 edit_menu []) [nth 3 edit_menu []] (VStr "Edit"));
      reflexivity.
Defined.

End MenuBars.

(** * Further properties *)

(** ** What the two splitters return *)

Section Splitters.

Local Open Scope string_scope.

Variable p : ascii -> bool.

Lemma lstrip_first (s : string) (c : ascii) :
  first_char (PyStr.lstrip_by p s) = Some c -> p c = false.
Proof.
  induction s as [| a s IH]; [discriminate |].
  cbn [PyStr.lstrip_by]. destruct (p a) eqn:Ea; [exact IH |].
  cbn. now intros [= <-].
Qed.

Lemma rstrip_last (s : string) (c : ascii) :
  last_char (PyStr.rstrip_by p s) = Some c -> p c = false.
Proof.
  induction s as [| a s IH]; [discriminate |].
  cbn [PyStr.rstrip_by]. destruct (PyStr.rstrip_by p s) as [| b r] eqn:Er.
  - destruct (p a) eqn:Ea; [discriminate |]. cbn. now intros [= <-].
  - exact IH.
Qed.

Lemma lstrip_last (s : string) :
  PyStr.lstrip_by p s <> "" ->
  last_char (PyStr.lstrip_by p s) = last_char s.
Proof.
  induction s as [| a s IH]; [reflexivity |].
  cbn [PyStr.lstrip_by]. destruct (p a); [| reflexivity].
  intros H. rewrite (IH H). destruct s; [contradiction | reflexivity].
Qed.

(** [strip] leaves no character of its set at either end. *)
Lemma strip_by_ends (s : string) (c : ascii) :
  first_char (PyStr.strip_by p s) = Some c
  \/ last_char (PyStr.strip_by p s) = Some c ->
  p c = false.
Proof.
  unfold PyStr.strip_by. intros [H | H].
  - now apply lstrip_first in H.
  - destruct (PyStr.lstrip_by p (PyStr.rstrip_by p s)) eqn:E; [discriminate |].
    rewrite <- E, lstrip_last in H by (rewrite E; discriminate).
    now apply rstrip_last in H.
Qed.

(** A string without a character of the set is left as it is. *)
Lemma strip_by_id (s : string) :
  PyStr.forallb_str (fun c => negb (p c)) s = true -> PyStr.strip_by p s = s.
Proof.
  intros H. unfold PyStr.strip_by.
  assert (Hr : PyStr.rstrip_by p s = s).
  { induction s as [| a s IH]; [reflexivity |].
    cbn [PyStr.forallb_str] in H. apply andb_true_iff in H as [Ha Hs].
    apply negb_true_iff in Ha. cbn [PyStr.rstrip_by]. rewrite (IH Hs), Ha.
    destruct s; reflexivity. }
  rewrite Hr. destruct s as [| a s]; [reflexivity |].
  cbn [PyStr.forallb_str] in H. apply andb_true_iff in H as [Ha _].
  apply negb_true_iff in Ha. cbn [PyStr.lstrip_by]. now rewrite Ha.
Qed.

End Splitters.

Section SplitterResults.

Local Open Scope string_scope.

Lemma strip_quote_unquoted (s : string) : unquoted (PyStr.strip quote s).
Proof.
  unfold unquoted, PyStr.strip.
  split; intros H;
    [ pose proof (strip_by_ends _ s dquote (or_introl H)) as H'
    | pose proof (strip_by_ends _ s dquote (or_intror H)) as H' ];
    discriminate H'.
Qed.

Lemma cons_head_tokens (c : ascii) (l : list string) :
  PyStr.is_space c = false -> Forall token l -> Forall token (PyStr.cons_head c l).
Proof.
  intros Hc Hl. assert (Hn : negb (PyStr.is_space c) = true) by now rewrite Hc.
  destruct Hl as [| h t [Hne Hh] Ht]; cbn [PyStr.cons_head].
  - constructor; [| constructor]. split; [discriminate |].
    cbn [PyStr.forallb_str]. now rewrite Hn.
  - constructor; [| exact Ht]. split; [discriminate |].
    cbn [PyStr.forallb_str]. now rewrite Hn, Hh.
Qed.

(** Every part of [s.split()] is a token. *)
Lemma split_ws_tokens (s : string) : Forall token (PyStr.split_ws s).
Proof.
  induction s as [| c s IH]; [constructor |].
  cbn [PyStr.split_ws]. destruct (PyStr.is_space c) eqn:Ec; [exact IH |].
  assert (Hone : token (String c "")).
  { split; [discriminate |]. cbn [PyStr.forallb_str]. now rewrite Ec. }
  destruct s as [| c' s'].
  - constructor; [exact Hone | constructor].
  - destruct (PyStr.is_space c').
    + constructor; [exact Hone | exact IH].
    + now apply cons_head_tokens.
Qed.

(** X1: when [_parse_key_eq_sign_value] returns, its argument is the key,
    the separator and a raw value, neither of which holds the
    separator, and the value returned is the raw value without the
    double quotes at its ends. *)
Theorem parse_key_eq_sign_value_inv (s k v : string) :
  _parse_key_eq_sign_value s = Ok (k, v) ->
  exists raw,
    s = (k ++ " = " ++ raw)%string
    /\ PyStr.occurs " = " k = false
    /\ PyStr.occurs " = " raw = false
    /\ v = PyStr.strip quote raw
    /\ unquoted v.
Proof.
  unfold _parse_key_eq_sign_value. intros H.
  invert_bind H as kv Hkv. destruct kv as [k' raw]. cbn beta iota in H.
  injection H as -> <-.
  assert (Hsep : " = " <> "") by discriminate.
  assert (E : PyStr.split " = " s = [k; raw]).
  { unfold unpack2 in Hkv.
    destruct (PyStr.split " = " s) as [| a [| b [| c t]]]; try discriminate.
    now injection Hkv as -> ->. }
  exists raw. repeat split.
  - rewrite <- (split_concat " = " s Hsep), E. reflexivity.
  - apply (split_parts_free " = " s k Hsep). rewrite E. now left.
  - apply (split_parts_free " = " s raw Hsep). rewrite E. right. now left.
  - apply strip_quote_unquoted.
  - apply strip_quote_unquoted.
Qed.

Lemma parse_key_eq_sign_value_inv_witness :
  exists raw,
    ("pos = " ++ quote ++ "3,4" ++ quote)%string = ("pos" ++ " = " ++ raw)%string
    /\ PyStr.occurs " = " "pos" = false
    /\ PyStr.occurs " = " raw = false
    /\ "3,4" = PyStr.strip quote raw
    /\ unquoted "3,4".
Proof.
  apply (parse_key_eq_sign_value_inv ("pos = " ++ quote ++ "3,4" ++ quote) "pos" "3,4").
  reflexivity.
Defined.

(** X2: when [_parse_key_value] returns a key without value, the key is
    the whole string, which has no space; when it returns a key and a
    value, the string splits into exactly two tokens, the key is the
    first, and the value is the second without the double quotes at its
    ends. *)
Theorem parse_key_value_inv (s k : string) (o : option string) :
  _parse_key_value s = Ok (k, o) ->
  match o with
  | None => k = s /\ PyStr.occurs " " s = false
  | Some v =>
      exists w,
        PyStr.split_ws s = [k; w] /\ token k /\ token w
        /\ v = PyStr.strip quote w /\ unquoted v
  end.
Proof.
  unfold _parse_key_value.
  destruct (PyStr.occurs " " s) eqn:Eo.
  - intros H. invert_bind H as kv Hkv. destruct kv as [k' w]. cbn beta iota in H.
    injection H as -> <-.
    pose proof (split_ws_tokens s) as Ht. unfold unpack2 in Hkv.
    destruct (PyStr.split_ws s) as [| a [| b [| c t]]]; try discriminate.
    injection Hkv as -> ->.
    exists w. repeat split; try apply strip_quote_unquoted.
    + apply (Forall_inv Ht).
    + apply (Forall_inv Ht).
    + apply (Forall_inv (Forall_inv_tail Ht)).
    + apply (Forall_inv (Forall_inv_tail Ht)).
  - intros [= <- <-]. auto.
Qed.

Lemma parse_key_value_inv_witness :
  exists w,
    PyStr.split_ws ("window " ++ quote ++ "main" ++ quote) = ["window"; w]
    /\ token "window" /\ token w
    /\ "main" = PyStr.strip quote w /\ unquoted "main".
Proof.
  apply (parse_key_value_inv ("window " ++ quote ++ "main" ++ quote)
           "window" (Some "main")).
  reflexivity.
Defined.

End SplitterResults.

(** ** Tuples of integers *)

Section ToInts.

Local Open Scope string_scope.

Lemma map_result_length {A B : Type} (f : A -> result B) (l : list A) (l' : list B) :
  map_result f l = Ok l' -> List.length l' = List.length l.
Proof.
  revert l'. induction l as [| x l IH]; intros l' H.
  - cbn in H. now injection H as <-.
  - cbn [map_result] in H. invert_bind H as y Hy. invert_bind H as ys Hys.
    injection H as <-. cbn. now rewrite (IH ys Hys).
Qed.

Lemma split1_length (d : ascii) (s : string) :
  List.length (PyStr.split (String d "") s) = S (count_char d s).
Proof.
  induction s as [| a s IH]; [reflexivity |].
  rewrite split1_cons. cbn [count_char]. rewrite (Ascii.eqb_sym d a).
  destruct (Ascii.eqb a d); cbn [List.length].
  - now rewrite IH.
  - pose proof (split1_nonempty d s) as Hne.
    destruct (PyStr.split (String d "") s); [congruence |]. exact IH.
Qed.

(** X3: the tuple that [to_ints] returns has one component more than
    the string has delimiters; it is never empty. *)
Theorem to_ints_arity (s : string) (d : ascii) (l : list Z) :
  to_ints s (String d "") = Ok l ->
  List.length l = S (count_char d s).
Proof.
  unfold to_ints. intros H.
  now rewrite (map_result_length _ _ _ H), split1_length.
Qed.

Lemma to_ints_arity_witness :
  List.length [20%Z; 50%Z] = S (count_char "x" "20x50").
Proof. apply (to_ints_arity "20x50" "x" [20%Z; 50%Z]). reflexivity. Defined.

(** *** Decimal numerals *)

Lemma string_of_uint_digits (u : Decimal.uint) :
  PyStr.forallb_str PyStr.is_ascii_digit (DecimalString.NilEmpty.string_of_uint u)
  = true.
Proof. induction u; cbn; auto. Qed.

Lemma to_uint_nonnil (n : nat) : Nat.to_uint n <> Decimal.Nil.
Proof.
  rewrite <- (DecimalNat.Unsigned.of_to n) at 1.
  rewrite DecimalNat.Unsigned.to_of. apply DecimalFacts.unorm_nonnil.
Qed.

Lemma decimal_digits (n : nat) :
  decimal n <> "" /\ PyStr.forallb_str PyStr.is_ascii_digit (decimal n) = true.
Proof.
  unfold decimal. split; [| apply string_of_uint_digits].
  pose proof (to_uint_nonnil n) as H.
  destruct (Nat.to_uint n); [congruence | discriminate ..].
Qed.

Lemma int_digits_uint (u : Decimal.uint) :
  forall acc,
    int_digits (Z.of_nat acc) true (DecimalString.NilEmpty.string_of_uint u)
    = Some (Z.of_nat (Nat.of_uint_acc u acc)).
Proof.
  induction u as [| u IH | u IH | u IH | u IH | u IH | u IH | u IH | u IH | u IH | u IH];
    intros acc; [reflexivity | ..];
    cbn [DecimalString.NilEmpty.string_of_uint int_digits Nat.of_uint_acc];
    change (PyStr.is_ascii_digit _) with true; cbv iota;
    rewrite <- IH; f_equal;
    rewrite PeanoNat.Nat.tail_mul_spec;
    match goal with
    | |- context [digit_val ?c] =>
        let v := eval vm_compute in (digit_val c) in
        change (digit_val c) with v
    end;
    lia.
Qed.

Lemma int_digits_decimal (n : nat) :
  int_digits 0 false (decimal n) = Some (Z.of_nat n).
Proof.
  unfold decimal. pose proof (to_uint_nonnil n) as Hn.
  rewrite <- (DecimalNat.Unsigned.of_to n) at 2. unfold Nat.of_uint.
  rewrite <- (int_digits_uint (Nat.to_uint n) 0).
  destruct (Nat.to_uint n); [congruence | reflexivity ..].
Qed.

Lemma digits_not_space (s : string) :
  PyStr.forallb_str PyStr.is_ascii_digit s = true ->
  PyStr.forallb_str (fun c => negb (is_int_space c)) s = true.
Proof.
  induction s as [| c s IH]; [reflexivity |]. cbn [PyStr.forallb_str].
  intros [Hc Hs]%andb_true_iff. rewrite (digit_not_int_space c Hc). now rewrite IH.
Qed.

Lemma digit_not_sign (c : ascii) :
  PyStr.is_ascii_digit c = true ->
  Ascii.eqb c hyphen = false /\ Ascii.eqb c plus_sign = false.
Proof.
  destruct c as [[] [] [] [] [] [] [] []]; vm_compute; intros H;
    try discriminate H; split; reflexivity.
Qed.

Lemma count_digits_length (s : string) :
  PyStr.forallb_str PyStr.is_ascii_digit s = true ->
  count_digits s = String.length s.
Proof.
  induction s as [| c s IH]; [reflexivity |]. cbn [PyStr.forallb_str].
  intros [Hc Hs]%andb_true_iff. cbn [count_digits String.length].
  now rewrite Hc, IH.
Qed.

(** [int] on a string of decimal digits: the limit is on its length. *)
Lemma py_int_digits (s : string) :
  s <> "" -> PyStr.forallb_str PyStr.is_ascii_digit s = true ->
  py_int s
  = match int_digits 0 false s with
    | Some n =>
        if (Z.of_nat (String.length s) <=? int_max_str_digits)%Z
        then Ok n else Err ValueError
    | None => Err ValueError
    end.
Proof.
  intros Hne Hd. unfold py_int.
  rewrite strip_by_id by now apply digits_not_space.
  rewrite (count_digits_length s Hd).
  destruct s as [| c t]; [congruence |].
  cbn [PyStr.forallb_str] in Hd. apply andb_true_iff in Hd as [Hc _].
  now destruct (digit_not_sign c Hc) as [-> ->].
Qed.

Lemma py_int_decimal (n : nat) :
  (Z.of_nat (String.length (decimal n)) <= int_max_str_digits)%Z ->
  py_int (decimal n) = Ok (Z.of_nat n).
Proof.
  intros Hlen. destruct (decimal_digits n) as [Hne Hd].
  rewrite (py_int_digits _ Hne Hd), int_digits_decimal.
  apply Z.leb_le in Hlen. now rewrite Hlen.
Qed.

Lemma py_int_show (z : Z) : convertible z -> py_int (show_int z) = Ok z.
Proof.
  unfold convertible, digits.
  destruct z as [| q | q]; cbn [show_int Z.abs_nat]; intros Hlen.
  - now apply py_int_decimal.
  - rewrite py_int_decimal by exact Hlen. f_equal. lia.
  - destruct (decimal_digits (Pos.to_nat q)) as [Hne Hd]. unfold py_int.
    rewrite strip_by_id.
    + change (Ascii.eqb hyphen hyphen) with true. cbv iota.
      rewrite int_digits_decimal. cbn [option_map].
      change (count_digits (String hyphen (decimal (Pos.to_nat q))))
        with (count_digits (decimal (Pos.to_nat q))).
      rewrite (count_digits_length _ Hd).
      apply Z.leb_le in Hlen. rewrite Hlen. f_equal. lia.
    + cbn [PyStr.forallb_str]. now rewrite digits_not_space.
Qed.

Lemma show_int_avoids (d : ascii) (z : Z) :
  PyStr.is_ascii_digit d = false -> d <> hyphen ->
  PyStr.mem_char d (show_int z) = false.
Proof.
  intros Hd Hh.
  assert (H : forall n, PyStr.mem_char d (decimal n) = false)
    by (intros n; apply digits_avoid; [exact Hd | apply decimal_digits]).
  destruct z; cbn [show_int PyStr.mem_char]; rewrite ?H; [reflexivity .. |].
  apply Ascii.eqb_neq in Hh. now rewrite Hh.
Qed.

Lemma split_join (d : ascii) (l : list string) :
  l <> [] -> Forall (fun x => PyStr.mem_char d x = false) l ->
  PyStr.split (String d "") (join d l) = l.
Proof.
  intros Hne Hl. induction Hl as [| x l Hx Hl IH]; [congruence |].
  destruct l as [| y t].
  - cbn [join]. now apply split1_no_sep.
  - change (join d (x :: y :: t)) with (x ++ String d (join d (y :: t)))%string.
    rewrite split1_app_sep, (split1_no_sep d x Hx), IH by discriminate.
    reflexivity.
Qed.

(** X4: [to_ints] reads back a tuple of integers written in decimal and
    joined by a delimiter that is neither a digit nor the minus sign,
    when none of them has more digits than [int] converts. *)
Theorem to_ints_show (d : ascii) (l : list Z) :
  l <> [] -> PyStr.is_ascii_digit d = false -> d <> hyphen ->
  Forall convertible l ->
  to_ints (join d (map show_int l)) (String d "") = Ok l.
Proof.
  intros Hne Hd Hh Hl. unfold to_ints.
  rewrite split_join.
  - clear Hne. induction Hl as [| z l Hz Hl IH]; [reflexivity |].
    cbn [map map_result]. rewrite (py_int_show z Hz). cbn [bind]. now rewrite IH.
  - destruct l; [congruence | discriminate].
  - apply Forall_forall. intros x (z & <- & _)%in_map_iff.
    now apply show_int_avoids.
Qed.

Lemma to_ints_show_witness :
  to_ints (join "," (map show_int [3%Z; (-4)%Z; 50%Z])) "," = Ok [3%Z; (-4)%Z; 50%Z].
Proof.
  apply (to_ints_show "," [3%Z; (-4)%Z; 50%Z]).
  - discriminate.
  - reflexivity.
  - discriminate.
  - repeat constructor; vm_compute; discriminate.
Defined.

End ToInts.

(** ** Attributes made of digits *)

Section DigitAttributes.

Local Open Scope string_scope.

Lemma forallb_str_impl (P Q : ascii -> bool) (s : string) :
  (forall c, P c = true -> Q c = true) ->
  PyStr.forallb_str P s = true -> PyStr.forallb_str Q s = true.
Proof.
  intros HPQ. induction s as [| c s IH]; [reflexivity |].
  cbn [PyStr.forallb_str]. intros [Hc Hs]%andb_true_iff.
  now rewrite (HPQ c Hc), IH.
Qed.

(** What no digit of [isdigit] is. *)
Lemma digit_char_plain (c : ascii) :
  PyStr.is_digit_char c = true ->
  Ascii.eqb c hyphen = false /\ Ascii.eqb c plus_sign = false
  /\ Ascii.eqb c underscore = false
  /\ PyStr.mem_char c newline_quote = false /\ is_int_space c = false.
Proof.
  destruct c as [[] [] [] [] [] [] [] []]; vm_compute; intros H;
    try discriminate H; repeat split; reflexivity.
Qed.

Lemma ascii_digit_is_digit (c : ascii) :
  PyStr.is_ascii_digit c = true -> PyStr.is_digit_char c = true.
Proof. unfold PyStr.is_digit_char. now intros ->. Qed.

Lemma digits_untouched (raw : string) :
  PyStr.forallb_str PyStr.is_digit_char raw = true ->
  PyStr.strip newline_quote (PyStr.replace hyphen underscore raw) = raw.
Proof.
  intros H. rewrite replace_absent.
  - apply strip_by_id. revert H. apply forallb_str_impl.
    intros c Hc. now destruct (digit_char_plain c Hc) as (_ & _ & _ & -> & _).
  - clear - H. induction raw as [| c raw IH]; [reflexivity |].
    cbn [PyStr.forallb_str] in H. apply andb_true_iff in H as [Hc Hs].
    cbn [PyStr.mem_char]. rewrite (IH Hs), orb_false_r, Ascii.eqb_sym.
    now destruct (digit_char_plain c Hc) as (-> & _).
Qed.

Lemma digits_not_keyword (raw : string) :
  PyStr.forallb_str PyStr.is_digit_char raw = true ->
  dict_get raw DEFAULT_VALUES_MAP = None.
Proof.
  intros H. unfold DEFAULT_VALUES_MAP. cbn [dict_get].
  destruct (String.eqb_spec raw "none") as [-> | _]; [discriminate |].
  destruct (String.eqb_spec raw "false") as [-> | _]; [discriminate |].
  destruct (String.eqb_spec raw "true") as [-> | _]; [discriminate |].
  reflexivity.
Qed.

Lemma isdigit_forallb (raw : string) :
  PyStr.isdigit raw = true ->
  raw <> "" /\ PyStr.forallb_str PyStr.is_digit_char raw = true.
Proof. destruct raw; [discriminate |]. intros H. split; [discriminate | exact H]. Qed.

(** A digit that is not a decimal one stops [int]. *)
Lemma int_digits_superscript (s : string) :
  PyStr.forallb_str PyStr.is_digit_char s = true ->
  PyStr.forallb_str PyStr.is_ascii_digit s = false ->
  forall acc prev, int_digits acc prev s = None.
Proof.
  induction s as [| c s IH]; [discriminate |].
  cbn [PyStr.forallb_str]. intros [Hc Hs]%andb_true_iff Ha acc prev.
  cbn [int_digits]. destruct (PyStr.is_ascii_digit c).
  - cbn [andb] in Ha. now apply IH.
  - now destruct (digit_char_plain c Hc) as (_ & _ & -> & _).
Qed.

Lemma py_int_superscript (raw : string) :
  PyStr.isdigit raw = true ->
  PyStr.forallb_str PyStr.is_ascii_digit raw = false ->
  py_int raw = Err ValueError.
Proof.
  intros [Hne Hd]%isdigit_forallb Ha. unfold py_int.
  rewrite strip_by_id.
  - destruct raw as [| c t]; [congruence |].
    pose proof Hd as Hd'. cbn [PyStr.forallb_str] in Hd'.
    apply andb_true_iff in Hd' as [Hc _].
    destruct (digit_char_plain c Hc) as (-> & -> & _).
    now rewrite (int_digits_superscript _ Hd Ha).
  - revert Hd. apply forallb_str_impl.
    intros c Hc. now destruct (digit_char_plain c Hc) as (_ & _ & _ & _ & ->).
Qed.

(** X5: an attribute whose field is not in the delimiter map and whose
    value is a natural number written in decimal, with no more digits
    than [int] converts, is stored as that integer. *)
Theorem decimal_attribute_is_int
    (st : DMFParser) (line name : string) (n : nat) (e : dict) :
  _parse_key_eq_sign_value (PyStr.lstrip line) = Ok (name, decimal n) ->
  lookup_str (PyStr.replace hyphen underscore name) DELIMITER_MAP = None ->
  convertible (Z.of_nat n) ->
  current_element st = Some e ->
  exists st',
    _parse_attribute st line = Ok st'
    /\ current_element st'
       = Some (dict_set (PyStr.replace hyphen underscore name)
                 (VInt (Z.of_nat n)) e).
Proof.
  intros Hkv Hd Hlen He. destruct (decimal_digits n) as [Hne Hdig].
  unfold convertible, digits in Hlen. rewrite Zabs2Nat.id in Hlen.
  assert (Hdc : PyStr.forallb_str PyStr.is_digit_char (decimal n) = true)
    by (revert Hdig; apply forallb_str_impl, ascii_digit_is_digit).
  unfold _parse_attribute. rewrite Hkv. cbn [bind].
  rewrite (digits_untouched _ Hdc). unfold coerce.
  rewrite (digits_not_keyword _ Hdc), Hd.
  assert (Hi : PyStr.isdigit (decimal n) = true)
    by (destruct (decimal n); [congruence | exact Hdc]).
  rewrite Hi, (py_int_decimal n Hlen). cbn [bind is_MAIN].
  set (name' := PyStr.replace hyphen underscore name).
  destruct (String.eqb_spec name' "type") as [-> | _].
  - destruct (update_element_current st (dict_set "type" (VInt (Z.of_nat n))) e He)
      as (st' & Hu & Hc & _). eauto.
  - destruct (update_element_current st (dict_set name' (VInt (Z.of_nat n))) e He)
      as (st' & Hu & Hc & _). eauto.
Qed.

Lemma decimal_attribute_is_int_witness :
  exists st',
    _parse_attribute one_element (tab1 ++ tab1 ++ "font-size = 12") = Ok st'
    /\ current_element st'
       = Some [("type", VStr "MAIN"); ("font_size", VInt 12)].
Proof.
  apply (decimal_attribute_is_int one_element
           (tab1 ++ tab1 ++ "font-size = 12") "font-size" 12
           [("type", VStr "MAIN")]); try reflexivity.
  vm_compute. discriminate.
Defined.

Lemma superscript_not_decimal (c : ascii) :
  is_superscript c = true -> PyStr.is_ascii_digit c = false.
Proof.
  destruct c as [[] [] [] [] [] [] [] []]; vm_compute; intros H;
    try discriminate H; reflexivity.
Qed.

Lemma superscript_present (s : string) :
  existsb_str is_superscript s = true ->
  s <> "" /\ PyStr.forallb_str PyStr.is_ascii_digit s = false.
Proof.
  induction s as [| c s IH]; [discriminate |]. cbn [existsb_str].
  intros H. split; [discriminate |]. cbn [PyStr.forallb_str].
  apply orb_true_iff in H as [H | H].
  - now rewrite (superscript_not_decimal c H).
  - destruct (IH H) as [_ ->]. apply andb_false_r.
Qed.

(** X6: the test [isdigit] accepts the superscript digits two, three
    and one, which [int] rejects: an attribute outside the delimiter
    map whose value is made of decimal digits and of these superscripts,
    with one superscript at least, passes [isdigit] and raises
    [ValueError]. *)
Theorem superscript_digit_raises
    (st : DMFParser) (line name raw : string) :
  _parse_key_eq_sign_value (PyStr.lstrip line) = Ok (name, raw) ->
  lookup_str (PyStr.replace hyphen underscore name) DELIMITER_MAP = None ->
  PyStr.forallb_str (fun c => PyStr.is_ascii_digit c || is_superscript c) raw
  = true ->
  existsb_str is_superscript raw = true ->
  PyStr.isdigit raw = true /\ _parse_attribute st line = Err ValueError.
Proof.
  intros Hkv Hd Hall Hsup.
  destruct (superscript_present raw Hsup) as [Hne Ha].
  assert (Hdc : PyStr.forallb_str PyStr.is_digit_char raw = true).
  { revert Hall. apply forallb_str_impl. intros c Hc. exact Hc. }
  assert (Hi : PyStr.isdigit raw = true)
    by (destruct raw; [congruence | exact Hdc]).
  split; [exact Hi |].
  unfold _parse_attribute. rewrite Hkv. cbn [bind].
  rewrite (digits_untouched _ Hdc). unfold coerce.
  rewrite (digits_not_keyword _ Hdc), Hd, Hi, (py_int_superscript raw Hi Ha).
  reflexivity.
Qed.

Lemma superscript_digit_raises_witness :
  PyStr.isdigit ("1" ++ String (ascii_of_nat 178) "") = true
  /\ _parse_attribute one_element
       (tab1 ++ tab1 ++ "level = 1" ++ String (ascii_of_nat 178) "")
     = Err ValueError.
Proof.
  apply (superscript_digit_raises one_element
           (tab1 ++ tab1 ++ "level = 1" ++ String (ascii_of_nat 178) "")
           "level" ("1" ++ String (ascii_of_nat 178) "")); reflexivity.
Defined.

Lemma py_int_long (raw : string) :
  PyStr.forallb_str PyStr.is_ascii_digit raw = true ->
  (int_max_str_digits < Z.of_nat (String.length raw))%Z ->
  py_int raw = Err ValueError.
Proof.
  intros Hd Hlen.
  assert (Hne : raw <> "") by (intros ->; discriminate Hlen).
  rewrite (py_int_digits raw Hne Hd).
  destruct (int_digits 0 false raw); [| reflexivity].
  apply Z.leb_gt in Hlen. now rewrite Hlen.
Qed.

(** X23: a value made of more decimal digits than [int] converts raises
    [ValueError], under a field of the delimiter map as under any other
    field: nothing is stored. *)
Theorem long_numeral_raises (st : DMFParser) (line name raw : string) :
  _parse_key_eq_sign_value (PyStr.lstrip line) = Ok (name, raw) ->
  PyStr.forallb_str PyStr.is_ascii_digit raw = true ->
  (int_max_str_digits < Z.of_nat (String.length raw))%Z ->
  _parse_attribute st line = Err ValueError.
Proof.
  intros Hkv Hd Hlen.
  assert (Hne : raw <> "") by (intros ->; discriminate Hlen).
  assert (Hdc : PyStr.forallb_str PyStr.is_digit_char raw = true)
    by (revert Hd; apply forallb_str_impl, ascii_digit_is_digit).
  unfold _parse_attribute. rewrite Hkv. cbn [bind].
  rewrite (digits_untouched _ Hdc). unfold coerce.
  rewrite (digits_not_keyword _ Hdc).
  destruct (lookup_str _ DELIMITER_MAP) as [d |] eqn:El.
  - unfold to_ints.
    assert (Hs : PyStr.split d raw = [raw]).
    { destruct (delimiter_cases _ _ El) as [-> | ->];
        apply split1_no_sep; now apply digits_avoid. }
    rewrite Hs. cbn [map_result]. now rewrite (py_int_long raw Hd Hlen).
  - assert (Hi : PyStr.isdigit raw = true)
      by (destruct raw; [congruence | exact Hdc]).
    now rewrite Hi, (py_int_long raw Hd Hlen).
Qed.

Lemma long_numeral_raises_witness :
  _parse_attribute one_element
    (tab1 ++ tab1 ++ "level = " ++ repeat_char "1" 4301)
  = Err ValueError.
Proof.
  apply (long_numeral_raises one_element
           (tab1 ++ tab1 ++ "level = " ++ repeat_char "1" 4301)
           "level" (repeat_char "1" 4301)).
  - vm_compute. reflexivity.
  - vm_compute. reflexivity.
  - vm_compute. reflexivity.
Defined.

End DigitAttributes.

(** ** Invariants of the tree builder *)

Section TreeInvariants.

Local Open Scope string_scope.

Lemma load_app_old (h : list dict) (x : dict) (a : nat) :
  a < List.length h -> load (h ++ [x]) a = load h a.
Proof. intros H. unfold load. now apply app_nth1. Qed.

Lemma load_app_new (h : list dict) (x : dict) :
  load (h ++ [x]) (List.length h) = x.
Proof. unfold load. apply nth_middle. Qed.

Lemma load_overflow (h : list dict) (a : nat) :
  List.length h <= a -> load h a = [].
Proof. intros H. unfold load. now apply nth_overflow. Qed.

Lemma load_store_eq (h : list dict) (a : nat) (x : dict) :
  a < List.length h -> load (store h a x) a = x.
Proof.
  intros H. apply load_nth_error. now apply nth_error_store_eq.
Qed.

Lemma store_overflow {A : Type} (l : list A) (i : nat) (x : A) :
  List.length l <= i -> store l i x = l.
Proof.
  revert i. induction l as [| y l IH]; intros [| i] H; cbn in *;
    try reflexivity; try lia.
  f_equal. apply IH. lia.
Qed.

Lemma sorted_snoc (l : list nat) (n : nat) :
  StronglySorted lt l -> Forall (fun a => a < n) l -> StronglySorted lt (l ++ [n]).
Proof.
  induction 1 as [| a l Hl IH Ha]; intros Hn; cbn [app].
  - constructor; constructor.
  - inversion Hn as [| ? ? Han Hn']; subst.
    constructor; [now apply IH |].
    apply Forall_app. split; [exact Ha | constructor; [exact Han | constructor]].
Qed.

Lemma bucket_lt (kind : string) (bucket : list nat) (h : list dict) :
  bucket_ok kind bucket h -> Forall (fun a => a < List.length h) bucket.
Proof.
  intros [Hiff _]. apply Forall_forall. intros a Ha. now apply Hiff in Ha.
Qed.

(** A new category joins the bucket of its kind, and only that one. *)
Lemma bucket_append (kind t : string) (bucket : list nat) (h : list dict) (cat : dict) :
  bucket_ok kind bucket h ->
  dict_get "type" cat = Some (VStr t) ->
  bucket_ok kind
    (if t =? kind then (bucket ++ [List.length h])%list else bucket)
    (h ++ [cat]).
Proof.
  intros Hb Ht. pose proof (bucket_lt _ _ _ Hb) as Hlt.
  destruct Hb as [Hiff Hs]. rewrite Forall_forall in Hlt.
  assert (Hold : forall a, In a bucket
                  <-> a < List.length h
                      /\ dict_get "type" (load (h ++ [cat]) a) = Some (VStr kind)).
  { intros a. rewrite Hiff. split; intros [Ha Hk]; split; try exact Ha.
    - now rewrite load_app_old.
    - now rewrite load_app_old in Hk. }
  destruct (String.eqb_spec t kind) as [-> | Hne]; split;
    rewrite ?length_app; cbn [List.length].
  - intros a. rewrite in_app_iff, Hold. cbn [In]. split.
    + intros [[Ha Hk] | [<- | []]]; [split; [lia | exact Hk] |].
      split; [lia |]. now rewrite load_app_new.
    + intros [Ha Hk].
      destruct (Nat.eq_dec a (List.length h)) as [-> | Hn]; [now right; left |].
      left. split; [lia | exact Hk].
  - apply sorted_snoc; [exact Hs |]. apply Forall_forall. exact Hlt.
  - intros a. rewrite Hold. split.
    + intros [Ha Hk]. split; [lia | exact Hk].
    + intros [Ha Hk]. split; [| exact Hk].
      destruct (Nat.eq_dec a (List.length h)) as [-> | Hn]; [| lia].
      rewrite load_app_new, Ht in Hk. congruence.
  - exact Hs.
Qed.

(** An update that keeps the kind of a category keeps the buckets. *)
Lemma bucket_store (kind : string) (bucket : list nat) (h : list dict) (a : nat) (x : dict) :
  bucket_ok kind bucket h ->
  dict_get "type" x = dict_get "type" (load h a) ->
  bucket_ok kind bucket (store h a x).
Proof.
  intros [Hiff Hs] Hx. split; [| exact Hs].
  intros b. rewrite Hiff, store_length.
  assert (E : dict_get "type" (load (store h a x) b) = dict_get "type" (load h b)).
  { destruct (Nat.eq_dec a b) as [<- | Hne]; [| now rewrite load_store_neq].
    destruct (Nat.lt_ge_cases a (List.length h)) as [Ha | Ha].
    - now rewrite load_store_eq.
    - now rewrite store_overflow. }
  now rewrite E.
Qed.

Lemma Forall_dict_set (P : string * value -> Prop) (k : string) (v : value) (d : dict) :
  Forall P d -> P (k, v) -> Forall P (dict_set k v d).
Proof.
  intros Hd Hkv. induction Hd as [| [k' v'] d Hk' Hd IH]; cbn [dict_set].
  - constructor; [exact Hkv | constructor].
  - destruct (String.eqb_spec k k') as [<- | _]; constructor; auto.
Qed.

Lemma Forall_dict_del (P : string * value -> Prop) (k : string) (d : dict) :
  Forall P d -> Forall P (dict_del k d).
Proof.
  unfold dict_del. rewrite !Forall_forall. intros H x Hx.
  apply filter_In in Hx as [Hx _]. now apply H.
Qed.

Lemma header_record_fields (t : string) (id : option string) :
  Forall field_ok (header_record t id []).
Proof.
  unfold header_record. rewrite app_nil_r.
  destruct id as [i |]; [destruct (truthy (VStr i)) |];
    repeat constructor.
Qed.

Lemma header_record_type (t : string) (id : option string) (rest : dict) :
  dict_get "type" (header_record t id rest) = Some (VStr t).
Proof.
  unfold header_record.
  destruct id as [i |]; [destruct (truthy (VStr i)) |]; reflexivity.
Qed.

Lemma header_record_wf (t : string) (id : option string) :
  category_wf (header_record t id [("controls", VList [])]).
Proof.
  exists t, []. split; [apply header_record_type |]. split; [| constructor].
  unfold header_record.
  destruct id as [i |]; [destruct (truthy (VStr i)) |]; reflexivity.
Qed.

Lemma replace_removes (a b : ascii) (s : string) :
  a <> b -> PyStr.mem_char a (PyStr.replace a b s) = false.
Proof.
  intros Hab. induction s as [| c s IH]; [reflexivity |].
  cbn [PyStr.replace PyStr.mem_char]. rewrite IH, orb_false_r.
  destruct (Ascii.eqb_spec c a) as [-> | Hne].
  - now apply Ascii.eqb_neq.
  - apply Ascii.eqb_neq. congruence.
Qed.

(** The value that [coerce] gives to a field suits the field. *)
Lemma coerce_field_ok (name raw : string) (v : value) :
  PyStr.mem_char hyphen name = false ->
  coerce name raw = Ok v -> field_ok (name, v).
Proof.
  intros Hn H. split; [exact Hn |]. cbn [fst snd]. unfold coerce in H.
  destruct (dict_get raw DEFAULT_VALUES_MAP) as [w |] eqn:Ew.
  - injection H as <-. unfold DEFAULT_VALUES_MAP in Ew. cbn [dict_get] in Ew.
    repeat match type of Ew with
           | (if ?b then _ else _) = _ => destruct b
           end; try discriminate; now injection Ew as <-.
  - destruct (lookup_str name DELIMITER_MAP) as [d |] eqn:Ed.
    + invert_bind H as l Hl. injection H as <-. congruence.
    + destruct (PyStr.isdigit raw).
      * invert_bind H as n Hi. now injection H as <-.
      * destruct (String.eqb_spec name "saved_params") as [-> | _];
          injection H as <-; [| exact I].
        split; [reflexivity |].
        apply Forall_forall. intros x (s & <- & _)%in_map_iff. now exists s.
Qed.

Lemma parse_category_inv (st st' : DMFParser) (line : string) :
  parser_inv st -> _parse_category st line = Ok st' -> parser_inv st'.
Proof.
  intros (Hh & Hm & Hb & Hw) H. unfold _parse_category in H.
  invert_bind H as ti Hti. destruct ti as [t id]. cbn beta iota in H.
  injection H as <-.
  pose proof (header_record_type t id [("controls", VList [])]) as Ht.
  pose proof (bucket_append "macro" t _ _ _ Hm Ht) as Hm'.
  pose proof (bucket_append "menu" t _ _ _ Hb Ht) as Hb'.
  pose proof (bucket_append "window" t _ _ _ Hw Ht) as Hw'.
  split; [| split; [| split]]; cbn [heap macrolists menubars windows].
  - apply Forall_app. split; [exact Hh |].
    constructor; [apply header_record_wf | constructor].
  - exact Hm'.
  - destruct (String.eqb_spec t "macro") as [-> | _]; [exact Hb' | exact Hb'].
  - destruct (String.eqb_spec t "macro") as [-> | _]; [exact Hw' |].
    destruct (String.eqb_spec t "menu") as [-> | _]; [exact Hw' | exact Hw'].
Qed.

Lemma store_category_inv (st : DMFParser) (a : nat) (cat' : dict) :
  parser_inv st -> category_wf cat' ->
  dict_get "type" cat' = dict_get "type" (load (heap st) a) ->
  Forall category_wf (store (heap st) a cat')
  /\ bucket_ok "macro" (macrolists st) (store (heap st) a cat')
  /\ bucket_ok "menu" (menubars st) (store (heap st) a cat')
  /\ bucket_ok "window" (windows st) (store (heap st) a cat').
Proof.
  intros (Hh & Hm & Hb & Hw) Hc Ht.
  split; [now apply Forall_store |].
  split; [| split]; now apply bucket_store.
Qed.

(** A category that is read through a valid or invalid address and has
    a [controls] list is a well-formed one. *)
Lemma load_wf (st : DMFParser) (a : nat) (v : value) :
  parser_inv st -> dict_get "controls" (load (heap st) a) = Some v ->
  category_wf (load (heap st) a).
Proof.
  intros (Hh & _) Hv.
  destruct (Nat.lt_ge_cases a (List.length (heap st))) as [Ha | Ha].
  - rewrite Forall_forall in Hh. apply Hh. unfold load. now apply nth_In.
  - rewrite load_overflow in Hv by exact Ha. discriminate.
Qed.

Lemma parse_element_inv (st st' : DMFParser) (line : string) :
  parser_inv st -> _parse_element st line = Ok st' -> parser_inv st'.
Proof.
  intros Hinv H. unfold _parse_element in H.
  invert_bind H as ti Hti. destruct ti as [t id]. cbn beta iota in H.
  destruct (category st) as [a |]; [| discriminate].
  invert_bind H as cv Hcv. invert_bind H as cs Hcs. injection H as <-.
  unfold dict_getitem in Hcv.
  destruct (dict_get "controls" (load (heap st) a)) as [cv' |] eqn:Ec;
    [injection Hcv as -> | discriminate].
  destruct (load_wf st a cv Hinv Ec) as (t0 & cs0 & Ht0 & Ecs0 & Hcs0).
  rewrite Ec in Ecs0. injection Ecs0 as ->. cbn in Hcs. injection Hcs as <-.
  apply store_category_inv; [exact Hinv | |].
  - exists t0, (cs0 ++ [VDict (header_record t id [])])%list.
    split; [now rewrite dict_get_set_neq by discriminate |].
    split; [apply dict_get_set_eq |].
    apply Forall_app. split; [exact Hcs0 |].
    constructor; [| constructor].
    eexists. split; [reflexivity | apply header_record_fields].
  - now rewrite dict_get_set_neq by discriminate.
Qed.

Lemma update_element_inv (st st' : DMFParser) (k : string) (v : value) :
  parser_inv st -> field_ok (k, v) ->
  update_element st (dict_set k v) = Ok st' -> parser_inv st'.
Proof.
  intros Hinv Hkv H. unfold update_element in H.
  destruct (element st) as [[a i] |]; [| discriminate].
  invert_bind H as cv Hcv. invert_bind H as cs Hcs.
  invert_bind H as ev Hev. invert_bind H as e He. injection H as <-.
  unfold dict_getitem in Hcv.
  destruct (dict_get "controls" (load (heap st) a)) as [cv' |] eqn:Ec;
    [injection Hcv as -> | discriminate].
  destruct (load_wf st a cv Hinv Ec) as (t0 & cs0 & Ht0 & Ecs0 & Hcs0).
  rewrite Ec in Ecs0. injection Ecs0 as ->. cbn in Hcs. injection Hcs as <-.
  destruct ev; try discriminate. cbn in He. injection He as ->.
  unfold list_getitem in Hev.
  destruct (nth_error cs0 i) as [ev |] eqn:Ei; [injection Hev as -> | discriminate].
  apply store_category_inv; [exact Hinv | |].
  - exists t0, (store cs0 i (VDict (dict_set k v e))).
    split; [now rewrite dict_get_set_neq by discriminate |].
    split; [apply dict_get_set_eq |].
    apply Forall_store; [exact Hcs0 |].
    eexists. split; [reflexivity |].
    apply Forall_dict_set; [| exact Hkv].
    rewrite Forall_forall in Hcs0.
    destruct (Hcs0 _ (nth_error_In _ _ Ei)) as (e' & [= <-] & He'). exact He'.
  - now rewrite dict_get_set_neq by discriminate.
Qed.

Lemma parse_attribute_inv (st st' : DMFParser) (line : string) :
  parser_inv st -> _parse_attribute st line = Ok st' -> parser_inv st'.
Proof.
  intros Hinv H. unfold _parse_attribute in H.
  invert_bind H as nv Hnv. destruct nv as [name raw]. cbn beta iota in H.
  invert_bind H as v Hv.
  assert (Hn : PyStr.mem_char hyphen (PyStr.replace hyphen underscore name) = false)
    by (apply replace_removes; discriminate).
  pose proof (coerce_field_ok _ _ _ Hn Hv) as Hf.
  destruct (String.eqb_spec (PyStr.replace hyphen underscore name) "type")
    as [E | _].
  - rewrite E in Hf. eapply update_element_inv; [exact Hinv | | exact H].
    destruct (is_MAIN v); [split; [reflexivity | exact I] | exact Hf].
  - eapply update_element_inv; eauto.
Qed.

Lemma parse_line_inv (st : DMFParser) (line : string) (st' : DMFParser) :
  parser_inv st -> parse_line st line = Ok st' -> parser_inv st'.
Proof.
  intros Hinv H. unfold parse_line in H.
  destruct (PyStr.rstrip line =? ""); [congruence |].
  destruct (PyStr.startswith _ _); [eapply parse_attribute_inv; eauto |].
  destruct (PyStr.startswith _ _);
    [eapply parse_element_inv; eauto | eapply parse_category_inv; eauto].
Qed.

Lemma init_inv : parser_inv init.
Proof.
  assert (Hb : forall kind, bucket_ok kind [] []).
  { intros kind. split; [| constructor].
    intros a. cbn. split; [contradiction | intros [H _]; lia]. }
  split; [constructor |]. cbn. auto.
Qed.

Lemma parse_lines_inv (text : string) (st : DMFParser) :
  parse_lines text init = Ok st -> parser_inv st.
Proof.
  apply (for_each_invariant parser_inv parse_line); [| exact init_inv].
  intros s x s'. apply parse_line_inv.
Qed.

Lemma pane_window_inv (st : DMFParser) (a : nat) (st' : DMFParser) :
  parser_inv st -> pane_window st a = Ok st' -> parser_inv st'.
Proof.
  intros Hinv H. unfold pane_window in H.
  invert_bind H as cv Hcv. invert_bind H as cs Hcs.
  invert_bind H as ev Hev. invert_bind H as e He.
  destruct (dict_has "is_pane" e); [| now injection H as <-].
  invert_bind H as pe Hpe. destruct pe as [is_pane e']. cbn beta iota in H.
  injection H as <-.
  unfold dict_getitem in Hcv.
  destruct (dict_get "controls" (load (heap st) a)) as [cv' |] eqn:Ec;
    [injection Hcv as -> | discriminate].
  destruct (load_wf st a cv Hinv Ec) as (t0 & cs0 & Ht0 & Ecs0 & Hcs0).
  rewrite Ec in Ecs0. injection Ecs0 as ->. cbn in Hcs. injection Hcs as <-.
  destruct ev; try discriminate. cbn in He. injection He as ->.
  destruct cs0 as [| c0 cs0]; [discriminate |]. cbn in Hev. injection Hev as ->.
  unfold dict_pop in Hpe. destruct (dict_get "is_pane" e); [| discriminate].
  injection Hpe as _ <-.
  apply store_category_inv; [exact Hinv | |].
  - eexists t0, _.
    split; [now rewrite dict_get_set_neq by discriminate |].
    split; [apply dict_get_set_eq |].
    cbn [store]. pose proof (Forall_inv_tail Hcs0) as Hrest.
    destruct (Forall_inv Hcs0) as (e0 & E0 & He0). injection E0 as <-.
    constructor; [| exact Hrest].
    eexists. split; [reflexivity |].
    destruct (truthy is_pane).
    + apply Forall_dict_set; [now apply Forall_dict_del |].
      split; [reflexivity | exact I].
    + now apply Forall_dict_del.
  - now rewrite dict_get_set_neq by discriminate.
Qed.

Lemma pane_windows_inv (l : list nat) (st st' : DMFParser) :
  parser_inv st -> for_each pane_window l st = Ok st' -> parser_inv st'.
Proof.
  apply (for_each_invariant parser_inv pane_window).
  intros s x s'. apply pane_window_inv.
Qed.

Lemma parse_file_inv (text : string) (st : DMFParser) :
  parse_file text init = Ok st -> parser_inv st.
Proof.
  unfold parse_file. intros H. invert_bind H as st0 Hst0.
  eapply pane_windows_inv; [| exact H]. now apply (parse_lines_inv text).
Qed.

End TreeInvariants.

(** ** The tree that [parse_file] builds *)

Section BuiltTree.

Local Open Scope string_scope.

(** X7: after [parse_file], each bucket holds, in increasing order of
    creation, the addresses of exactly the categories whose kind is
    [macro], [menu] and [window]. *)
Theorem buckets_by_kind (text : string) (st : DMFParser) :
  parse_file text init = Ok st ->
  bucket_ok "macro" (macrolists st) (heap st)
  /\ bucket_ok "menu" (menubars st) (heap st)
  /\ bucket_ok "window" (windows st) (heap st).
Proof. intros H. apply (parse_file_inv text st H). Qed.

Lemma buckets_by_kind_witness :
  bucket_ok "macro" []
    [[("type", VStr "window"); ("id", VStr "main");
      ("controls", VList [VDict [("type", VStr "PANE")]])]]
  /\ bucket_ok "menu" []
       [[("type", VStr "window"); ("id", VStr "main");
         ("controls", VList [VDict [("type", VStr "PANE")]])]]
  /\ bucket_ok "window" [0]
       [[("type", VStr "window"); ("id", VStr "main");
         ("controls", VList [VDict [("type", VStr "PANE")]])]].
Proof.
  apply (buckets_by_kind scenario_1
           {| heap := [[("type", VStr "window"); ("id", VStr "main");
                        ("controls", VList [VDict [("type", VStr "PANE")]])]];
              macrolists := []; menubars := []; windows := [0];
              category := Some 0; element := Some (0, 0) |}).
  reflexivity.
Defined.

(** X8: after [parse_file], every field of every element has a name
    without hyphen and holds a scalar, except that the names of the
    delimiter map may hold a tuple of integers and [saved_params] a
    list of strings. *)
Theorem fields_are_typed
    (text : string) (st : DMFParser) (cat : dict) (controls : list value) (e : dict) :
  parse_file text init = Ok st ->
  In cat (heap st) ->
  dict_get "controls" cat = Some (VList controls) ->
  In (VDict e) controls ->
  Forall field_ok e.
Proof.
  intros H Hcat Hctl He.
  destruct (parse_file_inv text st H) as (Hh & _).
  rewrite Forall_forall in Hh.
  destruct (Hh cat Hcat) as (t & cs & _ & Ecs & Hcs).
  rewrite Hctl in Ecs. injection Ecs as <-.
  rewrite Forall_forall in Hcs.
  destruct (Hcs _ He) as (e' & [= <-] & He'). exact He'.
Qed.

Lemma fields_are_typed_witness : Forall field_ok [("type", VStr "PANE")].
Proof.
  apply (fields_are_typed scenario_1
           {| heap := [[("type", VStr "window"); ("id", VStr "main");
                        ("controls", VList [VDict [("type", VStr "PANE")]])]];
              macrolists := []; menubars := []; windows := [0];
              category := Some 0; element := Some (0, 0) |}
           [("type", VStr "window"); ("id", VStr "main");
            ("controls", VList [VDict [("type", VStr "PANE")]])]
           [VDict [("type", VStr "PANE")]]).
  - reflexivity.
  - left. reflexivity.
  - reflexivity.
  - left. reflexivity.
Defined.

End BuiltTree.

(** ** Normalizing a tree that [parse_file] built *)

Section AfterParseFile.

Local Open Scope string_scope.

Lemma map_result_total {A B : Type} (f : A -> result B) (l : list A) :
  Forall (fun x => exists y, f x = Ok y) l -> exists l', map_result f l = Ok l'.
Proof.
  induction 1 as [| x l (y & Hy) Hl (l' & IH)].
  - exists []. reflexivity.
  - exists (y :: l'). cbn [map_result]. now rewrite Hy, IH.
Qed.

Lemma map_result_first_err {A B : Type} (f : A -> result B) (l : list A) (x : A) (e : exn) :
  (forall y e', In y l -> f y = Err e' -> e' = e) ->
  In x l -> f x = Err e -> map_result f l = Err e.
Proof.
  induction l as [| y l IH]; intros Hf Hin Hx; [contradiction |].
  cbn [map_result]. destruct (f y) as [b | e'] eqn:Ey.
  - destruct Hin as [-> | Hin]; [congruence |].
    cbn [bind]. rewrite IH; auto. intros z e' Hz. apply Hf. now right.
  - cbn [bind]. f_equal. apply (Hf y e'); [now left | exact Ey].
Qed.

Lemma elements_are_records (l : list value) :
  Forall element_wf l ->
  exists ms, l = map VDict ms /\ Forall (Forall field_ok) ms.
Proof.
  induction 1 as [| v l (e & -> & He) Hl (ms & -> & Hms)].
  - exists []. split; [reflexivity | constructor].
  - exists (e :: ms). split; [reflexivity | now constructor].
Qed.

Lemma dict_get_In (k : string) (v : value) (d : dict) :
  dict_get k d = Some v -> In (k, v) d.
Proof.
  induction d as [| [k' v'] d IH]; [discriminate |]. cbn [dict_get].
  destruct (String.eqb_spec k k') as [<- | _].
  - intros [= <-]. now left.
  - intros H. right. now apply IH.
Qed.

(** Outside [saved_params], the value of a field can be hashed. *)
Lemma field_hashable (k : string) (v : value) (d : dict) :
  Forall field_ok d -> dict_get k d = Some v -> k <> "saved_params" ->
  hashable v = true.
Proof.
  intros Hd Hk Hne. rewrite Forall_forall in Hd.
  destruct (Hd _ (dict_get_In _ _ _ Hk)) as [_ Hv]. cbn [fst snd] in Hv.
  destruct v; try reflexivity; [now destruct Hv | contradiction].
Qed.

Lemma keyed_entry_ok (m : dict) : Forall field_ok m -> keyed m -> entry_ok m.
Proof.
  intros Hm Hk. split.
  - unfold entry_key.
    destruct (dict_get "category" m) as [c |] eqn:Ec.
    + exists c. split; [reflexivity |].
      apply (field_hashable "category" c m Hm Ec). discriminate.
    + destruct Hk as [Hk | Hk]; [congruence |].
      destruct (dict_get "name" m) as [n |] eqn:En; [| congruence].
      exists n. split; [reflexivity |].
      apply (field_hashable "name" n m Hm En). discriminate.
  - intros g Hg. apply (field_hashable "group" g m Hm Hg). discriminate.
Qed.

Lemma keyed_or_not (ms : list dict) :
  Forall keyed ms
  \/ exists pre m post,
       ms = (pre ++ m :: post)%list /\ Forall keyed pre
       /\ dict_get "category" m = None /\ dict_get "name" m = None.
Proof.
  induction ms as [| m ms IH]; [left; constructor |].
  destruct (dict_get "category" m) as [c |] eqn:Ec.
  - destruct IH as [IH | (pre & m' & post & -> & Hpre & Hm')].
    + left. constructor; [left; congruence | exact IH].
    + right. exists (m :: pre), m', post.
      split; [reflexivity |]. split; [| exact Hm'].
      constructor; [left; congruence | exact Hpre].
  - destruct (dict_get "name" m) as [n |] eqn:En.
    + destruct IH as [IH | (pre & m' & post & -> & Hpre & Hm')].
      * left. constructor; [right; congruence | exact IH].
      * right. exists (m :: pre), m', post.
        split; [reflexivity |]. split; [| exact Hm'].
        constructor; [right; congruence | exact Hpre].
    + right. exists [], m, ms. repeat split; auto.
Qed.

(** The loop over the entries stops with [KeyError] at the first entry
    that has neither category nor name. *)
Lemma menus_loop_unkeyed (pre post : list dict) (m : dict) :
  Forall (Forall field_ok) pre -> Forall keyed pre ->
  dict_get "category" m = None -> dict_get "name" m = None ->
  for_each menu_step (map VDict (pre ++ m :: post)) ([], []) = Err KeyError.
Proof.
  intros Hf Hk Hc Hn.
  assert (Hok : Forall entry_ok pre).
  { rewrite Forall_forall in *. intros x Hx. apply keyed_entry_ok; auto. }
  destruct (menus_loop_total pre [] [] (Forall_nil _) Hok)
    as (cats & groups & Hloop & _).
  pose proof (menu_step_menu cats groups m Hc) as Hstep.
  unfold dict_getitem in Hstep. rewrite Hn in Hstep. cbn [bind] in Hstep.
  rewrite map_app, for_each_app. unfold odict, dict in *. rewrite Hloop.
  cbn [bind map for_each]. rewrite Hstep. reflexivity.
Qed.

Lemma post_menubar_result (cat : dict) :
  category_wf cat ->
  ((exists out, post_menubar (VDict cat) = Ok out)
   /\ forall controls m,
        dict_get "controls" cat = Some (VList controls) ->
        In (VDict m) controls -> keyed m)
  \/ (post_menubar (VDict cat) = Err KeyError
      /\ exists controls m,
           dict_get "controls" cat = Some (VList controls)
           /\ In (VDict m) controls
           /\ dict_get "category" m = None /\ dict_get "name" m = None).
Proof.
  intros (t & controls & _ & Ec & Hcs).
  destruct (elements_are_records controls Hcs) as (ms & -> & Hms).
  unfold post_menubar. cbn [as_dict bind]. unfold dict_pop. rewrite Ec.
  cbn [bind as_list].
  destruct (keyed_or_not ms) as [Hk | (pre & m & post & -> & Hpre & Hc & Hn)].
  - left.
    assert (Hok : Forall entry_ok ms).
    { rewrite Forall_forall in *. intros x Hx. apply keyed_entry_ok; auto. }
    destruct (menus_loop_total ms [] [] (Forall_nil _) Hok)
      as (cats & groups & Hloop & _).
    unfold odict, dict in *. rewrite Hloop. cbn [bind]. split; [eauto |].
    intros controls m [= <-] (m' & [= <-] & Hm')%in_map_iff.
    rewrite Forall_forall in Hk. now apply Hk.
  - right. split.
    + rewrite menus_loop_unkeyed; auto.
      apply Forall_app in Hms as [Hms _]. exact Hms.
    + exists (map VDict (pre ++ m :: post)), m. repeat split; auto.
      apply in_map, in_or_app. right. now left.
Qed.

Lemma post_macrolist_total (cat : dict) :
  category_wf cat -> exists out, post_macrolist (VDict cat) = Ok out.
Proof.
  intros (t & controls & _ & Ec & Hcs).
  unfold post_macrolist. cbn [as_dict bind]. unfold dict_pop.
  rewrite dict_get_set_neq, Ec by discriminate. cbn [bind as_list].
  destruct (map_result_total post_macro controls) as (macros & ->); [| cbn; eauto].
  apply Forall_impl with (2 := Hcs). intros v (e & -> & _). cbn. eauto.
Qed.

(** One turn of the loop that ends [parse_file] makes its window ready
    and keeps the others so. *)
Lemma pane_window_ready (st : DMFParser) (b : nat) (st' : DMFParser) :
  parser_inv st -> pane_window st b = Ok st' ->
  window_ready st' b /\ forall a, window_ready st a -> window_ready st' a.
Proof.
  intros Hinv H. unfold pane_window in H.
  invert_bind H as cv Hcv. invert_bind H as cs Hcs.
  invert_bind H as ev Hev. invert_bind H as e He.
  unfold dict_getitem in Hcv.
  destruct (dict_get "controls" (load (heap st) b)) as [cv' |] eqn:Ec;
    [injection Hcv as -> | discriminate].
  destruct cv; try discriminate. cbn in Hcs. injection Hcs as ->.
  destruct cs as [| c0 rest]; [discriminate |]. cbn in Hev. injection Hev as ->.
  destruct ev; try discriminate. cbn in He. injection He as ->.
  assert (Hb : b < List.length (heap st)).
  { destruct (Nat.lt_ge_cases b (List.length (heap st))) as [Hb | Hb]; [exact Hb |].
    rewrite load_overflow in Ec by exact Hb. discriminate. }
  destruct (dict_has "is_pane" e) eqn:Ep.
  - invert_bind H as pe Hpe. destruct pe as [is_pane e']. cbn beta iota in H.
    injection H as <-. unfold dict_pop in Hpe.
    destruct (dict_get "is_pane" e); [| discriminate]. injection Hpe as _ <-.
    assert (Hready : window_ready
                       (with_heap st
                          (store (heap st) b
                             (dict_set "controls"
                                (VList (store (VDict e :: rest) 0
                                   (VDict (if truthy is_pane
                                           then dict_set "type" (VStr "PANE")
                                                  (dict_del "is_pane" e)
                                           else dict_del "is_pane" e))))
                                (load (heap st) b)))) b).
    { unfold window_ready. cbn [with_heap heap].
      rewrite load_store_eq by exact Hb. rewrite dict_get_set_eq. cbn [store].
      eexists _, rest. split; [reflexivity |].
      destruct (truthy is_pane);
        [rewrite dict_get_set_neq by discriminate |]; apply dict_get_del_eq. }
    split; [exact Hready |].
    intros a Ha. destruct (Nat.eq_dec b a) as [<- | Hne]; [exact Hready |].
    unfold window_ready in *. cbn [with_heap heap].
    now rewrite load_store_neq.
  - injection H as <-. split; [| auto].
    exists e, rest. split; [exact Ec | now apply dict_has_false].
Qed.

Lemma pane_windows_ready (l : list nat) :
  forall st st',
    parser_inv st -> for_each pane_window l st = Ok st' ->
    (forall a, window_ready st a -> window_ready st' a)
    /\ forall a, In a l -> window_ready st' a.
Proof.
  induction l as [| b l IH]; intros st st' Hinv H.
  - cbn in H. injection H as <-. split; [auto | contradiction].
  - cbn [for_each] in H. invert_bind H as st1 Hst1.
    destruct (pane_window_ready st b st1 Hinv Hst1) as [Hb Hkeep].
    pose proof (pane_window_inv st b st1 Hinv Hst1) as Hinv1.
    destruct (IH st1 st' Hinv1 H) as [Hkeep' Hl].
    split; [auto |].
    intros a [<- | Ha]; auto.
Qed.

Lemma parse_file_ready (text : string) (st : DMFParser) (a : nat) :
  parse_file text init = Ok st -> In a (windows st) -> window_ready st a.
Proof.
  unfold parse_file. intros H Ha. invert_bind H as st0 Hst0.
  pose proof (parse_lines_inv text st0 Hst0) as Hinv.
  assert (Hw : windows st = windows st0).
  { clear - H. revert H. generalize (windows st0) at 1. intros l.
    revert st0. induction l as [| b l IH]; intros st0 H.
    - cbn in H. now injection H as <-.
    - cbn [for_each] in H. invert_bind H as st1 Hst1.
      rewrite (IH st1 H). unfold pane_window in Hst1.
      invert_bind Hst1 as cv Hcv. invert_bind Hst1 as cs Hcs.
      invert_bind Hst1 as ev Hev. invert_bind Hst1 as e He.
      destruct (dict_has "is_pane" e); [| now injection Hst1 as <-].
      invert_bind Hst1 as pe Hpe. destruct pe as [is_pane e'].
      cbn beta iota in Hst1. now injection Hst1 as <-. }
  rewrite Hw in Ha.
  now apply (pane_windows_ready (windows st0) st0 st Hinv H).
Qed.

Lemma post_window_ready (st : DMFParser) (a : nat) :
  parser_inv st -> window_ready st a ->
  exists w, post_window (VDict (load (heap st) a)) = Ok w /\ window_ok w.
Proof.
  intros Hinv (e & rest & Ec & Hp).
  destruct (load_wf st a _ Hinv Ec) as (t & cs & _ & Ecs & Hcs).
  rewrite Ec in Ecs. injection Ecs as <-.
  unfold post_window. cbn [as_dict bind]. unfold dict_getitem. rewrite Ec.
  cbn [bind as_list as_dict]. eexists. split; [reflexivity |].
  exists (dict_set "controls" (VList rest) e), rest. split; [reflexivity |].
  split; [now rewrite dict_get_set_neq by discriminate |].
  split; [apply dict_get_set_eq |]. apply (Forall_inv_tail Hcs).
Qed.

Lemma bucket_categories_wf (st : DMFParser) (kind : string) (bucket : list nat) (a : nat) :
  Forall category_wf (heap st) -> bucket_ok kind bucket (heap st) ->
  In a bucket -> category_wf (load (heap st) a).
Proof.
  intros Hh [Hiff _] Ha. apply Hiff in Ha as [Ha _].
  rewrite Forall_forall in Hh. apply Hh. unfold load. now apply nth_In.
Qed.

Lemma macrolists_normalize (st : DMFParser) :
  parser_inv st ->
  exists ms, map_result post_macrolist (f_macrolists (contents st)) = Ok ms.
Proof.
  intros (Hh & Hm & _). apply map_result_total. cbn [contents f_macrolists].
  apply Forall_forall. intros v (a & <- & Ha)%in_map_iff.
  apply post_macrolist_total. eapply bucket_categories_wf; eauto.
Qed.

Lemma windows_normalize (text : string) (st : DMFParser) :
  parse_file text init = Ok st ->
  exists ws, map_result post_window (f_windows (contents st)) = Ok ws.
Proof.
  intros H. pose proof (parse_file_inv text st H) as Hinv.
  apply map_result_total. cbn [contents f_windows].
  apply Forall_forall. intros v (a & <- & Ha)%in_map_iff.
  destruct (post_window_ready st a Hinv (parse_file_ready text st a H Ha))
    as (w & Hw & _). eauto.
Qed.

(** X9: when [parse_file] has succeeded and every entry of every menu
    bar has a category or a name, [post_process] raises nothing: the
    whole pipeline returns. *)
Theorem keyed_menus_normalize (text : string) (st : DMFParser) :
  parse_file text init = Ok st ->
  all_keyed st ->
  exists out, parse text = Ok out.
Proof.
  intros H Hk. pose proof (parse_file_inv text st H) as Hinv.
  unfold parse. rewrite H. cbn [bind]. unfold post_process.
  destruct (macrolists_normalize st Hinv) as (ms & ->).
  destruct (windows_normalize text st H) as (ws & Hws).
  assert (Hbs : exists bs, map_result post_menubar (f_menubars (contents st)) = Ok bs).
  { apply map_result_total. cbn [contents f_menubars].
    apply Forall_forall. intros v (a & <- & Ha)%in_map_iff.
    destruct Hinv as (Hh & _ & Hb & _).
    pose proof (bucket_categories_wf st _ _ a Hh Hb Ha) as Hwf.
    destruct (post_menubar_result _ Hwf)
      as [[Hok _] | (_ & controls & m & Ec & Hm & Hc & Hn)]; [exact Hok |].
    exfalso. assert (Hkm : keyed m).
    { apply (Hk a m Ha). unfold menu_entries. now rewrite Ec. }
    destruct Hkm; congruence. }
  destruct Hbs as (bs & ->). rewrite Hws. cbn [bind]. eauto.
Qed.

Lemma keyed_menus_normalize_witness :
  exists out,
    parse ("menu" ++ nl ++ tab1 ++ "elem" ++ nl
           ++ tab1 ++ tab1 ++ "name = File" ++ nl) = Ok out.
Proof.
  apply (keyed_menus_normalize
           ("menu" ++ nl ++ tab1 ++ "elem" ++ nl
            ++ tab1 ++ tab1 ++ "name = File" ++ nl)
           {| heap := [[("type", VStr "menu");
                        ("controls",
                         VList [VDict [("type", VStr "elem");
                                       ("name", VStr "File")]])]];
              macrolists := []; menubars := [0]; windows := [];
              category := Some 0; element := Some (0, 0) |}).
  - reflexivity.
  - intros a e [<- | []] [[= <-] | []]. right. discriminate.
Defined.

(** X10: when [parse_file] has succeeded and some entry of a menu bar
    has neither category nor name, the pipeline raises [KeyError]. *)
Theorem unkeyed_menu_raises
    (text : string) (st : DMFParser) (a : nat) (e : dict) :
  parse_file text init = Ok st ->
  In a (menubars st) ->
  In (VDict e) (menu_entries st a) ->
  dict_get "category" e = None ->
  dict_get "name" e = None ->
  parse text = Err KeyError.
Proof.
  intros H Ha He Hc Hn. pose proof (parse_file_inv text st H) as Hinv.
  unfold parse. rewrite H. cbn [bind]. unfold post_process.
  destruct (macrolists_normalize st Hinv) as (ms & ->). cbn [bind].
  destruct Hinv as (Hh & _ & Hb & _).
  rewrite (map_result_first_err post_menubar _ (VDict (load (heap st) a)) KeyError);
    [reflexivity | | |].
  - cbn [contents f_menubars]. intros v e' (b & <- & Hb')%in_map_iff Hv.
    pose proof (bucket_categories_wf st _ _ b Hh Hb Hb') as Hwf.
    destruct (post_menubar_result _ Hwf) as [[(out & Hok) _] | (Herr & _)];
      congruence.
  - cbn [contents f_menubars].
    now apply (in_map (fun a => VDict (load (heap st) a))).
  - pose proof (bucket_categories_wf st _ _ a Hh Hb Ha) as Hwf.
    destruct (post_menubar_result _ Hwf) as [[_ Hall] | (Herr & _)];
      [| exact Herr].
    exfalso. unfold menu_entries in He.
    destruct (dict_get "controls" (load (heap st) a)) as [[| | | | | l |] |] eqn:Ec;
      try contradiction.
    destruct (Hall l e eq_refl He); congruence.
Qed.

Lemma unkeyed_menu_raises_witness :
  parse ("menu" ++ nl ++ tab1 ++ "elem" ++ nl) = Err KeyError.
Proof.
  apply (unkeyed_menu_raises ("menu" ++ nl ++ tab1 ++ "elem" ++ nl)
           {| heap := [[("type", VStr "menu");
                        ("controls", VList [VDict [("type", VStr "elem")]])]];
              macrolists := []; menubars := [0]; windows := [];
              category := Some 0; element := Some (0, 0) |}
           0 [("type", VStr "elem")]).
  - reflexivity.
  - left. reflexivity.
  - left. reflexivity.
  - reflexivity.
  - reflexivity.
Defined.

(** X11: every window record that the pipeline returns has a [controls]
    list of elements and no [is_pane] field. *)
Theorem windows_are_promoted (text : string) (out : forest) (w : value) :
  parse text = Ok out ->
  In w (f_windows out) ->
  window_ok w.
Proof.
  unfold parse. intros H Hw. invert_bind H as st Hst.
  pose proof (parse_file_inv text st Hst) as Hinv.
  unfold post_process in H.
  invert_bind H as ms Hms. invert_bind H as bs Hbs. invert_bind H as ws Hws.
  injection H as <-. cbn [f_windows] in Hw.
  destruct (map_result_In _ _ _ _ Hws Hw) as (v & Hv & Hpost).
  cbn [contents f_windows] in Hv. apply in_map_iff in Hv as (a & <- & Ha).
  destruct (post_window_ready st a Hinv (parse_file_ready text st a Hst Ha))
    as (w' & Hw' & Hok).
  congruence.
Qed.

Lemma windows_are_promoted_witness :
  window_ok (VDict [("type", VStr "PANE"); ("controls", VList [])]).
Proof.
  apply (windows_are_promoted scenario_1
           {| f_macrolists := []; f_menubars := [];
              f_windows := [VDict [("type", VStr "PANE"); ("controls", VList [])]] |}).
  - reflexivity.
  - left. reflexivity.
Defined.

(** X12: every macro-list record that [post_process] returns has type
    [MACROLIST], no [controls] field, and a [macros] list of records of
    type [MACRO]. *)
Theorem macrolists_are_retagged (f out : forest) (ml : value) :
  post_process f = Ok out ->
  In ml (f_macrolists out) ->
  macrolist_ok ml.
Proof.
  unfold post_process. intros H Hml.
  invert_bind H as ms Hms. invert_bind H as bs Hbs. invert_bind H as ws Hws.
  injection H as <-. cbn [f_macrolists] in Hml.
  destruct (map_result_In _ _ _ _ Hms Hml) as (v & _ & Hv).
  unfold post_macrolist in Hv.
  invert_bind Hv as d Hd. invert_bind Hv as popped Hpop.
  destruct popped as [controls_v d']. cbn beta iota in Hv.
  invert_bind Hv as cs Hcs. invert_bind Hv as macros Hmacros.
  injection Hv as <-. unfold dict_pop in Hpop.
  destruct (dict_get "controls" (dict_set "type" (VStr "MACROLIST") d));
    [| discriminate].
  injection Hpop as _ <-.
  eexists _, macros. split; [reflexivity |]. repeat split.
  - rewrite dict_get_set_neq, dict_get_del_neq by discriminate.
    apply dict_get_set_eq.
  - rewrite dict_get_set_neq by discriminate. apply dict_get_del_eq.
  - apply dict_get_set_eq.
  - apply Forall_forall. intros m Hm.
    destruct (map_result_In _ _ _ _ Hmacros Hm) as (x & _ & Hx).
    unfold post_macro in Hx. invert_bind Hx as e He. injection Hx as <-.
    eexists. split; [reflexivity | apply dict_get_set_eq].
Qed.

Lemma macrolists_are_retagged_witness :
  macrolist_ok
    (VDict [("type", VStr "MACROLIST"); ("id", VStr "macro");
            ("macros", VList [VDict [("type", VStr "MACRO"); ("name", VStr "A")]])]).
Proof.
  apply (macrolists_are_retagged macro_forest macro_forest_out).
  - reflexivity.
  - left. reflexivity.
Defined.

(** X13: [post_process] returns as many macro lists, menu bars and
    windows as it is given. *)
Theorem post_process_keeps_counts (f out : forest) :
  post_process f = Ok out ->
  List.length (f_macrolists out) = List.length (f_macrolists f)
  /\ List.length (f_menubars out) = List.length (f_menubars f)
  /\ List.length (f_windows out) = List.length (f_windows f).
Proof.
  unfold post_process. intros H.
  invert_bind H as ms Hms. invert_bind H as bs Hbs. invert_bind H as ws Hws.
  injection H as <-. cbn [f_macrolists f_menubars f_windows].
  repeat split; eapply map_result_length; eassumption.
Qed.

Lemma post_process_keeps_counts_witness :
  List.length (f_macrolists macro_forest_out) = List.length (f_macrolists macro_forest)
  /\ List.length (f_menubars macro_forest_out) = List.length (f_menubars macro_forest)
  /\ List.length (f_windows macro_forest_out) = List.length (f_windows macro_forest).
Proof. apply (post_process_keeps_counts macro_forest macro_forest_out). reflexivity. Defined.

End AfterParseFile.

(** ** Lines *)

Section Lines.

Local Open Scope string_scope.

Lemma parse_line_skips (st : DMFParser) (l : string) :
  nonblank l = false -> parse_line st l = Ok st.
Proof.
  unfold nonblank, parse_line. intros H. apply negb_false_iff in H. now rewrite H.
Qed.

Lemma loop_skips_blank (ls : list string) (st : DMFParser) :
  for_each parse_line ls st = for_each parse_line (filter nonblank ls) st.
Proof.
  revert st. induction ls as [| l ls IH]; intros st; [reflexivity |].
  cbn [filter]. destruct (nonblank l) eqn:E; cbn [for_each].
  - destruct (parse_line st l); cbn [bind]; [apply IH | reflexivity].
  - rewrite (parse_line_skips st l E). cbn [bind]. apply IH.
Qed.

(** X14: two texts with the same lines, once the blank ones are left
    out, give the same result, exception included. *)
Theorem blank_lines_ignored (text1 text2 : string) :
  significant_lines text1 = significant_lines text2 ->
  parse text1 = parse text2.
Proof.
  unfold significant_lines, parse, parse_file, parse_lines. intros H.
  now rewrite (loop_skips_blank (readlines (universal_newlines text1))),
    (loop_skips_blank (readlines (universal_newlines text2))), H.
Qed.

Lemma blank_lines_ignored_witness :
  parse (nl ++ scenario_1 ++ "  " ++ nl) = parse scenario_1.
Proof.
  apply (blank_lines_ignored (nl ++ scenario_1 ++ "  " ++ nl) scenario_1).
  vm_compute. reflexivity.
Defined.

(** X20: a text without any line that is not blank, the empty text
    included, gives three empty lists. *)
Theorem blank_text_is_empty (text : string) :
  significant_lines text = [] ->
  parse text = Ok {| f_macrolists := []; f_menubars := []; f_windows := [] |}.
Proof.
  unfold significant_lines, parse, parse_file, parse_lines. intros H.
  rewrite loop_skips_blank, H. reflexivity.
Qed.

Lemma blank_text_is_empty_witness :
  parse (nl ++ "  " ++ tab1 ++ nl)
  = Ok {| f_macrolists := []; f_menubars := []; f_windows := [] |}.
Proof. apply (blank_text_is_empty (nl ++ "  " ++ tab1 ++ nl)). reflexivity. Defined.

(** The frame of [self.element[k] = v]: the two cursors and every
    other category are untouched. *)
Lemma update_element_frame (st st' : DMFParser) (f : dict -> dict) (a i : nat) :
  element st = Some (a, i) -> update_element st f = Ok st' ->
  category st' = category st /\ element st' = element st
  /\ forall b, b <> a -> load (heap st') b = load (heap st) b.
Proof.
  intros Hel H. unfold update_element in H. rewrite Hel in H.
  invert_bind H as cv Hcv. invert_bind H as cs Hcs.
  invert_bind H as ev Hev. invert_bind H as e He. injection H as <-.
  cbn [with_heap category element heap]. repeat split.
  intros b Hb. apply load_store_neq. congruence.
Qed.

(** What a well-formed attribute line does: it sets the field in the
    element under the cursor. *)
Lemma parse_attribute_field
    (st : DMFParser) (line name raw : string) (v : value) (e : dict) :
  _parse_key_eq_sign_value (PyStr.lstrip line) = Ok (name, raw) ->
  field_value name raw = Ok v ->
  current_element st = Some e ->
  exists st',
    _parse_attribute st line = Ok st'
    /\ update_element st (dict_set (field_name name) v) = Ok st'
    /\ current_element st' = Some (dict_set (field_name name) v e).
Proof.
  intros Hkv Hv He. unfold _parse_attribute. rewrite Hkv. cbn [bind].
  unfold field_value in Hv. invert_bind Hv as v0 Hv0. injection Hv as <-.
  unfold field_name in *. rewrite Hv0. cbn [bind].
  set (name' := PyStr.replace hyphen underscore name) in *.
  destruct (String.eqb_spec name' "type") as [E | _]; cbn [andb].
  - rewrite E.
    destruct (update_element_current st
                (dict_set "type" (if is_MAIN v0 then VStr "WINDOW" else v0)) e He)
      as (st' & Hu & Hc & _). eauto.
  - destruct (update_element_current st (dict_set name' v0) e He)
      as (st' & Hu & Hc & _). eauto.
Qed.

(** X15: a line indented by two tabs or more goes to [_parse_attribute],
    which reads it without its indentation; when it is a well-formed
    attribute, the field is set in the element under the cursor. *)
Theorem deep_indentation_is_attribute (st : DMFParser) (n : nat) (body : string) :
  PyStr.rstrip body <> "" ->
  parse_line st (tabs (2 + n) ++ body) = _parse_attribute st (PyStr.rstrip body)
  /\ forall name raw v e,
       _parse_key_eq_sign_value (PyStr.lstrip (PyStr.rstrip body))
       = Ok (name, raw) ->
       field_value name raw = Ok v ->
       current_element st = Some e ->
       exists st',
         parse_line st (tabs (2 + n) ++ body) = Ok st'
         /\ current_element st' = Some (dict_set (field_name name) v e).
Proof.
  intros H.
  assert (Hline : parse_line st (tabs (2 + n) ++ body)
                  = _parse_attribute st (PyStr.rstrip body)).
  { unfold parse_line. rewrite rstrip_tabs by exact H.
    cbn [Nat.add tabs append].
    unfold PyStr.startswith. cbn [String.eqb String.prefix].
    destruct (ascii_dec tab tab); [| congruence]. rewrite prefix_nil.
    unfold _parse_attribute. now rewrite !lstrip_tab, lstrip_tabs. }
  split; [exact Hline |].
  intros name raw v e Hkv Hv He. rewrite Hline.
  destruct (parse_attribute_field st _ name raw v e Hkv Hv He)
    as (st' & Hp & _ & Hc).
  eauto.
Qed.

Lemma deep_indentation_is_attribute_witness :
  parse_line one_element (tabs (2 + 3) ++ "pos = 3,4" ++ nl)
  = _parse_attribute one_element "pos = 3,4"
  /\ exists st',
       parse_line one_element (tabs (2 + 3) ++ "pos = 3,4" ++ nl) = Ok st'
       /\ current_element st'
          = Some [("type", VStr "MAIN"); ("pos", VTuple [3%Z; 4%Z])].
Proof.
  assert (H : PyStr.rstrip ("pos = 3,4" ++ nl) <> "") by discriminate.
  destruct (deep_indentation_is_attribute one_element 3 ("pos = 3,4" ++ nl) H)
    as [Hline Hfield].
  split; [exact Hline |].
  apply (Hfield "pos" "3,4" (VTuple [3%Z; 4%Z]) [("type", VStr "MAIN")]);
    reflexivity.
Defined.

End Lines.

(** ** Lines out of place *)

Section OrphanLines.

Local Open Scope string_scope.

Lemma parse_line_element (st : DMFParser) (l : string) :
  element_line l -> parse_line st l = _parse_element st (PyStr.rstrip l).
Proof.
  unfold parse_line. intros (Hne & Ht2 & Ht1). apply String.eqb_neq in Hne.
  now rewrite Hne, Ht2, Ht1.
Qed.

Lemma map_result_err {A B : Type} (f : A -> result B) (l : list A) (e : exn) :
  map_result f l = Err e -> exists x, In x l /\ f x = Err e.
Proof.
  induction l as [| x l IH]; [discriminate |]. cbn [map_result].
  destruct (f x) as [y | e'] eqn:Ex; cbn [bind].
  - destruct (map_result f l) as [ys | e''] eqn:El; cbn [bind]; [discriminate |].
    intros [= <-]. destruct (IH eq_refl) as (x' & Hx' & Hf).
    exists x'. split; [now right | exact Hf].
  - intros [= <-]. exists x. split; [now left | exact Ex].
Qed.

Lemma coerce_only_ValueError (name raw : string) (e : exn) :
  coerce name raw = Err e -> e = ValueError.
Proof.
  unfold coerce. destruct (dict_get raw DEFAULT_VALUES_MAP); [discriminate |].
  destruct (lookup_str name DELIMITER_MAP) as [d |].
  - unfold to_ints.
    destruct (map_result py_int (PyStr.split d raw)) as [l | e'] eqn:E; cbn [bind];
      [discriminate |].
    intros [= <-]. apply map_result_err in E as (x & _ & Hx).
    now apply py_int_only_ValueError in Hx.
  - destruct (PyStr.isdigit raw).
    + destruct (py_int raw) as [n | e'] eqn:E; cbn [bind]; [discriminate |].
      intros [= <-]. now apply py_int_only_ValueError in E.
    + destruct (name =? "saved_params"); discriminate.
Qed.

Lemma blank_lines_loop (blanks : list string) (st : DMFParser) :
  Forall blank_line blanks -> for_each parse_line blanks st = Ok st.
Proof.
  induction 1 as [| l ls Hl Hls IH]; [reflexivity |].
  cbn [for_each]. now rewrite (parse_line_blank st l Hl).
Qed.

(** X16: a text whose first line that is not blank is an element line
    or an attribute line raises: [ValueError] when the line is
    malformed in itself, and [TypeError] when it is well formed, for
    there is no category, or no element, to put it in. *)
Theorem orphan_line_raises (text : string) (blanks : list string) (l : string) (rest : list string) :
  readlines (universal_newlines text) = (blanks ++ l :: rest)%list ->
  Forall blank_line blanks ->
  element_line l \/ attribute_line l ->
  parse text = Err (if well_formed l then TypeError else ValueError).
Proof.
  intros Hlines Hblank Hl.
  assert (Hline : parse_line init l
                  = Err (if well_formed l then TypeError else ValueError)).
  { unfold well_formed, header_text. destruct Hl as [Hl | Hl].
    - rewrite (parse_line_element init l Hl). destruct Hl as (_ & -> & ->).
      unfold _parse_element.
      destruct (_parse_key_value _) as [[t id] | e] eqn:E; cbn [bind].
      + reflexivity.
      + now rewrite (parse_key_value_only_ValueError _ _ E).
    - rewrite (parse_line_attribute init l Hl). destruct Hl as (_ & ->).
      unfold _parse_attribute, field_value, field_name.
      destruct (_parse_key_eq_sign_value _) as [[name raw] | e] eqn:E; cbn [bind].
      + destruct (coerce _ _) as [v | e] eqn:Ec; cbn [bind].
        * destruct (_ =? "type"); reflexivity.
        * now rewrite (coerce_only_ValueError _ _ _ Ec).
      + now rewrite (parse_key_eq_sign_value_only_ValueError _ _ E). }
  unfold parse, parse_file, parse_lines.
  rewrite Hlines, for_each_app, (blank_lines_loop blanks init Hblank).
  cbn [bind for_each]. now rewrite Hline.
Qed.

Lemma orphan_line_raises_witness :
  parse (nl ++ tab1 ++ "elem" ++ nl) = Err TypeError
  /\ parse (tab1 ++ "a b c" ++ nl) = Err ValueError
  /\ parse (tab1 ++ tab1 ++ "pos = 3,4" ++ nl) = Err TypeError
  /\ parse (tab1 ++ tab1 ++ "pos = 3;4" ++ nl) = Err ValueError.
Proof.
  split; [| split; [| split]].
  - apply (orphan_line_raises (nl ++ tab1 ++ "elem" ++ nl)
             [nl] (tab1 ++ "elem" ++ nl) []).
    + reflexivity.
    + repeat constructor.
    + left. repeat split. discriminate.
  - apply (orphan_line_raises (tab1 ++ "a b c" ++ nl)
             [] (tab1 ++ "a b c" ++ nl) []).
    + reflexivity.
    + constructor.
    + left. repeat split. discriminate.
  - apply (orphan_line_raises (tab1 ++ tab1 ++ "pos = 3,4" ++ nl)
             [] (tab1 ++ tab1 ++ "pos = 3,4" ++ nl) []).
    + reflexivity.
    + constructor.
    + right. repeat split. discriminate.
  - apply (orphan_line_raises (tab1 ++ tab1 ++ "pos = 3;4" ++ nl)
             [] (tab1 ++ tab1 ++ "pos = 3;4" ++ nl) []).
    + reflexivity.
    + constructor.
    + right. repeat split. discriminate.
Defined.

(** X17: a category header does not reset the current element: an
    attribute line that comes right after the header sets its field in
    the last element of an earlier category, and the category that the
    header opens stays without element. *)
Theorem header_keeps_element
    (st : DMFParser) (header t : string) (id : option string)
    (l name raw : string) (v : value) (e : dict) :
  current_element st = Some e ->
  category_line header ->
  _parse_key_value (PyStr.rstrip header) = Ok (t, id) ->
  attribute_line l ->
  _parse_key_eq_sign_value (PyStr.lstrip (PyStr.rstrip l)) = Ok (name, raw) ->
  field_value name raw = Ok v ->
  exists st' a i,
    for_each parse_line [header; l] st = Ok st'
    /\ element st = Some (a, i) /\ element st' = Some (a, i)
    /\ a < List.length (heap st)
    /\ category st' = Some (List.length (heap st))
    /\ current_element st' = Some (dict_set (field_name name) v e)
    /\ dict_get "type" (load (heap st') (List.length (heap st))) = Some (VStr t)
    /\ childless st' (List.length (heap st)).
Proof.
  intros He Hh Hkv Hl Hnv Hv.
  cbn [for_each]. rewrite (parse_line_category st header Hh).
  unfold _parse_category. rewrite Hkv. cbn [bind].
  set (cat := header_record t id [("controls", VList [])]).
  set (st1 := {| heap := (heap st ++ [cat])%list; macrolists := _ |}).
  assert (Hel : exists a i, element st = Some (a, i) /\ a < List.length (heap st)
                            /\ current_element st1 = Some e).
  { unfold current_element in *. cbn [element heap st1].
    destruct (element st) as [[a i] |]; [| discriminate].
    destruct (nth_error (heap st) a) as [c |] eqn:Ea; [| discriminate].
    assert (Ha : a < List.length (heap st)) by (apply nth_error_Some; congruence).
    exists a, i. rewrite nth_error_app1, Ea by exact Ha. auto. }
  destruct Hel as (a & i & Hel & Ha & He1).
  rewrite (parse_line_attribute st1 l Hl).
  destruct (parse_attribute_field st1 _ name raw v e Hnv Hv He1)
    as (st2 & Hp & Hu & Hc).
  destruct (update_element_frame st1 st2 _ a i Hel Hu) as (Hcat & Helem & Hload).
  exists st2, a, i. rewrite Hp. cbn [bind].
  assert (Hnew : load (heap st2) (List.length (heap st)) = cat).
  { rewrite Hload by lia. cbn [heap st1]. apply load_app_new. }
  split; [reflexivity |]. split; [exact Hel |].
  split; [now rewrite Helem |]. split; [exact Ha |].
  split; [now rewrite Hcat |]. split; [exact Hc |].
  unfold childless. rewrite Hnew. split; [apply header_record_type |].
  unfold cat, header_record.
  destruct id as [j |]; [destruct (truthy (VStr j)) |]; reflexivity.
Qed.

Lemma header_keeps_element_witness :
  exists st' a i,
    for_each parse_line ["menu" ++ nl; tab1 ++ tab1 ++ "name = File" ++ nl]
      one_element = Ok st'
    /\ element one_element = Some (a, i) /\ element st' = Some (a, i)
    /\ a < List.length (heap one_element)
    /\ category st' = Some (List.length (heap one_element))
    /\ current_element st'
       = Some [("type", VStr "MAIN"); ("name", VStr "File")]
    /\ dict_get "type" (load (heap st') (List.length (heap one_element)))
       = Some (VStr "menu")
    /\ childless st' (List.length (heap one_element)).
Proof.
  apply (header_keeps_element one_element ("menu" ++ nl) "menu" None
           (tab1 ++ tab1 ++ "name = File" ++ nl) "name" "File" (VStr "File")
           [("type", VStr "MAIN")]).
  - reflexivity.
  - repeat split. discriminate.
  - reflexivity.
  - repeat split. discriminate.
  - reflexivity.
  - reflexivity.
Defined.

End OrphanLines.

(** ** Categories of another kind *)

Section OtherKinds.

Local Open Scope string_scope.

Lemma lines_inv (ls : list string) (st : DMFParser) :
  for_each parse_line ls init = Ok st -> parser_inv st.
Proof.
  apply (for_each_invariant parser_inv parse_line); [| exact init_inv].
  intros s x s'. apply parse_line_inv.
Qed.

Lemma map_load_store (h : list dict) (a : nat) (x : dict) (bucket : list nat) :
  ~ In a bucket ->
  map (fun b => VDict (load (store h a x) b)) bucket
  = map (fun b => VDict (load h b)) bucket.
Proof.
  intros Ha. apply map_ext_in. intros b Hb.
  rewrite load_store_neq; [reflexivity |]. intros ->. contradiction.
Qed.

Lemma map_load_app (h : list dict) (x : dict) (bucket : list nat) :
  Forall (fun b => b < List.length h) bucket ->
  map (fun b => VDict (load (h ++ [x]) b)) bucket
  = map (fun b => VDict (load h b)) bucket.
Proof.
  intros Hb. apply map_ext_in. intros b Hin.
  rewrite Forall_forall in Hb. now rewrite load_app_old by auto.
Qed.

(** Under a category that is in no bucket, an attribute line and an
    element line change nothing of what the buckets show. *)
Lemma detached_attribute (st st' : DMFParser) (l : string) :
  detached st -> _parse_attribute st l = Ok st' ->
  detached st' /\ contents st' = contents st.
Proof.
  intros (a & i & Hc & He & Hm & Hb & Hw) H. unfold _parse_attribute in H.
  invert_bind H as nv Hnv. destruct nv as [name raw]. cbn beta iota in H.
  invert_bind H as v Hv.
  assert (Hu : forall f, update_element st f = Ok st' ->
                 detached st' /\ contents st' = contents st).
  { intros f Hf. unfold update_element in Hf. rewrite He in Hf.
    invert_bind Hf as cv Hcv. invert_bind Hf as cs Hcs.
    invert_bind Hf as ev Hev. invert_bind Hf as e Hee. injection Hf as <-.
    split.
    - exists a, i. cbn [with_heap category element macrolists menubars windows].
      auto.
    - unfold contents. cbn [with_heap heap macrolists menubars windows].
      now rewrite !map_load_store. }
  destruct (_ =? "type"); eapply Hu; eauto.
Qed.

Lemma detached_element (st st' : DMFParser) (l : string) :
  (exists a, category st = Some a
             /\ ~ In a (macrolists st) /\ ~ In a (menubars st)
             /\ ~ In a (windows st)) ->
  _parse_element st l = Ok st' ->
  detached st' /\ contents st' = contents st.
Proof.
  intros (a & Hc & Hm & Hb & Hw) H. unfold _parse_element in H.
  invert_bind H as ti Hti. destruct ti as [t id]. cbn beta iota in H.
  rewrite Hc in H.
  invert_bind H as cv Hcv. invert_bind H as cs Hcs. injection H as <-.
  split.
  - exists a, (List.length cs). cbn [category element macrolists menubars windows].
    auto.
  - unfold contents. cbn [heap macrolists menubars windows].
    now rewrite !map_load_store.
Qed.

Lemma detached_lines (rest : list string) :
  Forall (fun l => blank_line l \/ attribute_line l \/ element_line l) rest ->
  forall st st',
    detached st -> for_each parse_line rest st = Ok st' ->
    contents st' = contents st.
Proof.
  induction 1 as [| l rest Hl Hrest IH]; intros st st' Hd H.
  - cbn in H. now injection H as <-.
  - cbn [for_each] in H. invert_bind H as st1 Hst1.
    destruct Hl as [Hl | [Hl | Hl]].
    + rewrite (parse_line_blank st l Hl) in Hst1. injection Hst1 as <-. eauto.
    + rewrite (parse_line_attribute st l Hl) in Hst1.
      destruct (detached_attribute st st1 _ Hd Hst1) as [Hd1 <-]. eauto.
    + rewrite (parse_line_element st l Hl) in Hst1.
      destruct Hd as (a & i & Hc & _ & Hn).
      destruct (detached_element st st1 _ (ex_intro _ a (conj Hc Hn)) Hst1)
        as [Hd1 <-]. eauto.
Qed.

(** X18: a category whose kind is none of [macro], [menu] and [window]
    is kept in no bucket: its header, the element line that follows
    and the element and attribute lines after it, up to the next
    header, leave the three lists as they were. *)
Theorem other_kind_is_dropped
    (pre rest : list string) (hdr el : string) (st st' : DMFParser) :
  for_each parse_line pre init = Ok st ->
  other_header hdr ->
  element_line el ->
  Forall (fun l => blank_line l \/ attribute_line l \/ element_line l) rest ->
  for_each parse_line (hdr :: el :: rest) st = Ok st' ->
  contents st' = contents st.
Proof.
  intros Hpre [Hcat (kind & id & Hkv & Hk1 & Hk2 & Hk3)] Hel Hrest H.
  pose proof (lines_inv pre st Hpre) as (_ & Hm & Hb & Hw).
  apply bucket_lt in Hm, Hb, Hw.
  cbn [for_each] in H. invert_bind H as st1 Hst1. invert_bind H as st2 Hst2.
  rewrite (parse_line_category st hdr Hcat) in Hst1.
  unfold _parse_category in Hst1. rewrite Hkv in Hst1. cbn [bind] in Hst1.
  apply String.eqb_neq in Hk1, Hk2, Hk3. rewrite Hk1, Hk2, Hk3 in Hst1.
  injection Hst1 as <-.
  rewrite (parse_line_element _ el Hel) in Hst2.
  assert (Hfresh : forall bucket,
             Forall (fun b => b < List.length (heap st)) bucket ->
             ~ In (List.length (heap st)) bucket).
  { intros bucket Hlt Hin. rewrite Forall_forall in Hlt.
    specialize (Hlt _ Hin). lia. }
  match type of Hst2 with
  | _parse_element ?s _ = _ => set (st1 := s) in *
  end.
  assert (Hex : exists a, category st1 = Some a
                          /\ ~ In a (macrolists st1) /\ ~ In a (menubars st1)
                          /\ ~ In a (windows st1)).
  { exists (List.length (heap st)). unfold st1.
    cbn [category macrolists menubars windows]. auto. }
  destruct (detached_element st1 st2 _ Hex Hst2) as [Hd2 E2].
  rewrite (detached_lines rest Hrest st2 st' Hd2 H), E2.
  unfold contents, st1. cbn [heap macrolists menubars windows].
  now rewrite !map_load_app.
Qed.

Lemma other_kind_is_dropped_witness :
  contents
    {| heap := [[("type", VStr "other");
                 ("controls", VList [VDict [("type", VStr "elem");
                                            ("name", VStr "x")]])]];
       macrolists := []; menubars := []; windows := [];
       category := Some 0; element := Some (0, 0) |}
  = contents init.
Proof.
  apply (other_kind_is_dropped [] [tab1 ++ tab1 ++ "name = x"] "other" (tab1 ++ "elem")).
  - reflexivity.
  - split; [repeat split; discriminate |].
    exists "other", None. repeat split; discriminate.
  - repeat split. discriminate.
  - constructor; [| constructor]. right. left. split; [discriminate | reflexivity].
  - reflexivity.
Defined.

End OtherKinds.

(** ** The groups of a menu bar *)

Section Groups.

Local Open Scope string_scope.

Lemma distinct_snoc (l : list value) (g : value) :
  distinct_keys l -> existsb (key_eqb g) l = false -> distinct_keys (l ++ [g]).
Proof.
  induction l as [| x t IH]; cbn [distinct_keys app existsb].
  - auto.
  - intros [Hx Ht] Hg. apply orb_false_iff in Hg as [Hgx Hgt].
    split; [| now apply IH].
    rewrite existsb_app, Hx. cbn [existsb]. now rewrite key_eqb_sym, Hgx.
Qed.

Lemma set_add_distinct (g : value) (groups : list value) :
  distinct_keys groups -> distinct_keys (set_add g groups).
Proof.
  intros H. unfold set_add.
  destruct (existsb (key_eqb g) groups) eqn:E; [exact H | now apply distinct_snoc].
Qed.

Lemma set_add_In (g g' : value) (groups : list value) :
  In g' (set_add g groups) -> In g' groups \/ g' = g.
Proof.
  unfold set_add. destruct (existsb (key_eqb g) groups); [auto |].
  intros [H | [<- | []]]%in_app_or; auto.
Qed.

Lemma set_add_has (g : value) (groups : list value) :
  hashable g = true -> existsb (key_eqb g) (set_add g groups) = true.
Proof.
  intros Hg. unfold set_add.
  destruct (existsb (key_eqb g) groups) eqn:E; [exact E |].
  rewrite existsb_app. cbn [existsb]. rewrite key_eqb_refl by exact Hg.
  now rewrite orb_true_r.
Qed.

Lemma set_add_keeps (g g' : value) (groups : list value) :
  existsb (key_eqb g') groups = true ->
  existsb (key_eqb g') (set_add g groups) = true.
Proof.
  intros H. unfold set_add. destruct (existsb (key_eqb g) groups); [exact H |].
  now rewrite existsb_app, H.
Qed.

(** What [group_step] adds: the group of an entry with a true name and
    a true group, and nothing else. *)
Lemma group_step_spec (m : dict) (groups groups' : list value) :
  group_step m groups = Ok groups' ->
  (distinct_keys groups -> distinct_keys groups')
  /\ (forall g, In g groups' ->
        In g groups
        \/ (truthy_opt (dict_get "name" m) = true
            /\ dict_get "group" m = Some g /\ truthy g = true))
  /\ (forall g, existsb (key_eqb g) groups = true ->
        existsb (key_eqb g) groups' = true)
  /\ (forall g, truthy_opt (dict_get "name" m) = true ->
        dict_get "group" m = Some g -> truthy g = true ->
        existsb (key_eqb g) groups' = true).
Proof.
  unfold group_step, dict_getitem, hash_key.
  rewrite !dict_get_set_neq, !dict_get_del_neq by discriminate.
  destruct (truthy_opt (dict_get "name" m)) eqn:En.
  - destruct (dict_get "group" m) as [g0 |] eqn:Eg; cbn [truthy_opt].
    + destruct (truthy g0) eqn:Et.
      * cbn [bind]. destruct (hashable g0) eqn:Eh; cbn [bind]; [| discriminate].
        intros [= <-]. repeat split.
        -- apply set_add_distinct.
        -- intros g [Hg | ->]%set_add_In; auto.
        -- intros g. apply set_add_keeps.
        -- intros g _ [= <-] _. now apply set_add_has.
      * intros [= <-]. repeat split; auto. intros g _ [= <-] Hg. congruence.
    + intros [= <-]. repeat split; auto. discriminate.
  - intros [= <-]. repeat split; auto. discriminate.
Qed.

Lemma menu_step_groups (cats cats' : odict) (groups groups' : list value) (m : dict) :
  categories_ok cats ->
  menu_step (cats, groups) (VDict m) = Ok (cats', groups') ->
  (distinct_keys groups -> distinct_keys groups')
  /\ (forall g, In g groups' -> In g groups \/ in_group g m)
  /\ (forall g, existsb (key_eqb g) groups = true ->
        existsb (key_eqb g) groups' = true)
  /\ (forall g, in_group g m -> existsb (key_eqb g) groups' = true).
Proof.
  intros Hok H. destruct (dict_get "category" m) as [c |] eqn:Ec.
  - rewrite (menu_step_action cats groups m c Hok Ec) in H.
    invert_bind H as u Hu. invert_bind H as gs Hgs. injection H as _ <-.
    destruct (group_step_spec m groups gs Hgs) as (Hd & Hin & Hkeep & Hadd).
    repeat split; auto.
    + intros g Hg. destruct (Hin g Hg) as [? | (Hn & Hgr & Ht)]; [now left |].
      right. repeat split; auto. congruence.
    + intros g (_ & Hn & Hgr & Ht). auto.
  - rewrite (menu_step_menu cats groups m Ec) in H.
    invert_bind H as n Hn. invert_bind H as u Hu. injection H as _ <-.
    repeat split; auto. intros g (Hc & _). congruence.
Qed.

Lemma menus_loop_groups (ms : list dict) :
  forall cats groups cats' groups',
    categories_ok cats ->
    for_each menu_step (map VDict ms) (cats, groups) = Ok (cats', groups') ->
    (distinct_keys groups -> distinct_keys groups')
    /\ (forall g, In g groups' ->
          In g groups \/ exists m, In m ms /\ in_group g m)
    /\ (forall g, existsb (key_eqb g) groups = true ->
          existsb (key_eqb g) groups' = true)
    /\ (forall g m, In m ms -> in_group g m ->
          existsb (key_eqb g) groups' = true).
Proof.
  induction ms as [| m ms IH]; intros cats groups cats' groups' Hok H.
  - cbn in H. injection H as <- <-. repeat split; auto; intros g m [].
  - cbn [map for_each] in H. invert_bind H as acc Hstep.
    destruct acc as [cats1 groups1].
    pose proof (menu_step_ok (cats, groups) (VDict m) (cats1, groups1) Hok Hstep)
      as Hok1. cbn [fst] in Hok1.
    destruct (menu_step_groups _ _ _ _ _ Hok Hstep) as (Hd & Hin & Hkeep & Hadd).
    destruct (IH _ _ _ _ Hok1 H) as (Hd' & Hin' & Hkeep' & Hadd').
    repeat split; auto.
    + intros g Hg. destruct (Hin' g Hg) as [Hg1 | (m' & Hm' & Hg')].
      * destruct (Hin g Hg1) as [? | ?]; [now left |].
        right. exists m. split; [now left | assumption].
      * right. exists m'. split; [now right | assumption].
    + intros g m' [<- | Hm'] Hg; eauto.
Qed.

(** X19: the [groups] of a menu-bar record are pairwise different, each
    is the group of an entry that has a category, a true name and a
    true group, and the group of every such entry is among them. *)
Theorem menubar_groups (mb out : dict) (ms : list dict) :
  dict_get "controls" mb = Some (VList (map VDict ms)) ->
  post_menubar (VDict mb) = Ok (VDict out) ->
  exists groups,
    dict_get "groups" out = Some (VList groups)
    /\ distinct_keys groups
    /\ (forall g, In g groups -> exists m, In m ms /\ in_group g m)
    /\ (forall g m, In m ms -> in_group g m ->
          existsb (key_eqb g) groups = true).
Proof.
  intros Hctl H. unfold post_menubar in H. cbn [as_dict bind] in H.
  unfold dict_pop in H. rewrite Hctl in H. cbn [bind as_list] in H.
  invert_bind H as acc Hloop. destruct acc as [cats groups].
  cbn beta iota in H. injection H as <-.
  destruct (menus_loop_groups ms [] [] cats groups (Forall_nil _) Hloop)
    as (Hd & Hin & _ & Hadd).
  exists groups. split; [apply dict_get_set_eq |].
  split; [now apply Hd |]. split; [| exact Hadd].
  intros g Hg. destruct (Hin g Hg) as [[] | ?]. assumption.
Qed.

Lemma menubar_groups_witness :
  exists groups,
    dict_get "groups" group_menubar_out = Some (VList groups)
    /\ distinct_keys groups
    /\ (forall g, In g groups -> exists m, In m group_menu /\ in_group g m)
    /\ (forall g m, In m group_menu -> in_group g m ->
          existsb (key_eqb g) groups = true).
Proof.
  apply (menubar_groups group_menubar group_menubar_out group_menu); reflexivity.
Defined.

End Groups.

(** ** The records of a menu bar *)

Section MenuRecords.

Local Open Scope string_scope.

Lemma action_of_tagged (m : dict) : action_tagged (VDict (action_of m)).
Proof.
  exists (action_of m). split; [reflexivity |]. unfold action_of.
  destruct (truthy_opt (dict_get "name" (dict_del "category" m))) eqn:E.
  - right. split; [apply dict_get_set_eq |].
    now rewrite dict_get_set_neq by discriminate.
  - now left.
Qed.

Lemma add_action_tagged (r a : dict) :
  record_tagged (VDict r) -> action_tagged (VDict a) ->
  record_tagged (VDict (add_action r a)).
Proof.
  intros (r' & acts & [= <-] & Ha & Hacts) Hta.
  exists (add_action r a), (acts ++ [VDict a])%list.
  unfold add_action, actions_of. rewrite Ha. split; [reflexivity |].
  split; [apply dict_get_set_eq |].
  apply Forall_app. split; [exact Hacts | constructor; [exact Hta | constructor]].
Qed.

Lemma category_record_tagged (c : value) (cats : odict) :
  categories_tagged cats -> record_tagged (VDict (category_record c cats)).
Proof.
  intros Hok. unfold category_record.
  destruct (odict_get c cats) as [v |] eqn:E.
  - pose proof (odict_get_Forall record_tagged c v cats Hok E) as Hv.
    destruct Hv as (r & acts & -> & H). exists r, acts. auto.
  - exists (new_category c), []. repeat split. constructor.
Qed.

Lemma menu_step_tagged (acc : odict * list value) (v : value) (acc' : odict * list value) :
  categories_ok (fst acc) /\ categories_tagged (fst acc) ->
  menu_step acc v = Ok acc' ->
  categories_ok (fst acc') /\ categories_tagged (fst acc').
Proof.
  intros [Hok Ht] H. split; [now apply (menu_step_ok acc v acc') |].
  destruct acc as [cats groups]. cbn [fst] in *.
  destruct v as [| | | | | | m]; try discriminate.
  destruct (dict_get "category" m) as [c |] eqn:Ec.
  - rewrite (menu_step_action cats groups m c Hok Ec) in H.
    invert_bind H as u Hu. invert_bind H as gs Hgs. injection H as <-. cbn [fst].
    apply (Forall_odict_set record_tagged).
    + unfold ensure_category. destruct (odict_get c cats); [exact Ht |].
      apply (Forall_odict_set record_tagged); [exact Ht |].
      exists (new_category c), []. repeat split. constructor.
    + apply add_action_tagged;
        [now apply category_record_tagged | apply action_of_tagged].
  - rewrite (menu_step_menu cats groups m Ec) in H.
    invert_bind H as n Hn. invert_bind H as u Hu. injection H as <-. cbn [fst].
    apply (Forall_odict_set record_tagged); [exact Ht |].
    exists (menu_of m), []. split; [reflexivity |].
    split; [apply menu_of_actions | constructor].
Qed.

(** X21: in every menu-bar record that [post_process] returns, each
    action of each record of [menus] is either the separator record or
    a record of type [ACTION] with a true name. *)
Theorem actions_are_tagged (f out : forest) (mb : value) :
  post_process f = Ok out ->
  In mb (f_menubars out) ->
  exists d menus,
    mb = VDict d
    /\ dict_get "type" d = Some (VStr "MENUBAR")
    /\ dict_get "controls" d = None
    /\ dict_get "menus" d = Some (VList menus)
    /\ Forall record_tagged menus.
Proof.
  intros H Hin. unfold post_process in H.
  invert_bind H as ms Hms. invert_bind H as bs Hbs. invert_bind H as ws Hws.
  injection H as <-. cbn [f_menubars] in Hin.
  destruct (map_result_In _ _ _ _ Hbs Hin) as (v & _ & Hv).
  unfold post_menubar in Hv.
  invert_bind Hv as menubar0 Hd. invert_bind Hv as popped Hpop.
  destruct popped as [menus_v menubar].
  cbn beta iota in Hv. invert_bind Hv as menus Hmenus. invert_bind Hv as acc Hloop.
  destruct acc as [cats groups]. cbn beta iota in Hv. injection Hv as <-.
  unfold dict_pop in Hpop.
  destruct (dict_get "controls" menubar0); [| discriminate].
  injection Hpop as _ <-.
  eexists _, (map snd cats). split; [reflexivity |]. repeat split.
  - rewrite !dict_get_set_neq by discriminate. apply dict_get_set_eq.
  - rewrite !dict_get_set_neq by discriminate. apply dict_get_del_eq.
  - rewrite dict_get_set_neq by discriminate. apply dict_get_set_eq.
  - assert (Hinv : categories_ok cats /\ categories_tagged cats).
    { apply (for_each_invariant
               (fun acc => categories_ok (fst acc) /\ categories_tagged (fst acc))
               menu_step menus menu_step_tagged ([], []) (cats, groups));
        [split; constructor | exact Hloop]. }
    destruct Hinv as [_ Ht]. unfold categories_tagged in Ht.
    rewrite Forall_forall in *.
    intros r (kv & <- & Hkv)%in_map_iff. now apply Ht.
Qed.

Lemma actions_are_tagged_witness :
  exists d menus,
    VDict group_menubar_out = VDict d
    /\ dict_get "type" d = Some (VStr "MENUBAR")
    /\ dict_get "controls" d = None
    /\ dict_get "menus" d = Some (VList menus)
    /\ Forall record_tagged menus.
Proof.
  apply (actions_are_tagged
           {| f_macrolists := []; f_menubars := [VDict group_menubar];
              f_windows := [] |}
           {| f_macrolists := []; f_menubars := [VDict group_menubar_out];
              f_windows := [] |}).
  - reflexivity.
  - left. reflexivity.
Defined.

(** X22: an entry without category replaces whatever record is filed
    under its name: the record under a name [c] is the last such entry
    named [c], turned into a menu, and its [actions] are the entries
    of category [c] that come after it; the actions filed under [c]
    before it are dropped. *)
Theorem last_named_menu_wins
    (pre post : list dict) (m : dict) (c : value)
    (cats : odict) (groups : list value) :
  is_named c m = true ->
  unnamed c post ->
  for_each menu_step (map VDict (pre ++ m :: post)) ([], []) = Ok (cats, groups) ->
  odict_get c cats
  = Some (VDict (dict_set "actions" (VList (actions_for c post)) (menu_of m))).
Proof.
  intros Hm Hpost Hloop.
  assert (Hproj : forall ms acc acc',
             categories_ok (fst acc) ->
             for_each menu_step (map VDict ms) acc = Ok acc' ->
             odict_get c (fst acc')
             = fold_left (record_step c) ms (odict_get c (fst acc))).
  { induction ms as [| x ms IH]; intros acc acc' Hok H.
    - cbn in H. now injection H as <-.
    - cbn [map for_each] in H. invert_bind H as acc1 Hstep.
      pose proof (menu_step_ok acc (VDict x) acc1 Hok Hstep) as Hok1.
      rewrite (IH acc1 acc' Hok1 H). cbn [fold_left]. f_equal.
      destruct acc as [cs gs], acc1 as [cs1 gs1]. cbn [fst] in *.
      destruct (dict_get "category" x) as [c' |] eqn:Ec.
      + rewrite (menu_step_action cs gs x c' Hok Ec) in Hstep.
        invert_bind Hstep as u Hu. invert_bind Hstep as g1 Hg1.
        injection Hstep as <- _.
        rewrite odict_get_set. unfold record_step. rewrite Ec.
        destruct (key_eqb c c') eqn:Eck.
        * unfold category_record. now rewrite (odict_get_congr c c' cs Eck).
        * now apply ensure_category_other.
      + rewrite (menu_step_menu cs gs x Ec) in Hstep.
        invert_bind Hstep as n Hn. invert_bind Hstep as u Hu.
        injection Hstep as <- _.
        rewrite odict_get_set. unfold record_step, is_named. rewrite Ec.
        unfold dict_getitem in Hn. destruct (dict_get "name" x); [| discriminate].
        now injection Hn as ->. }
  specialize (Hproj (pre ++ m :: post)%list ([], []) (cats, groups)
                (Forall_nil _) Hloop).
  cbn [fst] in Hproj. rewrite Hproj.
  apply (fold_named_menu c pre post m _ Hm Hpost).
Qed.

Lemma last_named_menu_wins_witness :
  odict_get (VStr "F")
    [(VStr "F",
      VDict [("type", VStr "MENU"); ("name", VStr "F");
             ("actions",
              VList [VDict [("type", VStr "ACTION"); ("name", VStr "B")]])])]
  = Some (VDict (dict_set "actions"
                   (VList (actions_for (VStr "F")
                             [[("type", VStr "elem"); ("name", VStr "B");
                               ("category", VStr "F")]]))
                   (menu_of [("type", VStr "elem"); ("name", VStr "F")]))).
Proof.
  apply (last_named_menu_wins
           [[("type", VStr "elem"); ("name", VStr "A"); ("category", VStr "F")]]
           [[("type", VStr "elem"); ("name", VStr "B"); ("category", VStr "F")]]
           [("type", VStr "elem"); ("name", VStr "F")]
           (VStr "F") _ []); reflexivity.
Defined.

End MenuRecords.
